(** * nfl-fantasy: a shallow embedding of the analytics code

    This development embeds, function by function, the parts of the
    fantasy-league repository that its specification makes claims about:

    - [scripts/create_psychology_insights.py]: [calculate_streaks] and the
      streak maxima of [analyze_performance_psychology], the Defensive axis of
      [analyze_manager_dna];
    - [scripts/create_temporal_dynamics_insights.py]: [calculate_gini],
      [analyze_bad_beats] and the filtering done by its caller;
    - [scripts/cleanup_project.py]: the space-saved accumulator;
    - [src/extractor.py]: [_generate_owner_id];
    - [src/analytics.py]: [calculate_head_to_head_records] and
      [get_rivalry_analysis];
    - [src/storage.py]: the CSV save and load functions.

    Conventions.  Python [int] is [Z].  Scores and points, which the code
    only adds, averages and compares, are exact rationals [Q]; a value that
    Python computes as NaN (the mean of an empty list) is [None] in an
    [option Q], and every comparison with NaN is false, as in Python.  The
    Gini coefficient, whose value is the subject of a claim, is computed in
    IEEE 754 binary64 with the primitive floats of the standard library.
    Python [str] is [string], a character being a code point below 256. *)

From Stdlib Require Import ZArith QArith Qabs Qround Lqa List Bool Lia String Ascii.
From Stdlib Require Import Sorted Permutation.
From Stdlib Require PrimFloat Uint63.
Import ListNotations.

Local Open Scope Z_scope.

(** * Part I: the program, and the vocabulary of its specification *)

(** ** Streaks: scripts/create_psychology_insights.py *)

Module Streaks.

(** The [for i in range(1, len(results))] loop of [calculate_streaks].
    [prev] is [results[i-1]], [current_streak] and [streaks] are the two
    local variables, [rest] is [results[i:]].  The two conditional
    increments [1 if current_streak > 0 else 1] and
    [1 if current_streak < 0 else 1] are kept as written. *)
Fixpoint streaks_loop (prev : bool) (current_streak : Z) (streaks : list Z)
  (rest : list bool) : list Z :=
  match rest with
  | [] => streaks ++ [current_streak]
  | r :: rest' =>
      if Bool.eqb r prev then
        if r then
          streaks_loop r (current_streak + (if 0 <? current_streak then 1 else 1))
            streaks rest'
        else
          streaks_loop r (current_streak - (if current_streak <? 0 then 1 else 1))
            streaks rest'
      else
        streaks_loop r (if r then 1 else -1) (streaks ++ [current_streak]) rest'
  end.

(** [calculate_streaks(results)]: [[0]] on the empty list, otherwise the loop
    started at [results[0]]. *)
Definition calculate_streaks (results : list bool) : list Z :=
  match results with
  | [] => [0]
  | r0 :: rest => streaks_loop r0 (if r0 then 1 else -1) [] rest
  end.

(** Python's [max] and [min] of a list that is known to be non-empty because
    [[0]] was appended to it. *)
Definition max_with_zero (l : list Z) : Z := fold_right Z.max 0 l.
Definition min_with_zero (l : list Z) : Z := fold_right Z.min 0 l.

(** [max([s for s in streaks if s > 0] + [0])] *)
Definition max_win_streak (results : list bool) : Z :=
  max_with_zero (filter (fun s => 0 <? s) (calculate_streaks results)).

(** [abs(min([s for s in streaks if s < 0] + [0]))] *)
Definition max_lose_streak (results : list bool) : Z :=
  Z.abs (min_with_zero (filter (fun s => s <? 0) (calculate_streaks results))).

(** *** What the specification speaks of: maximal runs *)

(** The maximal runs of equal results, in order, each with its length. *)
Fixpoint runs (l : list bool) : list (bool * nat) :=
  match l with
  | [] => []
  | x :: l' =>
      match runs l' with
      | (y, n) :: rs => if Bool.eqb x y then (y, S n) :: rs else (x, 1%nat) :: (y, n) :: rs
      | [] => [(x, 1%nat)]
      end
  end.

(** A run of wins is a positive entry, a run of losses a negative one. *)
Definition signed (r : bool * nat) : Z :=
  if fst r then Z.of_nat (snd r) else - Z.of_nat (snd r).

Definition signed_runs (l : list bool) : list Z := map signed (runs l).

(** [l] contains [n] consecutive results equal to [b]. *)
Definition has_run (b : bool) (n : nat) (l : list bool) : Prop :=
  exists l1 l2, l = l1 ++ repeat b n ++ l2.

(** [n] is the length of the longest run of [b] in [l]. *)
Definition longest_run (b : bool) (l : list bool) (n : nat) : Prop :=
  has_run b n l /\ forall m, has_run b m l -> (m <= n)%nat.

(** Expanding the runs gives the sequence back. *)
Fixpoint expand (rs : list (bool * nat)) : list bool :=
  match rs with
  | [] => []
  | (b, n) :: rs' => repeat b n ++ expand rs'
  end.

(** No two neighbouring runs carry the same result. *)
Fixpoint alternating (rs : list (bool * nat)) : Prop :=
  match rs with
  | [] => True
  | (b, _) :: rs' =>
      match rs' with
      | [] => True
      | (c, _) :: _ => b <> c /\ alternating rs'
      end
  end.

(** *** Longest runs *)

(** Length of the run of [b] the list starts with. *)
Fixpoint lead (b : bool) (l : list bool) : nat :=
  match l with
  | [] => 0
  | x :: l' => if Bool.eqb x b then S (lead b l') else 0
  end.

(** Longest run of [b] anywhere in the list. *)
Fixpoint best (b : bool) (l : list bool) : nat :=
  match l with
  | [] => 0
  | _ :: l' => Nat.max (lead b l) (best b l')
  end.

(** Longest run of [b] among the runs [rs]. *)
Fixpoint max_run (b : bool) (rs : list (bool * nat)) : nat :=
  match rs with
  | [] => 0
  | (y, n) :: rs' => Nat.max (if Bool.eqb y b then n else 0) (max_run b rs')
  end.

End Streaks.

(** ** Owner identifiers: src/extractor.py *)

Module OwnerId.

Local Open Scope N_scope.

(** A Python [str] is read as its list of code points. *)
Definition text := list ascii.

Definition code (c : ascii) : N := N_of_ascii c.

Definition in_range (lo hi : N) (c : ascii) : bool :=
  (lo <=? code c) && (code c <=? hi).

(** [a-z], [A-Z] and [0-9] of the regular expression. *)
Definition is_lower (c : ascii) : bool := in_range 97 122 c.
Definition is_upper (c : ascii) : bool := in_range 65 90 c.
Definition is_digit (c : ascii) : bool := in_range 48 57 c.

(** White space as [str.split()] and the class [\s] of a [str] pattern see it:
    TAB to CR, the separators FS to US, the space, NEL and the no-break
    space. *)
Definition is_space (c : ascii) : bool :=
  in_range 9 13 c || in_range 28 32 c || (code c =? 133) || (code c =? 160).

(** [str.lower()] on one code point: [A-Z] and the capital letters of the
    Latin-1 block (all of U+00C0..U+00DE but the multiplication sign). *)
Definition lower_char (c : ascii) : ascii :=
  if is_upper c || (in_range 192 222 c && negb (code c =? 215))
  then ascii_of_N (code c + 32)
  else c.

Definition lower (s : text) : text := map lower_char s.

(** The characters that [re.sub(r'[^a-zA-Z0-9\s]', '', ...)] leaves. *)
Definition kept (c : ascii) : bool :=
  is_lower c || is_upper c || is_digit c || is_space c.

Definition clean_name (owner_name : text) : text := filter kept (lower owner_name).

(** [str.split()] with no argument: [word] is the word being read. *)
Fixpoint split_loop (word : text) (s : text) : list text :=
  match s with
  | [] => match word with [] => [] | _ :: _ => [word] end
  | c :: s' =>
      if is_space c then
        match word with
        | [] => split_loop [] s'
        | _ :: _ => word :: split_loop [] s'
        end
      else split_loop (word ++ [c]) s'
  end.

Definition split (s : text) : list text := split_loop [] s.

Definition underscore : ascii := "_"%char.

(** ['_'.join(words)] *)
Fixpoint join (words : list text) : text :=
  match words with
  | [] => []
  | w :: ws => match ws with [] => w | _ :: _ => w ++ underscore :: join ws end
  end.

(** [_generate_owner_id] on code points, and on strings. *)
Definition generate (owner_name : text) : text := join (split (clean_name owner_name)).

Definition _generate_owner_id (owner_name : string) : string :=
  string_of_list_ascii (generate (list_ascii_of_string owner_name)).

(** *** What the specification speaks of *)

(** Every maximal run of white space replaced by one underscore. *)
Fixpoint squeeze_from (in_run : bool) (s : text) : text :=
  match s with
  | [] => []
  | c :: s' =>
      if is_space c then
        if in_run then squeeze_from true s' else underscore :: squeeze_from true s'
      else c :: squeeze_from false s'
  end.

Definition squeeze (s : text) : text := squeeze_from false s.

(** White space removed at the start, at the end, at both ends. *)
Fixpoint dropws (s : text) : text :=
  match s with
  | [] => []
  | c :: s' => if is_space c then dropws s' else s
  end.

Fixpoint trim_end (s : text) : text :=
  match s with
  | [] => []
  | c :: s' =>
      match trim_end s' with
      | [] => if is_space c then [] else [c]
      | t => c :: t
      end
  end.

Definition trim (s : text) : text := dropws (trim_end s).

(** A character an identifier may hold: a lowercase letter, a digit or the
    underscore. *)
Definition id_char (c : ascii) : bool :=
  is_lower c || is_digit c || (code c =? 95).

(** A text without white space, as every word is. *)
Definition spacefree (w : text) : Prop := Forall (fun c => is_space c = false) w.

End OwnerId.

(** ** Python numbers and dictionaries *)

Module PyNum.

Local Open Scope Q_scope.

(** [sum(values)] and [np.sum]. *)
Definition qsum (l : list Q) : Q := fold_left Qplus l 0.

(** [np.mean]: NaN on the empty list. *)
Definition mean (l : list Q) : option Q :=
  match l with
  | [] => None
  | _ :: _ => Some (qsum l / inject_Z (Z.of_nat (List.length l)))
  end.

(** [x > y] where [x] may be NaN. *)
Definition gt_nan (x : option Q) (y : Q) : bool :=
  match x with
  | Some v => negb (Qle_bool v y)
  | None => false
  end.

(** The integer nearest to [q], a tie going to the even neighbour: twice the
    fractional part is compared with one. *)
Definition round_half_even (q : Q) : Z :=
  let f := Qfloor q in
  match (2 * (Qnum q - f * QDen q) ?= QDen q)%Z with
  | Lt => f
  | Gt => (f + 1)%Z
  | Eq => if Z.even f then f else (f + 1)%Z
  end.

(** [round(x, ndigits)] for a non-negative [ndigits], on the exact value. *)
Definition py_round (x : Q) (ndigits : nat) : Q :=
  inject_Z (round_half_even (x * inject_Z (10 ^ Z.of_nat ndigits)))
  / inject_Z (10 ^ Z.of_nat ndigits).

End PyNum.

Module PyDict.

Section Dict.

Variables (K V : Type).
Variable eqb : K -> K -> bool.

(** A [dict]: the keys in insertion order, each once. *)
Definition dict := list (K * V).

Fixpoint get (d : dict) (k : K) : option V :=
  match d with
  | [] => None
  | (k', v) :: d' => if eqb k k' then Some v else get d' k
  end.

(** [d[k] = v]: in place when the key is there, at the end when it is new. *)
Fixpoint set (d : dict) (k : K) (v : V) : dict :=
  match d with
  | [] => [(k, v)]
  | (k', v') :: d' => if eqb k k' then (k', v) :: d' else (k', v') :: set d' k v
  end.

(** [d.get(k, default)] *)
Definition get_default (d : dict) (k : K) (default : V) : V :=
  match get d k with Some v => v | None => default end.

End Dict.

Arguments get {K V} eqb d k.
Arguments set {K V} eqb d k v.
Arguments get_default {K V} eqb d k default.

End PyDict.

(** ** The entities of src/models.py *)

Module Models.

Record Owner := {
  owner_id : string;
  name : string;
  email : option string
}.

Record Team := {
  team_id : string;
  t_owner_id : string;
  team_name : string;
  t_season : Z;
  division : option string
}.

Record Matchup := {
  matchup_id : string;
  m_season : Z;
  week : Z;
  team1_owner_id : string;
  team2_owner_id : string;
  team1_score : Q;
  team2_score : Q;
  winner_owner_id : option string;
  playoff : bool
}.

Record SeasonRecord := {
  s_owner_id : string;
  s_season : Z;
  wins : Z;
  losses : Z;
  ties : Z;
  points_for : Q;
  points_against : Q;
  final_rank : Z;
  playoff_seed : option Z
}.

(** [players] is a list of dictionaries; its type is left open. *)
Record Roster (Players : Type) := {
  roster_id : string;
  r_owner_id : string;
  r_season : Z;
  r_week : Z;
  players : Players
}.

Arguments roster_id {Players} _.
Arguments r_owner_id {Players} _.
Arguments r_season {Players} _.
Arguments r_week {Players} _.
Arguments players {Players} _.

Record HeadToHeadRecord := {
  owner1_id : string;
  owner2_id : string;
  owner1_wins : Z;
  owner2_wins : Z;
  owner1_points : Q;
  owner2_points : Q;
  total_games : Z
}.

(** [{owner.owner_id: owner.name for owner in owners}] *)
Definition owner_names (owners : list Owner) : PyDict.dict string string :=
  fold_left (fun d o => PyDict.set String.eqb d (owner_id o) (name o)) owners [].

End Models.

(** ** Rivalries: src/analytics.py, [get_rivalry_analysis] *)

Module Rivalry.

Import Models PyNum.
Local Open Scope Q_scope.

(** One dictionary of the returned list. *)
Record Rivalry := {
  owner1 : string;
  owner2 : string;
  r_total_games : Z;
  r_owner1_wins : Z;
  r_owner2_wins : Z;
  competitiveness_score : Q;
  avg_points_diff : Q;
  series_leader : string
}.

(** The local [competitiveness], before it is rounded. *)
Definition competitiveness (record : HeadToHeadRecord) : Q :=
  let total_wins := (owner1_wins record + owner2_wins record)%Z in
  let win_diff := Z.abs (owner1_wins record - owner2_wins record) in
  if (0 <? total_wins)%Z then 1 - inject_Z win_diff / inject_Z total_wins else 0.

(** The local [avg_points_diff], before it is rounded. *)
Definition points_diff (record : HeadToHeadRecord) : Q :=
  if (0 <? total_games record)%Z then
    Qabs (owner1_points record / inject_Z (total_games record)
          - owner2_points record / inject_Z (total_games record))
  else 0.

Definition rivalry_of (names : PyDict.dict string string) (record : HeadToHeadRecord)
  : Rivalry :=
  {| owner1 := PyDict.get_default String.eqb names (owner1_id record) (owner1_id record);
     owner2 := PyDict.get_default String.eqb names (owner2_id record) (owner2_id record);
     r_total_games := total_games record;
     r_owner1_wins := owner1_wins record;
     r_owner2_wins := owner2_wins record;
     competitiveness_score := py_round (competitiveness record) 3;
     avg_points_diff := py_round (points_diff record) 1;
     series_leader :=
       PyDict.get_default String.eqb names
         (if (owner2_wins record <? owner1_wins record)%Z
          then owner1_id record else owner2_id record)
         "Tied"%string |}.

(** [rivalries.sort(key=..., reverse=True)]: a stable sort, highest score
    first. *)
Fixpoint insert_desc (x : Rivalry) (l : list Rivalry) : list Rivalry :=
  match l with
  | [] => [x]
  | y :: l' =>
      if Qle_bool (competitiveness_score y) (competitiveness_score x)
      then x :: l
      else y :: insert_desc x l'
  end.

Definition sort_desc (l : list Rivalry) : list Rivalry := fold_right insert_desc [] l.

Definition get_rivalry_analysis (h2h_records : list HeadToHeadRecord)
  (owners : list Owner) (min_games : Z) : list Rivalry :=
  sort_desc
    (map (rivalry_of (owner_names owners))
       (filter (fun record => (min_games <=? total_games record)%Z) h2h_records)).

(** Win counts are counts. *)
Definition counts_ok (record : HeadToHeadRecord) : Prop :=
  (0 <= owner1_wins record)%Z /\ (0 <= owner2_wins record)%Z.

(** A series of seven games, four wins to three. *)
Definition sample_record : HeadToHeadRecord :=
  {| owner1_id := "a"; owner2_id := "b"; owner1_wins := 4; owner2_wins := 3;
     owner1_points := 700; owner2_points := 650; total_games := 7 |}.

End Rivalry.

(** ** The rows of the matchup table *)

Module Frames.

Import PyNum.
Local Open Scope Q_scope.

(** One row of [league_hard_knox_2017_2024_complete.csv] as the scripts read
    it.  [winning_manager] is NaN, here [None], for a game without winner. *)
Record Row := {
  season : Z;
  week : Z;
  team1 : string;
  manager1 : string;
  team1_score : Q;
  team2 : string;
  manager2 : string;
  team2_score : Q;
  winning_manager : option string;
  playoff : bool
}.

(** [row['winning_manager'] == manager]: false when the cell is NaN. *)
Definition won_by (row : Row) (manager : string) : bool :=
  match winning_manager row with
  | Some w => String.eqb w manager
  | None => false
  end.

(** [manager in active_managers] *)
Definition isin (manager : string) (managers : list string) : bool :=
  existsb (String.eqb manager) managers.

(** The twelve names both scripts hard-code. *)
Definition active_managers : list string :=
  ["Hayden"; "Michael"; "Phoenix"; "Billy"; "Robbie"; "Nelson";
   "Fraser"; "Justin"; "Angus"; "Nic"; "William"; "James"]%string.

(** [matchups_df[matchups_df['manager1'].isin(active_managers) &
    matchups_df['manager2'].isin(active_managers)]] *)
Definition current_matchups (matchups_df : list Row) (managers : list string) : list Row :=
  filter (fun row => isin (manager1 row) managers && isin (manager2 row) managers)
    matchups_df.

(** [df[df['season'] == season]] *)
Definition of_season (df : list Row) (s : Z) : list Row :=
  filter (fun row => (season row =? s)%Z) df.

(** [df[(df['manager1'] == manager) | (df['manager2'] == manager)]] *)
Definition games_of (df : list Row) (manager : string) : list Row :=
  filter (fun row => String.eqb (manager1 row) manager || String.eqb (manager2 row) manager)
    df.

End Frames.

(** ** Gini coefficient: scripts/create_temporal_dynamics_insights.py

    [calculate_gini] is arithmetic on numpy [float64] arrays, and what the
    specification says about it is a statement about the numbers it returns,
    so here a [float] is an IEEE 754 binary64 number and every operation
    rounds to nearest as numpy's does. *)

Module Gini.

Import Frames PrimFloat.
Local Open Scope float_scope.

(** The [float64] of a count; exact below 2^53. *)
Definition of_count (n : nat) : float := of_uint63 (Uint63.of_Z (Z.of_nat n)).

(** [np.sort(values)], for values none of which is NaN. *)
Fixpoint insert_asc (x : float) (l : list float) : list float :=
  match l with
  | [] => [x]
  | y :: l' => if leb x y then x :: l else y :: insert_asc x l'
  end.

Definition np_sort (values : list float) : list float := fold_right insert_asc [] values.

(** [index * values] with [index = first, first + 1, ...]. *)
Fixpoint rank_weighted (first : nat) (values : list float) : list float :=
  match values with
  | [] => []
  | v :: values' => of_count first * v :: rank_weighted (S first) values'
  end.

(** *** [np.sum]

    numpy adds a contiguous [float64] array by pairwise summation: fewer than
    8 numbers one after the other; up to 128 numbers in 8 running sums that
    take every eighth number and are added up in pairs, followed by the
    numbers that are left; more than 128 numbers in two halves. *)

Fixpoint add_lanes (r a : list float) : list float :=
  match r, a with
  | x :: r', y :: a' => x + y :: add_lanes r' a'
  | _, _ => []
  end.

(** [for (i = 8; i < n - (n % 8); i += 8) r[j] += a[i + j]]: the running sums
    and the numbers left over. *)
Fixpoint lanes (fuel : nat) (r rest : list float) : list float * list float :=
  match fuel with
  | O => (r, rest)
  | S fuel' =>
      if (8 <=? List.length rest)%nat
      then lanes fuel' (add_lanes r (firstn 8 rest)) (skipn 8 rest)
      else (r, rest)
  end.

Definition sum8 (r : list float) : float :=
  match r with
  | [r0; r1; r2; r3; r4; r5; r6; r7] => ((r0 + r1) + (r2 + r3)) + ((r4 + r5) + (r6 + r7))
  | _ => nan
  end.

Definition block_sum (a : list float) : float :=
  let (r, rest) := lanes (List.length a) (firstn 8 a) (skipn 8 a) in
  fold_left add rest (sum8 r).

(** The fuel is the length of the array, more than the halvings need. *)
Fixpoint pairwise_sum (fuel : nat) (a : list float) : float :=
  let n := List.length a in
  if (n <? 8)%nat then fold_left add a 0
  else if (n <=? 128)%nat then block_sum a
  else
    match fuel with
    | O => nan
    | S fuel' =>
        let n2 := (n / 2 - (n / 2) mod 8)%nat in
        pairwise_sum fuel' (firstn n2 a) + pairwise_sum fuel' (skipn n2 a)
    end.

(** The reduction starts from the identity of the addition. *)
Definition np_sum (a : list float) : float := 0 + pairwise_sum (List.length a) a.

(** [calculate_gini].  [None] is the [ZeroDivisionError] that [(n + 1) / n]
    raises on an empty list; the numpy quotient before it only warns. *)
Definition calculate_gini (values : list float) : option float :=
  let values := np_sort values in
  let n := List.length values in
  let quotient := (2 * np_sum (rank_weighted 1 values)) / (of_count n * np_sum values) in
  if (n =? 0)%nat then None
  else Some (quotient - of_count (n + 1) / of_count n).

(** [wins / len(manager_games)] *)
Definition win_pct (wins games : nat) : float := of_count wins / of_count games.

(** The list [season_win_pcts] that [analyze_parity_evolution] builds for one
    season: one entry per active manager who played that season. *)
Definition season_win_pcts (matchups_df : list Row) (s : Z) (managers : list string)
  : list float :=
  let season_data := of_season matchups_df s in
  flat_map
    (fun manager =>
       let manager_games := games_of season_data manager in
       match manager_games with
       | [] => []
       | _ :: _ =>
           let wins := List.length (filter (fun row => won_by row manager) manager_games) in
           [win_pct wins (List.length manager_games)]
       end)
    managers.

(** The [gini_coefficient] entry of a season of [analyze_parity_evolution];
    the outer [None] when the season gets no entry ([if season_win_pcts:]). *)
Definition gini_coefficient (matchups_df : list Row) (s : Z) (managers : list string)
  : option (option float) :=
  match season_win_pcts matchups_df s managers with
  | [] => None
  | pcts => Some (calculate_gini pcts)
  end.

(** *** What the specification speaks of *)

(** Every value is the number [c]. *)
Definition all_equal (c : float) (values : list float) : Prop :=
  Forall (fun v => v = c) values.

(** Zero up to rounding: a number of absolute value at most 2^-50, which is
    four units in the last place of the two numbers, between 1 and 2, whose
    difference the coefficient is. *)
Definition nearly_zero (x : float) : bool := leb (abs x) 0x1p-50.

(** What the coefficient of [n] equal win percentages, each of [wins] wins in
    [games] games, has to be: NaN when they are 0, nearly zero otherwise. *)
Definition equal_season_ok (n wins games : nat) : bool :=
  match calculate_gini (repeat (win_pct wins games) n) with
  | Some gini => if (wins =? 0)%nat then is_nan gini else nearly_zero gini
  | None => false
  end.

(** The same for every number of wins out of [games] games, and for every
    number of games up to 40. *)
Definition games_ok (n games : nat) : bool :=
  forallb (fun wins => equal_season_ok n wins games) (seq 0 (S games)).

Definition managers_ok (n : nat) : bool := forallb (games_ok n) (seq 1 40).

(** A season of two games between the same two managers, one win each. *)
Definition sample_season : list Row :=
  [{| season := 2021; week := 1; team1 := "A"; manager1 := "Hayden";
      team1_score := 120; team2 := "B"; manager2 := "Michael";
      team2_score := 100; winning_manager := Some "Hayden"%string; playoff := false |};
   {| season := 2021; week := 2; team1 := "A"; manager1 := "Hayden";
      team1_score := 90; team2 := "B"; manager2 := "Michael";
      team2_score := 100; winning_manager := Some "Michael"%string; playoff := false |}].

(** A season of five games between the same two managers: one win each and
    three games without winner. *)
Definition drawn_season : list Row :=
  [{| season := 2022; week := 1; team1 := "A"; manager1 := "Hayden";
      team1_score := 120; team2 := "B"; manager2 := "Michael";
      team2_score := 100; winning_manager := Some "Hayden"%string; playoff := false |};
   {| season := 2022; week := 2; team1 := "A"; manager1 := "Hayden";
      team1_score := 90; team2 := "B"; manager2 := "Michael";
      team2_score := 100; winning_manager := Some "Michael"%string; playoff := false |};
   {| season := 2022; week := 3; team1 := "A"; manager1 := "Hayden";
      team1_score := 100; team2 := "B"; manager2 := "Michael";
      team2_score := 100; winning_manager := None; playoff := false |};
   {| season := 2022; week := 4; team1 := "A"; manager1 := "Hayden";
      team1_score := 95; team2 := "B"; manager2 := "Michael";
      team2_score := 95; winning_manager := None; playoff := false |};
   {| season := 2022; week := 5; team1 := "A"; manager1 := "Hayden";
      team1_score := 110; team2 := "B"; manager2 := "Michael";
      team2_score := 110; winning_manager := None; playoff := false |}].

(** A season of one game that nobody won. *)
Definition winless_season : list Row :=
  [{| season := 2020; week := 1; team1 := "A"; manager1 := "Hayden";
      team1_score := 100; team2 := "B"; manager2 := "Michael";
      team2_score := 100; winning_manager := None; playoff := false |}].

End Gini.

(** ** Cleanup utility: scripts/cleanup_project.py *)

Module Cleanup.

Import PyNum Frames.
Local Open Scope Q_scope.
Local Open Scope string_scope.

Definition redundant_dirs : list string :=
  [ "data/full_seasons_2020_2024";
    "data/full_seasons_2017_2024";
    "data/manager_mapped_dataset";
    "data/final_corrected_dataset";
    "data/manager_analysis_2020_2024";
    "data/manager_analysis_final";
    "data/owner_mappings";
    "data/season_2019" ].

Definition redundant_scripts : list string :=
  [ "scripts/extract_real_data.py";
    "scripts/extract_with_better_parsing.py";
    "scripts/extract_real_game_data.py";
    "scripts/extract_final_real_data.py";
    "scripts/extract_matchup_data.py";
    "scripts/extract_week_matchups.py";
    "scripts/extract_owner_mappings.py";
    "scripts/extract_full_seasons.py";
    "scripts/extract_seasons_efficient.py";
    "scripts/extract_2022_and_combine.py";
    "scripts/extract_2020_2021.py";
    "scripts/extract_manager_names.py";
    "scripts/extract_2017_2019.py";
    "scripts/extract_2017_2019_focused.py";
    "scripts/extract_2019_only.py";
    "scripts/check_2019_data.py";
    "scripts/check_historical_availability.py";
    "scripts/create_owner_mapped_dataset.py";
    "scripts/create_fixed_owner_mapping.py";
    "scripts/create_final_corrected_dataset.py";
    "scripts/create_owner_mapped_dataset.py";
    "scripts/create_final_manager_reports.py" ].

Definition redundant_files : list string :=
  [ "data/actual_owners/owners_2017.csv";
    "data/actual_owners/owners_2018.csv";
    "data/actual_owners/owners_2019.csv";
    "data/actual_owners/owners_2020.csv";
    "data/actual_owners/owners_2021.csv";
    "data/actual_owners/owners_2022.csv";
    "data/actual_owners/owners_2023.csv";
    "data/actual_owners/owners_2024.csv" ].

(** What the utility sees of the file system: for a directory that exists
    the summed [st_size] of the files below it, for a file that exists its
    [st_size], in bytes. *)
Record FileSystem := {
  dir_bytes : string -> option Z;
  file_bytes : string -> option Z
}.

(** [shutil.rmtree] and [Path.unlink] *)
Definition rmtree (fs : FileSystem) (path : string) : FileSystem :=
  {| dir_bytes := fun p => if String.eqb p path then None else dir_bytes fs p;
     file_bytes := file_bytes fs |}.

Definition unlink (fs : FileSystem) (path : string) : FileSystem :=
  {| dir_bytes := dir_bytes fs;
     file_bytes := fun p => if String.eqb p path then None else file_bytes fs p |}.

(** The state of a run: the file system, the accumulator, and what was
    removed so far, with its size in bytes (the "Removing:" lines). *)
Record Run := {
  fs : FileSystem;
  total_size_saved : Q;
  removed_dirs : list (string * Z);
  removed_files : list (string * Z)
}.

(** Body of [for dir_path in redundant_dirs]. *)
Definition clean_dir (run : Run) (dir_path : string) : Run :=
  match dir_bytes (fs run) dir_path with
  | Some size =>
      let size_mb := inject_Z size / inject_Z (1024 * 1024) in
      {| fs := rmtree (fs run) dir_path;
         total_size_saved := total_size_saved run + size_mb;
         removed_dirs := removed_dirs run ++ [(dir_path, size)];
         removed_files := removed_files run |}
  | None => run
  end.

(** Body of [for script_path in redundant_scripts] and of
    [for file_path in redundant_files]. *)
Definition clean_file (run : Run) (file_path : string) : Run :=
  match file_bytes (fs run) file_path with
  | Some st_size =>
      let size := inject_Z st_size / inject_Z 1024 in
      {| fs := unlink (fs run) file_path;
         total_size_saved := total_size_saved run + size / inject_Z 1024;
         removed_dirs := removed_dirs run;
         removed_files := removed_files run ++ [(file_path, st_size)] |}
  | None => run
  end.

(** The three loops of [cleanup_project]; the value printed after
    "Space saved" is [total_size_saved] of the result. *)
Definition cleanup_project (fs0 : FileSystem) : Run :=
  let run := {| fs := fs0; total_size_saved := 0; removed_dirs := [];
                removed_files := [] |} in
  let run := fold_left clean_dir redundant_dirs run in
  let run := fold_left clean_file redundant_scripts run in
  fold_left clean_file redundant_files run.

(** *** What the specification speaks of *)

Definition megabytes (bytes : Z) : Q := inject_Z bytes / inject_Z (1024 * 1024).
Definition kilobytes (bytes : Z) : Q := inject_Z bytes / inject_Z 1024.

(** Directories in megabytes, files in kilobytes. *)
Definition mixed_total (run : Run) : Q :=
  qsum (map (fun e => megabytes (snd e)) (removed_dirs run))
  + qsum (map (fun e => kilobytes (snd e)) (removed_files run)).

(** Directories and files in megabytes. *)
Definition megabyte_total (run : Run) : Q :=
  qsum (map (fun e => megabytes (snd e)) (removed_dirs run))
  + qsum (map (fun e => megabytes (snd e)) (removed_files run)).

(** A project in which one of the redundant scripts is left, 2048 bytes
    long. *)
Definition one_script : FileSystem :=
  {| dir_bytes := fun _ => None;
     file_bytes := fun p =>
       if String.eqb p "scripts/extract_real_data.py" then Some 2048%Z else None |}.

End Cleanup.

(** ** Manager DNA: scripts/create_psychology_insights.py *)

Module ManagerDna.

Import PyNum Frames.
Local Open Scope Q_scope.

(** Python's [min(a, b)] and [max(a, b)]: the first argument unless the
    second is strictly smaller, respectively larger. *)
Definition py_min (a b : Q) : Q := if Qle_bool a b then a else b.
Definition py_max (a b : Q) : Q := if Qle_bool b a then a else b.

(** The list [opponent_scores] that [analyze_manager_dna] collects for one
    manager. *)
Definition opponent_scores (matchups_df : list Row) (manager : string) : list Q :=
  map (fun row =>
         if String.eqb (manager1 row) manager then team2_score row else team1_score row)
    (games_of matchups_df manager).

(** The ['defensive'] entry of the manager's profile. *)
Definition defensive (matchups_df : list Row) (manager : string) : Q :=
  let avg_opp_score := mean (opponent_scores matchups_df manager) in
  let league_opp_avg := avg_opp_score in
  if gt_nan league_opp_avg 0 then
    match avg_opp_score, league_opp_avg with
    | Some a, Some l => py_max 0 (py_min ((1 - a / l) * inject_Z 10 + inject_Z 5) (inject_Z 10))
    | _, _ => inject_Z 5
    end
  else inject_Z 5.

End ManagerDna.

(** ** Bad beats: scripts/create_temporal_dynamics_insights.py *)

Module BadBeats.

Import PyNum Frames.
Local Open Scope Q_scope.

(** One dictionary appended to [bad_beats]. *)
Record BadBeat := {
  bb_season : Z;
  bb_week : Z;
  bb_manager : string;
  bb_team : string;
  bb_score : Q;
  bb_opponent : string;
  bb_opponent_score : Q;
  bb_margin : Q;
  bb_season_avg : Q;
  bb_above_avg : Q;
  bb_playoff : bool
}.

(** [pd.concat([season_data['team1_score'], season_data['team2_score']])] *)
Definition all_scores (season_data : list Row) : list Q :=
  map team1_score season_data ++ map team2_score season_data.

(** [df['season'].unique()]: the seasons in order of first appearance. *)
Fixpoint unique (l : list Z) : list Z :=
  match l with
  | [] => []
  | x :: l' => x :: filter (fun y => negb (y =? x)%Z) (unique l')
  end.

(** The dictionary [season_averages]. *)
Definition season_averages (matchups_df : list Row) : PyDict.dict Z (option Q) :=
  fold_left
    (fun d s => PyDict.set Z.eqb d s (mean (all_scores (of_season matchups_df s))))
    (unique (map season matchups_df)) [].

Definition entry1 (row : Row) (season_avg : Q) : BadBeat :=
  {| bb_season := season row; bb_week := week row;
     bb_manager := manager1 row; bb_team := team1 row;
     bb_score := team1_score row;
     bb_opponent := manager2 row; bb_opponent_score := team2_score row;
     bb_margin := team2_score row - team1_score row;
     bb_season_avg := season_avg;
     bb_above_avg := team1_score row - season_avg;
     bb_playoff := playoff row |}.

Definition entry2 (row : Row) (season_avg : Q) : BadBeat :=
  {| bb_season := season row; bb_week := week row;
     bb_manager := manager2 row; bb_team := team2 row;
     bb_score := team2_score row;
     bb_opponent := manager1 row; bb_opponent_score := team1_score row;
     bb_margin := team1_score row - team2_score row;
     bb_season_avg := season_avg;
     bb_above_avg := team2_score row - season_avg;
     bb_playoff := playoff row |}.

(** The two [if] statements of the loop body, for one row.  A NaN average
    makes both comparisons false. *)
Definition check_row (managers : list string) (averages : PyDict.dict Z (option Q))
  (row : Row) : list BadBeat :=
  match PyDict.get_default Z.eqb averages (season row) (Some (inject_Z 120)) with
  | Some season_avg =>
      (if isin (manager1 row) managers
          && Qle_bool (season_avg + inject_Z 20) (team1_score row)
          && negb (won_by row (manager1 row))
       then [entry1 row season_avg] else [])
      ++
      (if isin (manager2 row) managers
          && Qle_bool (season_avg + inject_Z 20) (team2_score row)
          && negb (won_by row (manager2 row))
       then [entry2 row season_avg] else [])
  | None => []
  end.

(** The list [bad_beats] when the loop over the rows ends. *)
Definition bad_beats (matchups_df : list Row) (managers : list string) : list BadBeat :=
  flat_map (check_row managers (season_averages matchups_df)) matchups_df.

(** [sort_values(['above_avg', 'margin'], ascending=[False, False])]: stable,
    largest [above_avg] first, then largest [margin]. *)
Definition sorts_before (y x : BadBeat) : bool :=
  negb (Qle_bool (bb_above_avg y) (bb_above_avg x))
  || (Qeq_bool (bb_above_avg y) (bb_above_avg x)
      && negb (Qle_bool (bb_margin y) (bb_margin x))).

Fixpoint insert_beat (x : BadBeat) (l : list BadBeat) : list BadBeat :=
  match l with
  | [] => [x]
  | y :: l' => if sorts_before y x then y :: insert_beat x l' else x :: l
  end.

Definition sort_values (l : list BadBeat) : list BadBeat := fold_right insert_beat [] l.

(** [analyze_bad_beats].  [None] is the [KeyError] that [sort_values] raises
    on the column-less frame built from an empty list. *)
Definition analyze_bad_beats (matchups_df : list Row) (managers : list string)
  : option (list BadBeat) :=
  match bad_beats matchups_df managers with
  | [] => None
  | beats => Some (sort_values beats)
  end.

(** [temporal_data['bad_beats']] of [create_temporal_dynamics_insights]: the
    table is filtered to the games between two active managers before it is
    handed, through [analyze_temporal_patterns], to the analysis. *)
Definition dashboard_bad_beats (matchups_df : list Row) (managers : list string)
  : option (list BadBeat) :=
  analyze_bad_beats (current_matchups matchups_df managers) managers.

(** *** What the specification speaks of *)

(** Average score of a season over a given table. *)
Definition season_mean (df : list Row) (s : Z) : option Q :=
  mean (all_scores (of_season df s)).

(** A manager's score in a row is a bad beat with respect to the averages of
    the table [df]. *)
Definition is_bad_beat (df : list Row) (managers : list string) (row : Row)
  (manager : string) (score : Q) (season_avg : Q) : Prop :=
  season_mean df (season row) = Some season_avg
  /\ isin manager managers = true
  /\ season_avg + inject_Z 20 <= score
  /\ won_by row manager = false.

(** *** A table on which the two readings differ *)

Definition game (s w : Z) (m1 : string) (s1 : Q) (m2 : string) (s2 : Q)
  (winner : option string) : Row :=
  {| season := s; week := w; team1 := m1; manager1 := m1; team1_score := s1;
     team2 := m2; manager2 := m2; team2_score := s2;
     winning_manager := winner; playoff := false |}.

Definition sample_table : list Row :=
  [ game 2020 1 "Hayden" 150 "Michael" 160 (Some "Michael"%string);
    game 2020 1 "Billy" 50 "Robbie" 60 (Some "Robbie"%string);
    game 2020 1 "Zed" 300 "Yan" 300 None ].

End BadBeats.

(** ** CSV storage: src/storage.py *)

Module Storage.

Import Models.
Local Open Scope string_scope.

(** *** Files *)

(** A cell is the Python value handed to [csv.writer].  How a number is
    printed, and how pandas parses that print back, is left out: a number
    cell in a column of numbers is read back as the number it was written
    from.  What pandas makes of a text cell depends on its column and is
    modelled below. *)
Inductive cell :=
| CStr (s : string)
| CInt (z : Z)
| CFloat (q : Q)
| CBool (b : bool).

(** A CSV file: the header row and the rows under it. *)
Record CsvFile := {
  header : list string;
  records : list (list cell)
}.

(** The keys of [self.files]. *)
Inductive FileKey :=
| owners_csv
| teams_csv
| matchups_csv
| season_records_csv
| rosters_csv
| head_to_head_csv.

Definition key_eqb (a b : FileKey) : bool :=
  match a, b with
  | owners_csv, owners_csv
  | teams_csv, teams_csv
  | matchups_csv, matchups_csv
  | season_records_csv, season_records_csv
  | rosters_csv, rosters_csv
  | head_to_head_csv, head_to_head_csv => true
  | _, _ => false
  end.

(** The data directory: for each key the file, when it exists. *)
Definition DataDir := FileKey -> option CsvFile.

(** [with open(path, 'w', ...) as f]: the file is created or truncated, then
    the header and the rows are written. *)
Definition write (dir : DataDir) (key : FileKey) (file : CsvFile) : DataDir :=
  fun k => if key_eqb k key then Some file else dir k.

(** [x or ''] for an optional string and for an optional integer: the empty
    string when [x] is [None] or falsy. *)
Definition str_or_empty (x : option string) : cell :=
  match x with
  | Some s => CStr s
  | None => CStr ""
  end.

Definition int_or_empty (x : option Z) : cell :=
  match x with
  | Some z => if (z =? 0)%Z then CStr "" else CInt z
  | None => CStr ""
  end.

(** *** Saving *)

Definition owners_header : list string := ["owner_id"; "name"; "email"].

Definition owner_row (owner : Owner) : list cell :=
  [CStr (owner_id owner); CStr (name owner); str_or_empty (email owner)].

Definition save_owners (dir : DataDir) (owners : list Owner) : DataDir :=
  match owners with
  | [] => dir
  | _ :: _ => write dir owners_csv
                {| header := owners_header; records := map owner_row owners |}
  end.

Definition teams_header : list string :=
  ["team_id"; "owner_id"; "team_name"; "season"; "division"].

Definition team_row (team : Team) : list cell :=
  [CStr (team_id team); CStr (t_owner_id team); CStr (team_name team);
   CInt (t_season team); str_or_empty (division team)].

Definition save_teams (dir : DataDir) (teams : list Team) : DataDir :=
  match teams with
  | [] => dir
  | _ :: _ => write dir teams_csv
                {| header := teams_header; records := map team_row teams |}
  end.

Definition matchups_header : list string :=
  ["matchup_id"; "season"; "week"; "team1_owner_id"; "team2_owner_id";
   "team1_score"; "team2_score"; "winner_owner_id"; "playoff"].

Definition matchup_row (matchup : Matchup) : list cell :=
  [CStr (matchup_id matchup); CInt (m_season matchup); CInt (week matchup);
   CStr (team1_owner_id matchup); CStr (team2_owner_id matchup);
   CFloat (team1_score matchup); CFloat (team2_score matchup);
   str_or_empty (winner_owner_id matchup); CBool (playoff matchup)].

Definition save_matchups (dir : DataDir) (matchups : list Matchup) : DataDir :=
  match matchups with
  | [] => dir
  | _ :: _ => write dir matchups_csv
                {| header := matchups_header; records := map matchup_row matchups |}
  end.

Definition season_records_header : list string :=
  ["owner_id"; "season"; "wins"; "losses"; "ties";
   "points_for"; "points_against"; "final_rank"; "playoff_seed"].

Definition season_record_row (record : SeasonRecord) : list cell :=
  [CStr (s_owner_id record); CInt (s_season record); CInt (wins record);
   CInt (losses record); CInt (ties record);
   CFloat (points_for record); CFloat (points_against record);
   CInt (final_rank record); int_or_empty (playoff_seed record)].

Definition save_season_records (dir : DataDir) (records : list SeasonRecord) : DataDir :=
  match records with
  | [] => dir
  | _ :: _ => write dir season_records_csv
                {| header := season_records_header;
                   records := map season_record_row records |}
  end.

Definition rosters_header : list string :=
  ["roster_id"; "owner_id"; "season"; "week"; "players_json"].

Section Rosters.

Variable Players : Type.
(** [json.dumps] *)
Variable json_dumps : Players -> string.

Definition roster_row (roster : Roster Players) : list cell :=
  [CStr (roster_id roster); CStr (r_owner_id roster); CInt (r_season roster);
   CInt (r_week roster); CStr (json_dumps (players roster))].

Definition save_rosters (dir : DataDir) (rosters : list (Roster Players)) : DataDir :=
  match rosters with
  | [] => dir
  | _ :: _ => write dir rosters_csv
                {| header := rosters_header; records := map roster_row rosters |}
  end.

End Rosters.

Definition head_to_head_header : list string :=
  ["owner1_id"; "owner2_id"; "owner1_wins"; "owner2_wins";
   "owner1_points"; "owner2_points"; "total_games"].

Definition head_to_head_row (record : HeadToHeadRecord) : list cell :=
  [CStr (owner1_id record); CStr (owner2_id record);
   CInt (owner1_wins record); CInt (owner2_wins record);
   CFloat (owner1_points record); CFloat (owner2_points record);
   CInt (total_games record)].

Definition save_head_to_head_records (dir : DataDir) (records : list HeadToHeadRecord)
  : DataDir :=
  match records with
  | [] => dir
  | _ :: _ => write dir head_to_head_csv
                {| header := head_to_head_header;
                   records := map head_to_head_row records |}
  end.

(** *** Loading *)

(** What a cell of a pandas [DataFrame] holds. *)
Inductive value :=
| VStr (s : string)
| VInt (z : Z)
| VFloat (q : Q)
| VBool (b : bool)
| VNaN.

(** The texts that [pd.read_csv] reads as a missing value by default. *)
Definition na_values : list string :=
  [""; "#N/A"; "#N/A N/A"; "#NA"; "-1.#IND"; "-1.#QNAN"; "-NaN"; "-nan";
   "1.#IND"; "1.#QNAN"; "<NA>"; "N/A"; "NA"; "NULL"; "NaN"; "None"; "n/a";
   "nan"; "null"].

Definition is_na_token (s : string) : bool := existsb (String.eqb s) na_values.

(** In the loaders [None] stands for an exception ([KeyError], [ValueError]
    of [int(nan)]), for a loaded object whose field does not hold a value of
    the declared type, such as NaN or an integer in a [str] field, and for a
    file whose reading is not modelled. *)
Definition bind {A B : Type} (x : option A) (f : A -> option B) : option B :=
  match x with
  | Some a => f a
  | None => None
  end.

Notation "x <- e ;; k" := (bind e (fun x => k))
  (at level 61, e at next level, right associativity).

Fixpoint traverse {A B : Type} (f : A -> option B) (l : list A) : option (list B) :=
  match l with
  | [] => Some []
  | a :: l' => b <- f a ;; bs <- traverse f l' ;; Some (b :: bs)
  end.

(** **** The type of a column

    [pd.read_csv] is called without [dtype], so pandas gives every column
    the type that its cells allow: a column all of whose texts are numerals
    is a column of integers, whatever the program wrote it as.  Of this the
    following is modelled.

    - A text with a character that no notation of a number or of a truth
      value has (one of the letters b c g h k m o q v w z, an underscore or
      an at sign) makes its column a column of objects, in which every text
      is read as it was written.
    - A text of one to eighteen digits without a superfluous leading zero is
      a numeral; a column of numerals and missing values is a column of
      numbers.
    - Any other text that is not a missing-value token (such as [" 12"],
      ["1e5"], ["inf"] or ["true"]) may or may not be read as a number or a
      truth value: a column with such a text is not modelled, and neither is
      a column that mixes number or truth-value cells with texts. *)

Definition unmistakable (c : ascii) : bool :=
  existsb (Ascii.eqb c) (list_ascii_of_string "bcghkmoqvwzBCGHKMOQVWZ_@").

Definition textual (s : string) : bool :=
  existsb unmistakable (list_ascii_of_string s).

Definition decimal_digit (c : ascii) : bool :=
  (48 <=? N_of_ascii c)%N && (N_of_ascii c <=? 57)%N.

Definition leading_zero (l : list ascii) : bool :=
  match l with
  | c :: _ :: _ => Ascii.eqb c "0"
  | _ => false
  end.

Definition numeral (s : string) : bool :=
  let l := list_ascii_of_string s in
  forallb decimal_digit l && (1 <=? List.length l)%nat && (List.length l <=? 18)%nat
  && negb (leading_zero l).

Definition numeral_value (s : string) : Z :=
  fold_left (fun acc c => (10 * acc + (Z.of_N (N_of_ascii c) - 48))%Z)
    (list_ascii_of_string s) 0%Z.

Inductive kind :=
| KMissing
| KText
| KNumeral
| KOther
| KInt
| KFloat
| KBool.

Definition kind_eqb (a b : kind) : bool :=
  match a, b with
  | KMissing, KMissing | KText, KText | KNumeral, KNumeral | KOther, KOther
  | KInt, KInt | KFloat, KFloat | KBool, KBool => true
  | _, _ => false
  end.

Definition kind_of (c : cell) : kind :=
  match c with
  | CStr s =>
      if is_na_token s then KMissing
      else if textual s then KText
      else if numeral s then KNumeral
      else KOther
  | CInt _ => KInt
  | CFloat _ => KFloat
  | CBool _ => KBool
  end.

(** The column has a cell of the kind [k]. *)
Definition has (k : kind) (column : list cell) : bool :=
  existsb (fun c => kind_eqb (kind_of c) k) column.

Inductive dtype :=
| DObject
| DInt64
| DFloat64
| DBool.

(** The type pandas gives a column; [None] for a column that is not
    modelled.  Integers with a missing value among them become floats, truth
    values with a missing value among them stay objects. *)
Definition infer_dtype (column : list cell) : option dtype :=
  if has KOther column then None
  else if has KText column then
    if has KInt column || has KFloat column || has KBool column then None
    else Some DObject
  else if has KBool column then
    if has KInt column || has KFloat column || has KNumeral column then None
    else if has KMissing column then Some DObject
    else Some DBool
  else if has KFloat column || has KMissing column then Some DFloat64
  else Some DInt64.

(** What a cell is read as in a column of the type [d]. *)
Definition convert (d : dtype) (c : cell) : value :=
  match c with
  | CStr s =>
      if is_na_token s then VNaN
      else
        match d with
        | DInt64 => VInt (numeral_value s)
        | DFloat64 => VFloat (inject_Z (numeral_value s))
        | DObject | DBool => VStr s
        end
  | CInt z =>
      match d with
      | DFloat64 => VFloat (inject_Z z)
      | _ => VInt z
      end
  | CFloat q => VFloat q
  | CBool b => VBool b
  end.

Record DataFrame := {
  columns : list string;
  rows : list (list value)
}.

(** The cells of the column [j]; a row that is too short has no cell there,
    which is a missing value. *)
Definition column (records : list (list cell)) (j : nat) : list cell :=
  map (fun row => nth j row (CStr "")) records.

Fixpoint convert_row (dtypes : list dtype) (row : list cell) : list value :=
  match dtypes with
  | [] => []
  | d :: dtypes' => convert d (hd (CStr "") row) :: convert_row dtypes' (tl row)
  end.

(** [pd.read_csv(path)]: one type per column of the header, then every row
    converted.  A row with more cells than the header is not modelled. *)
Definition read_csv (file : CsvFile) : option DataFrame :=
  if existsb (fun row => (List.length (header file) <? List.length row)%nat) (records file)
  then None
  else
    dtypes <- traverse (fun j => infer_dtype (column (records file) j))
                (seq 0 (List.length (header file))) ;;
    Some {| columns := header file; rows := map (convert_row dtypes) (records file) |}.

(** [row[col]]: [None] is the [KeyError] for a column the header does not
    have. *)
Fixpoint getitem (cols : list string) (row : list value) (col : string) : option value :=
  match cols with
  | [] => None
  | c :: cols' =>
      if String.eqb col c then Some (hd VNaN row) else getitem cols' (tl row) col
  end.

(** A field taken as it is, expected to be a [str]. *)
Definition as_str (v : value) : option string :=
  match v with
  | VStr s => Some s
  | _ => None
  end.

(** [v if pd.notna(v) else None] for an optional [str] field. *)
Definition optional_str (v : value) : option (option string) :=
  match v with
  | VNaN => Some None
  | VStr s => Some (Some s)
  | _ => None
  end.

(** [int(v)], truncating a float toward zero. *)
Definition py_int (v : value) : option Z :=
  match v with
  | VInt z => Some z
  | VFloat q => Some (Z.quot (Qnum q) (QDen q))
  | VBool b => Some (if b then 1 else 0)%Z
  | VStr _ | VNaN => None
  end.

(** [int(v) if pd.notna(v) else None] *)
Definition optional_int (v : value) : option (option Z) :=
  match v with
  | VNaN => Some None
  | _ => z <- py_int v ;; Some (Some z)
  end.

(** [float(v)]; NaN has no counterpart in [Q]. *)
Definition py_float (v : value) : option Q :=
  match v with
  | VInt z => Some (inject_Z z)
  | VFloat q => Some q
  | VBool b => Some (if b then 1 else 0)%Q
  | VStr _ | VNaN => None
  end.

(** [bool(v)] *)
Definition py_bool (v : value) : bool :=
  match v with
  | VBool b => b
  | VInt z => negb (z =? 0)%Z
  | VFloat q => negb (Qeq_bool q 0)
  | VStr s => negb (String.eqb s "")
  | VNaN => true
  end.

Definition load_owner (cols : list string) (row : list value) : option Owner :=
  v1 <- getitem cols row "owner_id" ;; f1 <- as_str v1 ;;
  v2 <- getitem cols row "name" ;; f2 <- as_str v2 ;;
  v3 <- getitem cols row "email" ;; f3 <- optional_str v3 ;;
  Some {| owner_id := f1; name := f2; email := f3 |}.

(** Every loader returns the empty list when its file does not exist. *)
Definition load_owners (dir : DataDir) : option (list Owner) :=
  match dir owners_csv with
  | None => Some []
  | Some file =>
      df <- read_csv file ;; traverse (load_owner (columns df)) (rows df)
  end.

Definition load_matchup (cols : list string) (row : list value) : option Matchup :=
  v1 <- getitem cols row "matchup_id" ;; f1 <- as_str v1 ;;
  v2 <- getitem cols row "season" ;; f2 <- py_int v2 ;;
  v3 <- getitem cols row "week" ;; f3 <- py_int v3 ;;
  v4 <- getitem cols row "team1_owner_id" ;; f4 <- as_str v4 ;;
  v5 <- getitem cols row "team2_owner_id" ;; f5 <- as_str v5 ;;
  v6 <- getitem cols row "team1_score" ;; f6 <- py_float v6 ;;
  v7 <- getitem cols row "team2_score" ;; f7 <- py_float v7 ;;
  v8 <- getitem cols row "winner_owner_id" ;; f8 <- optional_str v8 ;;
  v9 <- getitem cols row "playoff" ;;
  Some {| matchup_id := f1; m_season := f2; week := f3; team1_owner_id := f4;
          team2_owner_id := f5; team1_score := f6; team2_score := f7;
          winner_owner_id := f8; playoff := py_bool v9 |}.

Definition load_matchups (dir : DataDir) : option (list Matchup) :=
  match dir matchups_csv with
  | None => Some []
  | Some file =>
      df <- read_csv file ;; traverse (load_matchup (columns df)) (rows df)
  end.

Definition load_season_record (cols : list string) (row : list value)
  : option SeasonRecord :=
  v1 <- getitem cols row "owner_id" ;; f1 <- as_str v1 ;;
  v2 <- getitem cols row "season" ;; f2 <- py_int v2 ;;
  v3 <- getitem cols row "wins" ;; f3 <- py_int v3 ;;
  v4 <- getitem cols row "losses" ;; f4 <- py_int v4 ;;
  v5 <- getitem cols row "ties" ;; f5 <- py_int v5 ;;
  v6 <- getitem cols row "points_for" ;; f6 <- py_float v6 ;;
  v7 <- getitem cols row "points_against" ;; f7 <- py_float v7 ;;
  v8 <- getitem cols row "final_rank" ;; f8 <- py_int v8 ;;
  v9 <- getitem cols row "playoff_seed" ;; f9 <- optional_int v9 ;;
  Some {| s_owner_id := f1; s_season := f2; wins := f3; losses := f4; ties := f5;
          points_for := f6; points_against := f7; final_rank := f8;
          playoff_seed := f9 |}.

Definition load_season_records (dir : DataDir) : option (list SeasonRecord) :=
  match dir season_records_csv with
  | None => Some []
  | Some file =>
      df <- read_csv file ;; traverse (load_season_record (columns df)) (rows df)
  end.

Definition load_head_to_head_record (cols : list string) (row : list value)
  : option HeadToHeadRecord :=
  v1 <- getitem cols row "owner1_id" ;; f1 <- as_str v1 ;;
  v2 <- getitem cols row "owner2_id" ;; f2 <- as_str v2 ;;
  v3 <- getitem cols row "owner1_wins" ;; f3 <- py_int v3 ;;
  v4 <- getitem cols row "owner2_wins" ;; f4 <- py_int v4 ;;
  v5 <- getitem cols row "owner1_points" ;; f5 <- py_float v5 ;;
  v6 <- getitem cols row "owner2_points" ;; f6 <- py_float v6 ;;
  v7 <- getitem cols row "total_games" ;; f7 <- py_int v7 ;;
  Some {| owner1_id := f1; owner2_id := f2; owner1_wins := f3; owner2_wins := f4;
          owner1_points := f5; owner2_points := f6; total_games := f7 |}.

Definition load_head_to_head_records (dir : DataDir) : option (list HeadToHeadRecord) :=
  match dir head_to_head_csv with
  | None => Some []
  | Some file =>
      df <- read_csv file ;;
      traverse (load_head_to_head_record (columns df)) (rows df)
  end.

(** *** Save calls, for statements about all of them *)

Section SaveCalls.

Variable Players : Type.
Variable json_dumps : Players -> string.

Inductive save_call :=
| SaveOwners (owners : list Owner)
| SaveTeams (teams : list Team)
| SaveMatchups (matchups : list Matchup)
| SaveSeasonRecords (records : list SeasonRecord)
| SaveRosters (rosters : list (Roster Players))
| SaveHeadToHead (records : list HeadToHeadRecord).

Definition run_save (call : save_call) (dir : DataDir) : DataDir :=
  match call with
  | SaveOwners l => save_owners dir l
  | SaveTeams l => save_teams dir l
  | SaveMatchups l => save_matchups dir l
  | SaveSeasonRecords l => save_season_records dir l
  | SaveRosters l => save_rosters Players json_dumps dir l
  | SaveHeadToHead l => save_head_to_head_records dir l
  end.

(** The file a call is about, and the header row and the one row per entity
    of the list it is given. *)
Definition target (call : save_call) : FileKey :=
  match call with
  | SaveOwners _ => owners_csv
  | SaveTeams _ => teams_csv
  | SaveMatchups _ => matchups_csv
  | SaveSeasonRecords _ => season_records_csv
  | SaveRosters _ => rosters_csv
  | SaveHeadToHead _ => head_to_head_csv
  end.

Definition header_and_rows (call : save_call) : CsvFile :=
  match call with
  | SaveOwners l => {| header := owners_header; records := map owner_row l |}
  | SaveTeams l => {| header := teams_header; records := map team_row l |}
  | SaveMatchups l => {| header := matchups_header; records := map matchup_row l |}
  | SaveSeasonRecords l =>
      {| header := season_records_header; records := map season_record_row l |}
  | SaveRosters l =>
      {| header := rosters_header; records := map (roster_row Players json_dumps) l |}
  | SaveHeadToHead l =>
      {| header := head_to_head_header; records := map head_to_head_row l |}
  end.

Definition given_nothing (call : save_call) : bool :=
  match call with
  | SaveOwners [] | SaveTeams [] | SaveMatchups [] | SaveSeasonRecords []
  | SaveRosters [] | SaveHeadToHead [] => true
  | _ => false
  end.

End SaveCalls.

Arguments run_save {Players} json_dumps call dir.
Arguments target {Players} call.
Arguments header_and_rows {Players} json_dumps call.
Arguments given_nothing {Players} call.

(** A data directory whose only file is a matchups file of one row. *)
Definition one_matchup_file : CsvFile :=
  {| header := matchups_header;
     records := [[CStr "2020_1_0"; CInt 2020; CInt 1; CStr "a"; CStr "b";
                  CFloat 100; CFloat 90; CStr "a"; CBool false]] |}.

Definition one_matchup_dir : DataDir := write (fun _ => None) matchups_csv one_matchup_file.

(** *** What a round trip needs *)

(** A text that the reader gives back as it was written: it is not one of
    the missing-value tokens, and one of its characters keeps its column a
    column of texts. *)
Definition plain (s : string) : Prop := is_na_token s = false /\ textual s = true.

Definition plain_or_absent (x : option string) : Prop :=
  match x with
  | Some s => plain s
  | None => True
  end.

Definition owner_storable (o : Owner) : Prop :=
  plain (owner_id o) /\ plain (name o) /\ plain_or_absent (email o).

Definition matchup_storable (m : Matchup) : Prop :=
  plain (matchup_id m) /\ plain (team1_owner_id m) /\ plain (team2_owner_id m)
  /\ plain_or_absent (winner_owner_id m).

Definition season_record_storable (r : SeasonRecord) : Prop :=
  plain (s_owner_id r) /\ playoff_seed r <> Some 0%Z.

(** *** Entities to try the storage layer on *)

(** A season record seeded 0 and an owner whose e-mail address is empty. *)
Definition seed_zero : SeasonRecord :=
  {| s_owner_id := "bob"; s_season := 2020; wins := 8; losses := 5; ties := 0;
     points_for := 1500; points_against := 1400; final_rank := 3;
     playoff_seed := Some 0%Z |}.

Definition empty_email : Owner :=
  {| owner_id := "bob"; name := "Bob"; email := Some "" |}.

(** An owner whose identifier and name are numerals. *)
Definition numbered : Owner :=
  {| owner_id := "123"; name := "2024"; email := None |}.

(** An owner whose name is one of the reader's missing-value tokens. *)
Definition named_na : Owner :=
  {| owner_id := "na_1"; name := "NA"; email := None |}.

(** Two owners, two of their matchups (the second one a tie) and their
    season records. *)
Definition sample_owners : list Owner :=
  [{| owner_id := "robbie_g"; name := "Robbie G."; email := None |};
   {| owner_id := "hayden"; name := "Hayden"; email := Some "hayden@example.com" |}].

Definition sample_matchups : list Matchup :=
  [{| matchup_id := "2020_1_0"; m_season := 2020; week := 1;
      team1_owner_id := "robbie_g"; team2_owner_id := "hayden";
      team1_score := 1015 # 10; team2_score := 987 # 10;
      winner_owner_id := Some "robbie_g"; playoff := false |};
   {| matchup_id := "2020_2_0"; m_season := 2020; week := 2;
      team1_owner_id := "hayden"; team2_owner_id := "robbie_g";
      team1_score := 90; team2_score := 90;
      winner_owner_id := None; playoff := true |}].

Definition sample_season_records : list SeasonRecord :=
  [{| s_owner_id := "robbie_g"; s_season := 2020; wins := 8; losses := 5; ties := 1;
      points_for := 15005 # 10; points_against := 1400; final_rank := 2;
      playoff_seed := Some 2%Z |};
   {| s_owner_id := "hayden"; s_season := 2020; wins := 5; losses := 8; ties := 1;
      points_for := 1300; points_against := 1450; final_rank := 9;
      playoff_seed := None |}].

End Storage.

(** ** Head-to-head records: src/analytics.py *)

Module HeadToHead.

Import Models PyNum.
Local Open Scope Q_scope.

(** One value of the [defaultdict] [h2h_stats]. *)
Record Stats := {
  st_wins : Z;
  st_losses : Z;
  st_points_for : Q;
  st_points_against : Q;
  st_games : Z
}.

(** The [lambda] of the [defaultdict]. *)
Definition fresh : Stats :=
  {| st_wins := 0; st_losses := 0; st_points_for := 0; st_points_against := 0;
     st_games := 0 |}.

Definition pair := (string * string)%type.

Definition pair_eqb (a b : pair) : bool :=
  String.eqb (fst a) (fst b) && String.eqb (snd a) (snd b).

Definition stats_dict := PyDict.dict pair Stats.

(** [h2h_stats[key][field] += ...]: a key that is missing is first inserted
    with the default value. *)
Definition touch (d : stats_dict) (key : pair) (f : Stats -> Stats) : stats_dict :=
  PyDict.set pair_eqb d key (f (PyDict.get_default pair_eqb d key fresh)).

Definition add_win (s : Stats) : Stats :=
  {| st_wins := st_wins s + 1; st_losses := st_losses s;
     st_points_for := st_points_for s; st_points_against := st_points_against s;
     st_games := st_games s |}.

Definition add_loss (s : Stats) : Stats :=
  {| st_wins := st_wins s; st_losses := st_losses s + 1;
     st_points_for := st_points_for s; st_points_against := st_points_against s;
     st_games := st_games s |}.

Definition add_points_for (x : Q) (s : Stats) : Stats :=
  {| st_wins := st_wins s; st_losses := st_losses s;
     st_points_for := st_points_for s + x; st_points_against := st_points_against s;
     st_games := st_games s |}.

Definition add_points_against (x : Q) (s : Stats) : Stats :=
  {| st_wins := st_wins s; st_losses := st_losses s;
     st_points_for := st_points_for s; st_points_against := st_points_against s + x;
     st_games := st_games s |}.

Definition add_game (s : Stats) : Stats :=
  {| st_wins := st_wins s; st_losses := st_losses s;
     st_points_for := st_points_for s; st_points_against := st_points_against s;
     st_games := st_games s + 1 |}.

(** [not matchup.winner_owner_id]: [None] and the empty string. *)
Definition no_winner (matchup : Matchup) : bool :=
  match winner_owner_id matchup with
  | None => true
  | Some w => String.eqb w ""
  end.

(** [matchup.winner_owner_id == owner1] *)
Definition winner_is (matchup : Matchup) (owner : string) : bool :=
  match winner_owner_id matchup with
  | None => false
  | Some w => String.eqb w owner
  end.

(** The statements of the loop body after the [continue], in order. *)
Definition tally (d : stats_dict) (matchup : Matchup) : stats_dict :=
  let owner1 := team1_owner_id matchup in
  let owner2 := team2_owner_id matchup in
  let d :=
    if winner_is matchup owner1 then
      touch (touch d (owner1, owner2) add_win) (owner2, owner1) add_loss
    else
      touch (touch d (owner2, owner1) add_win) (owner1, owner2) add_loss in
  let d := touch d (owner1, owner2) (add_points_for (team1_score matchup)) in
  let d := touch d (owner1, owner2) (add_points_against (team2_score matchup)) in
  let d := touch d (owner2, owner1) (add_points_for (team2_score matchup)) in
  let d := touch d (owner2, owner1) (add_points_against (team1_score matchup)) in
  let d := touch d (owner1, owner2) add_game in
  touch d (owner2, owner1) add_game.

(** Body of [for matchup in matchups]. *)
Definition step (d : stats_dict) (matchup : Matchup) : stats_dict :=
  if no_winner matchup then d else tally d matchup.

(** [h2h_stats] when the first loop ends. *)
Definition h2h_stats (matchups : list Matchup) : stats_dict :=
  fold_left step matchups [].

(** [tuple(sorted([owner1, owner2]))] *)
Definition sorted_pair (owner1 owner2 : string) : pair :=
  if String.ltb owner2 owner1 then (owner2, owner1) else (owner1, owner2).

(** [pair_key in processed_pairs] *)
Definition processed (key : pair) (processed_pairs : list pair) : bool :=
  existsb (pair_eqb key) processed_pairs.

(** The second loop, over [h2h_stats.items()].  Reading
    [h2h_stats[(owner2, owner1)]] for a key that is missing would insert it
    and make the iteration fail with a [RuntimeError]: that is [None]. *)
Fixpoint records_loop (d : stats_dict) (items : list (pair * Stats))
  (processed_pairs : list pair) : option (list HeadToHeadRecord) :=
  match items with
  | [] => Some []
  | ((owner1, owner2), _) :: items' =>
      let pair_key := sorted_pair owner1 owner2 in
      if processed pair_key processed_pairs then records_loop d items' processed_pairs
      else
        match PyDict.get pair_eqb d (owner1, owner2),
              PyDict.get pair_eqb d (owner2, owner1) with
        | Some stats1, Some stats2 =>
            match records_loop d items' (pair_key :: processed_pairs) with
            | Some rest =>
                Some ({| owner1_id := owner1; owner2_id := owner2;
                         owner1_wins := st_wins stats1;
                         owner2_wins := st_wins stats2;
                         owner1_points := st_points_for stats1;
                         owner2_points := st_points_for stats2;
                         total_games := st_games stats1 |} :: rest)
            | None => None
            end
        | _, _ => None
        end
  end.

(** The records computed from the loaded matchups. *)
Definition head_to_head_records (matchups : list Matchup)
  : option (list HeadToHeadRecord) :=
  let d := h2h_stats matchups in records_loop d d [].

(** [calculate_head_to_head_records]: the matchups and owners are loaded, the
    records computed, saved and returned. *)
Definition calculate_head_to_head_records (dir : Storage.DataDir)
  : option (list HeadToHeadRecord * Storage.DataDir) :=
  match Storage.load_matchups dir, Storage.load_owners dir with
  | Some matchups, Some owners =>
      match head_to_head_records matchups with
      | Some records => Some (records, Storage.save_head_to_head_records dir records)
      | None => None
      end
  | _, _ => None
  end.

(** *** Reading the dictionary *)

(** The value under a key, the default when the key is missing. *)
Definition val (d : stats_dict) (key : pair) : Stats :=
  PyDict.get_default pair_eqb d key fresh.

Definition present (d : stats_dict) (key : pair) : bool :=
  match PyDict.get pair_eqb d key with Some _ => true | None => false end.

(** *** The tally of one matchup, update by update *)

(** The updates of [tally], in order, each with its key. *)
Definition updates (matchup : Matchup) : list (pair * (Stats -> Stats)) :=
  let owner1 := team1_owner_id matchup in
  let owner2 := team2_owner_id matchup in
  (if winner_is matchup owner1
   then [((owner1, owner2), add_win); ((owner2, owner1), add_loss)]
   else [((owner2, owner1), add_win); ((owner1, owner2), add_loss)])
  ++ [((owner1, owner2), add_points_for (team1_score matchup));
      ((owner1, owner2), add_points_against (team2_score matchup));
      ((owner2, owner1), add_points_for (team2_score matchup));
      ((owner2, owner1), add_points_against (team1_score matchup));
      ((owner1, owner2), add_game);
      ((owner2, owner1), add_game)].

Definition apply_updates (d : stats_dict) (ops : list (pair * (Stats -> Stats)))
  : stats_dict :=
  fold_left (fun d op => touch d (fst op) (snd op)) ops d.

(** What the updates do to the value under one key. *)
Definition updated (key : pair) (ops : list (pair * (Stats -> Stats))) (s : Stats)
  : Stats :=
  fold_left (fun s op => if pair_eqb key (fst op) then snd op s else s) ops s.

(** *** The invariant of the first loop *)

(** The two directions of a pairing agree: both keys are there or neither
    is, points for one direction are points against the other, the game
    counts are equal and every game is a win of one of the two directions. *)
Definition agree (s s' : Stats) : Prop :=
  st_points_for s == st_points_against s'
  /\ st_points_against s == st_points_for s'
  /\ st_games s = st_games s'
  /\ (st_wins s + st_wins s' = st_games s)%Z
  /\ (0 <= st_wins s)%Z /\ (0 <= st_wins s')%Z.

Definition consistent (d : stats_dict) : Prop :=
  forall a b : string,
    present d (a, b) = present d (b, a) /\ agree (val d (a, b)) (val d (b, a)).

(** *** The second loop *)

(** A record is read off the two directions of its pairing. *)
Definition read_off (d : stats_dict) (r : HeadToHeadRecord) : Prop :=
  present d (owner1_id r, owner2_id r) = true
  /\ present d (owner2_id r, owner1_id r) = true
  /\ owner1_wins r = st_wins (val d (owner1_id r, owner2_id r))
  /\ owner2_wins r = st_wins (val d (owner2_id r, owner1_id r))
  /\ owner1_points r = st_points_for (val d (owner1_id r, owner2_id r))
  /\ owner2_points r = st_points_for (val d (owner2_id r, owner1_id r))
  /\ total_games r = st_games (val d (owner1_id r, owner2_id r)).

(** *** Matchups without winner *)

(** The matchup has a winner. *)
Definition decided (matchup : Matchup) : bool := negb (no_winner matchup).

(** A data directory that holds the sample owners and matchups. *)
Definition sample_dir : Storage.DataDir :=
  Storage.save_owners
    (Storage.save_matchups (fun _ => None) Storage.sample_matchups)
    Storage.sample_owners.

End HeadToHead.

(** ** Streaks, continued: how the entries add up *)

Module StreakTotals.

(** Sum of the absolute values of the entries. *)
Definition games_counted (streaks : list Z) : Z :=
  fold_right (fun s acc => Z.abs s + acc) 0 streaks.

(** Neighbouring entries have opposite signs. *)
Fixpoint signs_alternate (streaks : list Z) : Prop :=
  match streaks with
  | [] => True
  | a :: rest =>
      match rest with
      | [] => True
      | b :: _ => a * b < 0 /\ signs_alternate rest
      end
  end.

End StreakTotals.

(** ** Owner identifiers, continued: the shape of an identifier *)

Module OwnerIdShape.

Import OwnerId.

(** An ASCII letter or digit. *)
Definition is_alnum (c : ascii) : bool := is_lower c || is_upper c || is_digit c.

(** A non-empty word of lowercase ASCII letters and digits. *)
Definition id_word (w : text) : Prop :=
  w <> [] /\ Forall (fun c => is_lower c || is_digit c = true) w.

End OwnerIdShape.

(** ** CSV storage, continued *)

Module StorageMore.

Import Models Storage.

(** The two owner identifiers are texts that the reader gives back as
    written. *)
Definition head_to_head_storable (r : HeadToHeadRecord) : Prop :=
  plain (owner1_id r) /\ plain (owner2_id r).

(** A series of nine games between two owners, and one between two owners
    whose identifiers are numerals. *)
Definition stored_series : HeadToHeadRecord :=
  {| owner1_id := "hayden"; owner2_id := "robbie_g"; owner1_wins := 5; owner2_wins := 4;
     owner1_points := 9005 # 10; owner2_points := 880; total_games := 9 |}.

Definition numbered_series : HeadToHeadRecord :=
  {| owner1_id := "bob"; owner2_id := "123"; owner1_wins := 1; owner2_wins := 1;
     owner1_points := 200; owner2_points := 210; total_games := 2 |}.

End StorageMore.

(** ** Head-to-head records, continued *)

Module HeadToHeadMore.

Import Models HeadToHead.

(** Both owners of every key of the tally satisfy [P]. *)
Definition keys_within (P : string -> Prop) (d : stats_dict) : Prop :=
  forall a b, present d (a, b) = true -> P a /\ P b.

(** The pairing a record is about, as [tuple(sorted(...))] writes it. *)
Definition pairing (r : HeadToHeadRecord) : pair :=
  sorted_pair (owner1_id r) (owner2_id r).

(** Every key that is there has been in at least one game, and no count is
    negative. *)
Definition played (d : stats_dict) : Prop :=
  forall k : pair,
    (0 <= st_games (val d k))%Z
    /\ (present d k = true -> (0 < st_games (val d k))%Z).

(** Two stored matchups between an owner whose identifier is a numeral and
    another owner, each named first once. *)
Definition numbered_matchups : list Matchup :=
  [{| matchup_id := "2020_1_0"; m_season := 2020; week := 1;
      team1_owner_id := "123"; team2_owner_id := "bob";
      team1_score := 100; team2_score := 90;
      winner_owner_id := Some "123"%string; playoff := false |};
   {| matchup_id := "2020_2_0"; m_season := 2020; week := 2;
      team1_owner_id := "bob"; team2_owner_id := "123";
      team1_score := 110; team2_score := 95;
      winner_owner_id := Some "bob"%string; playoff := false |}].

Definition numbered_dir : Storage.DataDir :=
  Storage.save_matchups (fun _ => None) numbered_matchups.

End HeadToHeadMore.

(** ** Cleanup utility, continued: what a run removes *)

Module CleanupMore.

Import Cleanup.

(** The files the two file loops go through. *)
Definition listed_files : list string := redundant_scripts ++ redundant_files.

(** What a run has done so far to the files of the file system [fs0] it
    started from: a file is as it was or it is gone and reported; what is
    reported was there with that size, is gone, is listed and is reported
    once. *)
Definition tracks_files (fs0 : FileSystem) (run : Run) : Prop :=
  (forall p, file_bytes (fs run) p = file_bytes fs0 p
             \/ (file_bytes (fs run) p = None /\ exists b, In (p, b) (removed_files run)))
  /\ (forall p b, In (p, b) (removed_files run) ->
                  file_bytes fs0 p = Some b /\ file_bytes (fs run) p = None
                  /\ In p listed_files)
  /\ NoDup (map fst (removed_files run)).

(** The same for the directories. *)
Definition tracks_dirs (fs0 : FileSystem) (run : Run) : Prop :=
  (forall p, dir_bytes (fs run) p = dir_bytes fs0 p
             \/ (dir_bytes (fs run) p = None /\ exists b, In (p, b) (removed_dirs run)))
  /\ (forall p b, In (p, b) (removed_dirs run) ->
                  dir_bytes fs0 p = Some b /\ dir_bytes (fs run) p = None
                  /\ In p redundant_dirs)
  /\ NoDup (map fst (removed_dirs run)).

End CleanupMore.

(** ** Rivalries and bad beats, continued: the order of the output *)

Module Ranking.

Import Rivalry BadBeats.
Local Open Scope Q_scope.

(** [y] does not have a higher score than [x]. *)
Definition not_more_competitive (x y : Rivalry) : Prop :=
  competitiveness_score y <= competitiveness_score x.

(** [y] is not further above the average than [x], and when both are as far
    above it [y] does not have the larger margin. *)
Definition not_worse_beat (x y : BadBeat) : Prop :=
  bb_above_avg y <= bb_above_avg x
  /\ (bb_above_avg y == bb_above_avg x -> bb_margin y <= bb_margin x).

End Ranking.

(** ** Luck and skill: scripts/create_temporal_dynamics_insights.py,
    [analyze_expected_vs_actual_wins] *)

Module ExpectedWins.

Import PyNum Frames BadBeats.
Local Open Scope Q_scope.

(** One dictionary appended to [expected_wins_data]. *)
Record ExpectedWin := {
  ew_season : Z;
  ew_manager : string;
  ew_actual_wins : Z;
  ew_expected_wins : Z;
  ew_total_games : Z;
  ew_actual_win_pct : Q;
  ew_expected_win_pct : Q;
  ew_luck_factor : Q;
  ew_avg_points_for : option Q;
  ew_avg_points_against : option Q;
  ew_point_differential : option Q
}.

(** [sorted(matchups_df['season'].unique())] *)
Fixpoint insert_season (s : Z) (l : list Z) : list Z :=
  match l with
  | [] => [s]
  | t :: l' => if (s <=? t)%Z then s :: l else t :: insert_season s l'
  end.

Definition sorted_seasons (matchups_df : list Row) : list Z :=
  fold_right insert_season [] (unique (map season matchups_df)).

(** What the loop over [manager_games] appends to [scores_for] and to
    [scores_against] for one row. *)
Definition score_for (manager : string) (row : Row) : Q :=
  if String.eqb (manager1 row) manager then team1_score row else team2_score row.

Definition score_against (manager : string) (row : Row) : Q :=
  if String.eqb (manager1 row) manager then team2_score row else team1_score row.

(** [actual_wins] when the loop ends: both branches test
    [row['winning_manager'] == manager]. *)
Definition actual_wins (manager : string) (manager_games : list Row) : Z :=
  Z.of_nat (List.length (filter (fun row => won_by row manager) manager_games)).

(** [sum(1 for pf, pa in zip(scores_for, scores_against) if pf > pa)] *)
Definition expected_wins (scores_for scores_against : list Q) : Z :=
  Z.of_nat
    (List.length
       (filter (fun p => negb (Qle_bool (fst p) (snd p)))
          (combine scores_for scores_against))).

(** The difference of two [np.mean] results. *)
Definition mean_sub (a b : option Q) : option Q :=
  match a, b with
  | Some x, Some y => Some (x - y)
  | _, _ => None
  end.

(** The body of the inner loop: no entry for a manager without a game in the
    season. *)
Definition manager_entry (season_data : list Row) (s : Z) (manager : string)
  : list ExpectedWin :=
  let manager_games := games_of season_data manager in
  match manager_games with
  | [] => []
  | _ :: _ =>
      let scores_for := map (score_for manager) manager_games in
      let scores_against := map (score_against manager) manager_games in
      let actual := actual_wins manager manager_games in
      let expected := expected_wins scores_for scores_against in
      let total_games := Z.of_nat (List.length scores_for) in
      let actual_win_pct := inject_Z actual / inject_Z total_games in
      let expected_win_pct := inject_Z expected / inject_Z total_games in
      let luck_factor := actual_win_pct - expected_win_pct in
      [{| ew_season := s;
          ew_manager := manager;
          ew_actual_wins := actual;
          ew_expected_wins := expected;
          ew_total_games := total_games;
          ew_actual_win_pct := actual_win_pct * inject_Z 100;
          ew_expected_win_pct := expected_win_pct * inject_Z 100;
          ew_luck_factor := luck_factor * inject_Z 100;
          ew_avg_points_for := mean scores_for;
          ew_avg_points_against := mean scores_against;
          ew_point_differential := mean_sub (mean scores_for) (mean scores_against) |}]
  end.

Definition analyze_expected_vs_actual_wins (matchups_df : list Row)
  (managers : list string) : list ExpectedWin :=
  flat_map
    (fun s => flat_map (manager_entry (of_season matchups_df s) s) managers)
    (sorted_seasons matchups_df).

(** The winner column follows the scores: the manager with the higher score,
    nobody on equal scores; and nobody plays against themselves. *)
Definition winner_by_score (row : Row) : Prop :=
  manager1 row <> manager2 row
  /\ winning_manager row =
     if negb (Qle_bool (team1_score row) (team2_score row)) then Some (manager1 row)
     else if negb (Qle_bool (team2_score row) (team1_score row)) then Some (manager2 row)
     else None.

(** A season of three games, one of them drawn. *)
Definition sample_games : list Row :=
  [ game 2022 1 "Hayden" 120 "Michael" 100 (Some "Hayden"%string);
    game 2022 2 "Michael" 95 "Hayden" 90 (Some "Michael"%string);
    game 2022 3 "Hayden" 101 "Billy" 101 None ].

(** The row of [sample_games] for the manager of the drawn game. *)
Definition sample_entry : ExpectedWin :=
  {| ew_season := 2022; ew_manager := "Billy";
     ew_actual_wins := 0; ew_expected_wins := 0; ew_total_games := 1;
     ew_actual_win_pct := inject_Z 0 / inject_Z 1 * inject_Z 100;
     ew_expected_win_pct := inject_Z 0 / inject_Z 1 * inject_Z 100;
     ew_luck_factor := (inject_Z 0 / inject_Z 1 - inject_Z 0 / inject_Z 1) * inject_Z 100;
     ew_avg_points_for := mean [101];
     ew_avg_points_against := mean [101];
     ew_point_differential := mean_sub (mean [101]) (mean [101]) |}.

End ExpectedWins.

(** ** Kryptonite: scripts/create_temporal_dynamics_insights.py,
    [analyze_kryptonite_matchups] *)

Module Kryptonite.

Import PyNum Frames.
Local Open Scope Q_scope.

(** One value of the dictionary [h2h_records]. *)
Record Tally := {
  k_wins : Z;
  k_losses : Z;
  k_games : Z
}.

(** [{'wins': 0, 'losses': 0, 'games': 0}] *)
Definition zero : Tally := {| k_wins := 0; k_losses := 0; k_games := 0 |}.

Definition key := HeadToHead.pair.
Definition same_key := HeadToHead.pair_eqb.

Definition table := PyDict.dict key Tally.

(** [if key not in h2h_records: h2h_records[key] = {...}] *)
Definition ensure (d : table) (k : key) : table :=
  match PyDict.get same_key d k with
  | Some _ => d
  | None => PyDict.set same_key d k zero
  end.

(** [h2h_records[key][field] += 1]; [None] is the [KeyError] of a key that is
    missing. *)
Definition bump (d : table) (k : key) (f : Tally -> Tally) : option table :=
  match PyDict.get same_key d k with
  | Some t => Some (PyDict.set same_key d k (f t))
  | None => None
  end.

Definition one_more_game (t : Tally) : Tally :=
  {| k_wins := k_wins t; k_losses := k_losses t; k_games := k_games t + 1 |}.

Definition one_more_win (t : Tally) : Tally :=
  {| k_wins := k_wins t + 1; k_losses := k_losses t; k_games := k_games t |}.

Definition one_more_loss (t : Tally) : Tally :=
  {| k_wins := k_wins t; k_losses := k_losses t + 1; k_games := k_games t |}.

(** Body of the loop over the rows. *)
Definition count_row (managers : list string) (d : table) (row : Row) : option table :=
  if negb (isin (manager1 row) managers) || negb (isin (manager2 row) managers)
  then Some d
  else
    let key1 := (manager1 row, manager2 row) in
    let key2 := (manager2 row, manager1 row) in
    let d := ensure d key1 in
    let d := ensure d key2 in
    Storage.bind (bump d key1 one_more_game) (fun d =>
    Storage.bind (bump d key2 one_more_game) (fun d =>
    if won_by row (manager1 row) then
      Storage.bind (bump d key1 one_more_win) (fun d => bump d key2 one_more_loss)
    else if won_by row (manager2 row) then
      Storage.bind (bump d key1 one_more_loss) (fun d => bump d key2 one_more_win)
    else Some d)).

Fixpoint loop (managers : list string) (d : table) (rows : list Row) : option table :=
  match rows with
  | [] => Some d
  | row :: rows' => Storage.bind (count_row managers d row) (fun d => loop managers d rows')
  end.

(** [h2h_records] when the first loop ends. *)
Definition h2h_records (matchups_df : list Row) (managers : list string) : option table :=
  loop managers [] matchups_df.

(** One dictionary appended to [kryptonite_matchups]. *)
Record Dominance := {
  dominator : string;
  victim : string;
  d_wins : Z;
  d_losses : Z;
  d_games : Z;
  dominance : Q;
  dominance_level : string
}.

(** Body of the loop over [h2h_records.items()].  The win rate is compared
    with the literals 0.8 and 0.9 on the exact quotient, which agrees with
    the comparison of the rounded quotients for every count below 10^15. *)
Definition entry (k : key) (record : Tally) : list Dominance :=
  if (5 <=? k_games record)%Z then
    let win_pct := inject_Z (k_wins record) / inject_Z (k_games record) in
    if Qle_bool (8 # 10) win_pct then
      [{| dominator := fst k;
          victim := snd k;
          d_wins := k_wins record;
          d_losses := k_losses record;
          d_games := k_games record;
          dominance := win_pct * inject_Z 100;
          dominance_level :=
            if Qle_bool (9 # 10) win_pct then "Kryptonite" else "Heavy Favorite" |}]
    else []
  else [].

(** The list [kryptonite_matchups] when the second loop ends.  The function
    returns its rows as a frame ordered by [dominance], highest first; for an
    empty list the ordering raises a [KeyError]. *)
Definition kryptonite_matchups (matchups_df : list Row) (managers : list string)
  : option (list Dominance) :=
  match h2h_records matchups_df managers with
  | Some d => Some (flat_map (fun item => entry (fst item) (snd item)) d)
  | None => None
  end.

(** *** Reading the dictionary *)

(** The tally of a pair, zero for a pair that has no entry. *)
Definition view (d : table) (k : key) : Tally := PyDict.get_default same_key d k zero.

(** Each key once, as in every Python dictionary. *)
Definition distinct_keys (d : table) : Prop := NoDup (map fst d).

(** The two directions of a pairing mirror each other, and no game is counted
    as more than one result. *)
Definition mirrored (d : table) : Prop :=
  forall a b : string,
    k_games (view d (a, b)) = k_games (view d (b, a))
    /\ k_wins (view d (a, b)) = k_losses (view d (b, a))
    /\ (0 <= k_wins (view d (a, b)))%Z
    /\ (0 <= k_losses (view d (a, b)))%Z
    /\ (k_wins (view d (a, b)) + k_losses (view d (a, b)) <= k_games (view d (a, b)))%Z.

(** *** What the tallies count *)

(** A game between two listed managers. *)
Definition active (managers : list string) (row : Row) : bool :=
  isin (manager1 row) managers && isin (manager2 row) managers.

(** A game between two listed managers who are [a] and [b], whoever is
    named first. *)
Definition between (managers : list string) (a b : string) (row : Row) : bool :=
  active managers row
  && (same_key (a, b) (manager1 row, manager2 row)
      || same_key (a, b) (manager2 row, manager1 row)).

Definition games_between (matchups_df : list Row) (managers : list string)
  (a b : string) : Z :=
  Z.of_nat (List.length (filter (between managers a b) matchups_df)).

(** The games between [a] and [b] that [a] won. *)
Definition wins_between (matchups_df : list Row) (managers : list string)
  (a b : string) : Z :=
  Z.of_nat
    (List.length
       (filter (fun row => between managers a b row && won_by row a) matchups_df)).

(** Five games between two managers, four of them won by the first. *)
Definition sample_series : list Row :=
  [ BadBeats.game 2021 1 "Hayden" 120 "Michael" 100 (Some "Hayden"%string);
    BadBeats.game 2021 8 "Michael" 90 "Hayden" 95 (Some "Hayden"%string);
    BadBeats.game 2022 1 "Hayden" 80 "Michael" 100 (Some "Michael"%string);
    BadBeats.game 2022 8 "Michael" 70 "Hayden" 130 (Some "Hayden"%string);
    BadBeats.game 2023 1 "Hayden" 111 "Michael" 110 (Some "Hayden"%string) ].

End Kryptonite.

(** ** Standings: src/analytics.py, [get_owner_win_percentages] and
    [get_championship_history] *)

Module Standings.

Import Models PyNum.
Local Open Scope Q_scope.

(** One value of the [defaultdict] [owner_totals]. *)
Record Totals := {
  tot_wins : Z;
  tot_losses : Z;
  tot_ties : Z
}.

(** The [lambda] of the [defaultdict]. *)
Definition no_totals : Totals := {| tot_wins := 0; tot_losses := 0; tot_ties := 0 |}.

(** [owner_totals[key][field] += n]: a key that is missing is first inserted
    with the default value. *)
Definition add_to (d : PyDict.dict string Totals) (k : string) (f : Totals -> Totals)
  : PyDict.dict string Totals :=
  PyDict.set String.eqb d k (f (PyDict.get_default String.eqb d k no_totals)).

Definition more_wins (n : Z) (t : Totals) : Totals :=
  {| tot_wins := tot_wins t + n; tot_losses := tot_losses t; tot_ties := tot_ties t |}.

Definition more_losses (n : Z) (t : Totals) : Totals :=
  {| tot_wins := tot_wins t; tot_losses := tot_losses t + n; tot_ties := tot_ties t |}.

Definition more_ties (n : Z) (t : Totals) : Totals :=
  {| tot_wins := tot_wins t; tot_losses := tot_losses t; tot_ties := tot_ties t + n |}.

(** Body of [for record in season_records]. *)
Definition accumulate (d : PyDict.dict string Totals) (record : SeasonRecord)
  : PyDict.dict string Totals :=
  let d := add_to d (s_owner_id record) (more_wins (wins record)) in
  let d := add_to d (s_owner_id record) (more_losses (losses record)) in
  add_to d (s_owner_id record) (more_ties (ties record)).

Definition owner_totals (season_records : list SeasonRecord) : PyDict.dict string Totals :=
  fold_left accumulate season_records [].

(** The local [win_percentage], before it is rounded: ties count as half
    wins. *)
Definition win_percentage (totals : Totals) : Q :=
  let total_games := (tot_wins totals + tot_losses totals + tot_ties totals)%Z in
  let adjusted_wins := inject_Z (tot_wins totals) + inject_Z (tot_ties totals) * (1 # 2) in
  adjusted_wins / inject_Z total_games * inject_Z 100.

(** Body of [for owner_id, totals in owner_totals.items()]. *)
Definition record_percentage (names : PyDict.dict string string)
  (win_percentages : PyDict.dict string Q) (item : string * Totals)
  : PyDict.dict string Q :=
  let owner_id := fst item in
  let totals := snd item in
  if (0 <? tot_wins totals + tot_losses totals + tot_ties totals)%Z then
    PyDict.set String.eqb win_percentages
      (PyDict.get_default String.eqb names owner_id owner_id)
      (py_round (win_percentage totals) 1)
  else win_percentages.

Definition get_owner_win_percentages (season_records : list SeasonRecord)
  (owners : list Owner) : PyDict.dict string Q :=
  fold_left (record_percentage (owner_names owners)) (owner_totals season_records) [].

(** The counts of a season are counts. *)
Definition counts_non_negative (record : SeasonRecord) : Prop :=
  (0 <= wins record)%Z /\ (0 <= losses record)%Z /\ (0 <= ties record)%Z.

(** Totals of counts. *)
Definition totals_ok (t : Totals) : Prop :=
  (0 <= tot_wins t)%Z /\ (0 <= tot_losses t)%Z /\ (0 <= tot_ties t)%Z.

(** A percentage. *)
Definition percent (v : Q) : Prop := 0 <= v /\ v <= inject_Z 100.

(** *** Champions *)

(** [season_groups[record.season].append(record)] on the [defaultdict(list)]. *)
Definition group (d : PyDict.dict Z (list SeasonRecord)) (record : SeasonRecord)
  : PyDict.dict Z (list SeasonRecord) :=
  PyDict.set Z.eqb d (s_season record)
    (PyDict.get_default Z.eqb d (s_season record) [] ++ [record]).

Definition season_groups (season_records : list SeasonRecord)
  : PyDict.dict Z (list SeasonRecord) :=
  fold_left group season_records [].

(** [min(records, key=lambda x: x.final_rank)]: the first record of the least
    rank; [None] is the [ValueError] of an empty list. *)
Definition better (best r : SeasonRecord) : SeasonRecord :=
  if (final_rank r <? final_rank best)%Z then r else best.

Definition min_by_rank (records : list SeasonRecord) : option SeasonRecord :=
  match records with
  | [] => None
  | r :: records' => Some (fold_left better records' r)
  end.

(** The name under which an owner is reported. *)
Definition display_name (names : PyDict.dict string string) (record : SeasonRecord)
  : string :=
  PyDict.get_default String.eqb names (s_owner_id record) (s_owner_id record).

(** Body of [for season, records in season_groups.items()]. *)
Definition crown (names : PyDict.dict string string)
  (champions : option (PyDict.dict Z string)) (item : Z * list SeasonRecord)
  : option (PyDict.dict Z string) :=
  match champions, min_by_rank (snd item) with
  | Some champions, Some champion_record =>
      Some (if (final_rank champion_record =? 1)%Z
            then PyDict.set Z.eqb champions (fst item) (display_name names champion_record)
            else champions)
  | _, _ => None
  end.

Definition get_championship_history (season_records : list SeasonRecord)
  (owners : list Owner) : option (PyDict.dict Z string) :=
  fold_left (crown (owner_names owners)) (season_groups season_records) (Some []).

(** *** Sample standings *)

Definition standing (owner : string) (s w l t rank : Z) : SeasonRecord :=
  {| s_owner_id := owner; s_season := s; wins := w; losses := l; ties := t;
     points_for := 0; points_against := 0; final_rank := rank; playoff_seed := None |}.

Definition sample_standings : list SeasonRecord :=
  [ standing "ann" 2021 9 4 1 1; standing "bob" 2021 4 9 1 2;
    standing "ann" 2022 7 7 0 2; standing "bob" 2022 7 7 0 0 ].

End Standings.

(** ** Manager profiles: the ['lucky'] entry of [analyze_manager_dna] *)

Module ManagerLuck.

Import PyNum Frames ManagerDna ExpectedWins.
Local Open Scope Q_scope.

(** The ['lucky'] entry of the manager's profile: the wins above those the
    scores give, scaled around 5 and cut to the range from 0 to 10. *)
Definition lucky (matchups_df : list Row) (manager : string) : Q :=
  let manager_games := games_of matchups_df manager in
  let scores := map (score_for manager) manager_games in
  let expected := expected_wins scores (opponent_scores matchups_df manager) in
  let actual := actual_wins manager manager_games in
  let luck_factor :=
    if (0 <? Z.of_nat (List.length scores))%Z then
      inject_Z (actual - expected) / inject_Z (Z.of_nat (List.length scores))
      * inject_Z 20 + inject_Z 5
    else inject_Z 5 in
  py_max 0 (py_min luck_factor (inject_Z 10)).

End ManagerLuck.

(** * Part II: properties *)

(** ** Streaks *)

Module StreaksFacts.

Import Streaks.

(** *** Properties of [runs] *)

Lemma runs_expand (l : list bool) : expand (runs l) = l.
Proof.
  induction l as [|x l IH]; simpl; [reflexivity|].
  destruct (runs l) as [|[y n] rs] eqn:E; simpl in *.
  - now subst l.
  - destruct (Bool.eqb x y) eqn:Exy; simpl.
    + apply Bool.eqb_prop in Exy. subst y. now rewrite IH.
    + now rewrite IH.
Qed.

Lemma runs_positive (l : list bool) :
  Forall (fun r => (0 < snd r)%nat) (runs l).
Proof.
  induction l as [|x l IH]; simpl; [constructor|].
  destruct (runs l) as [|[y n] rs]; simpl.
  - repeat constructor.
  - destruct (Bool.eqb x y).
    + inversion IH; subst. constructor; simpl in *; [lia|assumption].
    + constructor; simpl; [lia|assumption].
Qed.

Lemma runs_alternating (l : list bool) : alternating (runs l).
Proof.
  induction l as [|x l IH]; simpl; [exact I|].
  destruct (runs l) as [|[y n] rs]; simpl; [exact I|].
  destruct (Bool.eqb x y) eqn:Exy.
  - exact IH.
  - split; [|exact IH]. intros ->. now rewrite Bool.eqb_reflx in Exy.
Qed.

Lemma runs_head (x : bool) (l : list bool) :
  exists n rs, runs (x :: l) = (x, S n) :: rs.
Proof.
  revert x. induction l as [|y l IH]; intros x.
  - exists 0%nat, []. reflexivity.
  - destruct (IH y) as (n & rs & E).
    change (runs (x :: y :: l)) with
      (match runs (y :: l) with
       | (z, k) :: rs0 => if Bool.eqb x z then (z, S k) :: rs0 else (x, 1%nat) :: (z, k) :: rs0
       | [] => [(x, 1%nat)]
       end).
    rewrite E. destruct (Bool.eqb x y) eqn:Exy.
    + apply Bool.eqb_prop in Exy. subst y. exists (S n), rs. reflexivity.
    + exists 0%nat, ((y, S n) :: rs). reflexivity.
Qed.

Lemma runs_repeat (b : bool) (k : nat) : runs (repeat b (S k)) = [(b, S k)].
Proof.
  induction k as [|k IH]; [reflexivity|].
  change (repeat b (S (S k))) with (b :: repeat b (S k)).
  change (runs (b :: repeat b (S k))) with
    (match runs (repeat b (S k)) with
     | (z, n) :: rs0 => if Bool.eqb b z then (z, S n) :: rs0 else (b, 1%nat) :: (z, n) :: rs0
     | [] => [(b, 1%nat)]
     end).
  rewrite IH, Bool.eqb_reflx. reflexivity.
Qed.

Lemma runs_repeat_app (b r : bool) (k : nat) (l : list bool) :
  r <> b -> runs (repeat b (S k) ++ r :: l) = (b, S k) :: runs (r :: l).
Proof.
  intros Hr. induction k as [|k IH].
  - simpl repeat. simpl app.
    destruct (runs_head r l) as (n & rs & E).
    change (runs (b :: r :: l)) with
      (match runs (r :: l) with
       | (z, m) :: rs0 => if Bool.eqb b z then (z, S m) :: rs0 else (b, 1%nat) :: (z, m) :: rs0
       | [] => [(b, 1%nat)]
       end).
    rewrite E. destruct (Bool.eqb b r) eqn:Ebr; [|reflexivity].
    apply Bool.eqb_prop in Ebr. congruence.
  - change (repeat b (S (S k)) ++ r :: l) with (b :: (repeat b (S k) ++ r :: l)).
    change (runs (b :: (repeat b (S k) ++ r :: l))) with
      (match runs (repeat b (S k) ++ r :: l) with
       | (z, m) :: rs0 => if Bool.eqb b z then (z, S m) :: rs0 else (b, 1%nat) :: (z, m) :: rs0
       | [] => [(b, 1%nat)]
       end).
    rewrite IH, Bool.eqb_reflx. reflexivity.
Qed.

(** *** The loop computes the signed runs *)

Lemma streaks_loop_runs (rest : list bool) :
  forall (prev : bool) (k : nat) (acc : list Z),
    streaks_loop prev (signed (prev, S k)) acc rest
    = acc ++ signed_runs (repeat prev (S k) ++ rest).
Proof.
  induction rest as [|r rest IH]; intros prev k acc.
  - cbn [streaks_loop]. rewrite app_nil_r. unfold signed_runs.
    rewrite runs_repeat. reflexivity.
  - cbn [streaks_loop]. destruct (Bool.eqb r prev) eqn:E.
    + apply Bool.eqb_prop in E. subst r.
      assert (Hrep : repeat prev (S k) ++ prev :: rest = repeat prev (S (S k)) ++ rest).
      { change (repeat prev (S (S k))) with (prev :: repeat prev (S k)).
        rewrite (repeat_cons (S k) prev), <- app_assoc. reflexivity. }
      rewrite Hrep, <- IH.
      destruct prev; f_equal; unfold signed; cbn [fst snd];
        destruct (_ <? _); lia.
    + assert (Hr : r <> prev) by (intros ->; now rewrite Bool.eqb_reflx in E).
      unfold signed_runs. rewrite (runs_repeat_app prev r k rest Hr).
      cbn [map]. specialize (IH r 0%nat (acc ++ [signed (prev, S k)])).
      replace (if r then 1 else -1) with (signed (r, 1%nat)) by (now destruct r).
      rewrite IH. rewrite <- app_assoc. reflexivity.
Qed.

Lemma calculate_streaks_nonempty (r0 : bool) (rest : list bool) :
  calculate_streaks (r0 :: rest) = signed_runs (r0 :: rest).
Proof.
  unfold calculate_streaks.
  replace (if r0 then 1 else -1) with (signed (r0, 1%nat)) by (now destruct r0).
  rewrite streaks_loop_runs. reflexivity.
Qed.

Lemma lead_repeat (b : bool) (m : nat) (l : list bool) :
  (m <= lead b (repeat b m ++ l))%nat.
Proof.
  induction m as [|m IH]; simpl; [lia|]. rewrite Bool.eqb_reflx. lia.
Qed.

Lemma lead_prefix (b : bool) (l : list bool) :
  exists l2, l = repeat b (lead b l) ++ l2.
Proof.
  induction l as [|x l [l2 IH]]; simpl.
  - now exists [].
  - destruct (Bool.eqb x b) eqn:E.
    + apply Bool.eqb_prop in E. subst x. exists l2. simpl. now rewrite <- IH.
    + now exists (x :: l).
Qed.

Lemma best_bound (b : bool) (m : nat) (l : list bool) :
  has_run b m l -> (m <= best b l)%nat.
Proof.
  intros (l1 & l2 & ->). induction l1 as [|x l1 IH].
  - simpl app. destruct m as [|m]; [lia|].
    change (repeat b (S m) ++ l2) with (b :: (repeat b m ++ l2)).
    cbn [best]. pose proof (lead_repeat b (S m) l2) as H.
    change (repeat b (S m) ++ l2) with (b :: (repeat b m ++ l2)) in H. lia.
  - simpl app. cbn [best]. lia.
Qed.

Lemma best_has_run (b : bool) (l : list bool) : has_run b (best b l) l.
Proof.
  induction l as [|x l IH].
  - exists [], []. reflexivity.
  - cbn [best]. destruct (Nat.max_spec (lead b (x :: l)) (best b l)) as [[_ ->]|[_ ->]].
    + destruct IH as (l1 & l2 & E). exists (x :: l1), l2. simpl. now rewrite <- E.
    + destruct (lead_prefix b (x :: l)) as [l2 E]. exists [], l2. exact E.
Qed.

Lemma best_longest (b : bool) (l : list bool) : longest_run b l (best b l).
Proof. split; [apply best_has_run | intros m; apply best_bound]. Qed.

Lemma lead_runs (b : bool) (l : list bool) :
  lead b l = match runs l with
             | (y, n) :: _ => if Bool.eqb y b then n else 0%nat
             | [] => 0%nat
             end.
Proof.
  induction l as [|x l IH]; [reflexivity|].
  cbn [lead runs]. rewrite IH. destruct (runs l) as [|[y n] rs].
  - destruct (Bool.eqb x b); reflexivity.
  - destruct (Bool.eqb x y) eqn:Exy.
    + apply Bool.eqb_prop in Exy. subst y. destruct (Bool.eqb x b); reflexivity.
    + destruct x, y, b; simpl in *; try reflexivity; discriminate.
Qed.

Lemma best_runs (b : bool) (l : list bool) : best b l = max_run b (runs l).
Proof.
  induction l as [|x l IH]; [reflexivity|].
  cbn [best]. rewrite lead_runs, IH. cbn [runs].
  destruct (runs l) as [|[y n] rs].
  - cbn [max_run]. lia.
  - destruct (Bool.eqb x y) eqn:Exy; cbn [max_run];
      destruct (Bool.eqb y b), (Bool.eqb x b); lia.
Qed.

Lemma signed_win (n : nat) : signed (true, n) = Z.of_nat n.
Proof. reflexivity. Qed.

Lemma signed_loss (n : nat) : signed (false, n) = - Z.of_nat n.
Proof. reflexivity. Qed.

Lemma max_win_runs (rs : list (bool * nat)) :
  max_with_zero (filter (fun s => 0 <? s) (map signed rs)) = Z.of_nat (max_run true rs).
Proof.
  induction rs as [|[y n] rs IH]; [reflexivity|].
  cbn [map filter max_run].
  destruct y; cbn [Bool.eqb]; rewrite ?signed_win, ?signed_loss.
  - destruct (Z.ltb_spec 0 (Z.of_nat n)) as [E|E].
    + unfold max_with_zero in *. cbn [fold_right]. rewrite IH. lia.
    + rewrite IH. lia.
  - destruct (Z.ltb_spec 0 (- Z.of_nat n)) as [E|E]; [lia|].
    rewrite IH. lia.
Qed.

Lemma min_lose_runs (rs : list (bool * nat)) :
  min_with_zero (filter (fun s => s <? 0) (map signed rs)) = - Z.of_nat (max_run false rs).
Proof.
  induction rs as [|[y n] rs IH]; [reflexivity|].
  cbn [map filter max_run].
  destruct y; cbn [Bool.eqb]; rewrite ?signed_win, ?signed_loss.
  - destruct (Z.ltb_spec (Z.of_nat n) 0) as [E|E]; [lia|].
    rewrite IH. lia.
  - destruct (Z.ltb_spec (- Z.of_nat n) 0) as [E|E].
    + unfold min_with_zero in *. cbn [fold_right]. rewrite IH. lia.
    + rewrite IH. lia.
Qed.

Lemma max_win_streak_best (results : list bool) :
  max_win_streak results = Z.of_nat (best true results).
Proof.
  unfold max_win_streak. destruct results as [|r0 rest]; [reflexivity|].
  rewrite calculate_streaks_nonempty. unfold signed_runs.
  rewrite max_win_runs, best_runs. reflexivity.
Qed.

Lemma max_lose_streak_best (results : list bool) :
  max_lose_streak results = Z.of_nat (best false results).
Proof.
  unfold max_lose_streak. destruct results as [|r0 rest]; [reflexivity|].
  rewrite calculate_streaks_nonempty. unfold signed_runs.
  rewrite min_lose_runs, best_runs. lia.
Qed.

(** *** The code on sample sequences *)

Example streaks_of_six :
  calculate_streaks [true; true; false; false; false; true] = [2; -3; 1]
  /\ max_win_streak [true; true; false; false; false; true] = 2
  /\ max_lose_streak [true; true; false; false; false; true] = 3.
Proof. repeat split. Qed.

Example runs_of_six :
  runs [true; true; false; false; false; true]
  = [(true, 2%nat); (false, 3%nat); (true, 1%nat)].
Proof. reflexivity. Qed.

(** C10, as stated, fails on the empty sequence: it has no run at all, yet
    [calculate_streaks] returns the one entry [0]. *)
Lemma calculate_streaks_empty_not_runs :
  calculate_streaks [] = [0] /\ signed_runs [] = [] /\
  calculate_streaks [] <> signed_runs [].
Proof. repeat split. discriminate. Qed.

(** C10 (amended).  On every non-empty win/loss sequence [calculate_streaks]
    returns exactly one signed entry per maximal run of equal results, the
    absolute value being the run's length; on the empty sequence it returns
    the single entry [0].  ([runs] lists the maximal runs: expanded they give
    the sequence back, none is empty and neighbours differ.)  For every sequence, empty or not, the reported
    longest win streak is the length of the longest run of consecutive wins
    and the reported longest losing streak is the length of the longest run
    of consecutive losses. *)
Theorem calculate_streaks_signed_runs (results : list bool) :
  calculate_streaks results
  = match results with [] => [0] | _ :: _ => signed_runs results end
  /\ (expand (runs results) = results
      /\ Forall (fun r => (0 < snd r)%nat) (runs results)
      /\ alternating (runs results))
  /\ (exists n, max_win_streak results = Z.of_nat n /\ longest_run true results n)
  /\ (exists n, max_lose_streak results = Z.of_nat n /\ longest_run false results n).
Proof.
  split; [|split; [|split]].
  - destruct results; [reflexivity | apply calculate_streaks_nonempty].
  - split; [apply runs_expand|]. split; [apply runs_positive | apply runs_alternating].
  - exists (best true results). split; [apply max_win_streak_best | apply best_longest].
  - exists (best false results). split; [apply max_lose_streak_best | apply best_longest].
Qed.

End StreaksFacts.

(** ** Owner identifiers *)

Module OwnerIdFacts.

Import OwnerId.
Local Open Scope N_scope.

(** *** Characters *)

Lemma lower_char_not_upper (c : ascii) : is_upper (lower_char c) = false.
Proof. destruct c as [[] [] [] [] [] [] [] []]; vm_compute; reflexivity. Qed.

Lemma kept_id_char (c : ascii) :
  kept c = true -> is_upper c = false -> is_space c = false -> id_char c = true.
Proof.
  unfold kept, id_char. intros K U S. rewrite U, S in K.
  destruct (is_lower c), (is_digit c); simpl in *; congruence.
Qed.

Lemma clean_name_chars (owner_name : text) (c : ascii) :
  In c (clean_name owner_name) -> kept c = true /\ is_upper c = false.
Proof.
  unfold clean_name, lower. intros H. apply filter_In in H. destruct H as [H K].
  split; [exact K|]. apply in_map_iff in H. destruct H as (d & <- & _).
  apply lower_char_not_upper.
Qed.

(** *** Words *)

Lemma split_loop_chars (s : text) :
  forall (word : text) (w : text) (c : ascii),
    In w (split_loop word s) -> In c w ->
    In c word \/ (In c s /\ is_space c = false).
Proof.
  induction s as [|a s IH]; intros word w c Hw Hc.
  - destruct word; simpl in Hw; [contradiction|].
    destruct Hw as [<-|[]]. now left.
  - cbn [split_loop] in Hw. destruct (is_space a) eqn:Ea.
    + destruct word as [|b word].
      * destruct (IH _ _ _ Hw Hc) as [[]|[H1 H2]]. right. split; [now right|exact H2].
      * destruct Hw as [<-|Hw]; [now left|].
        destruct (IH _ _ _ Hw Hc) as [[]|[H1 H2]]. right. split; [now right|exact H2].
    + destruct (IH _ _ _ Hw Hc) as [H|[H1 H2]].
      * apply in_app_or in H. destruct H as [H|[<-|[]]]; [now left|].
        right. split; [now left|exact Ea].
      * right. split; [now right|exact H2].
Qed.

Lemma split_loop_nonempty (s : text) :
  forall word, Forall (fun w => w <> []) (split_loop word s).
Proof.
  induction s as [|a s IH]; intros word.
  - destruct word; simpl; constructor; [discriminate|constructor].
  - cbn [split_loop]. destruct (is_space a).
    + destruct word; [apply IH|]. constructor; [discriminate|apply IH].
    + apply IH.
Qed.

Lemma join_chars (ws : list text) (c : ascii) :
  In c (join ws) -> c = underscore \/ exists w, In w ws /\ In c w.
Proof.
  induction ws as [|w ws IH]; [intros []|].
  cbn [join]. destruct ws as [|w' ws'].
  - intros H. right. exists w. split; [now left|exact H].
  - intros H. apply in_app_or in H. destruct H as [H|[H|H]].
    + right. exists w. split; [now left|exact H].
    + left. now symmetry.
    + destruct (IH H) as [E|(x & Hx & Hc)]; [now left|].
      right. exists x. split; [now right|exact Hc].
Qed.

Lemma join_nil (ws : list text) :
  Forall (fun w => w <> []) ws -> join ws = [] -> ws = [].
Proof.
  destruct ws as [|w ws]; [reflexivity|]. intros H E. exfalso.
  inversion H as [|? ? Hw _]; subst. cbn [join] in E.
  destruct ws; [now apply Hw|]. destruct w; [now apply Hw|discriminate].
Qed.

Lemma trim_end_spacefree (w x : text) :
  spacefree w -> trim_end (w ++ x) = w ++ trim_end x.
Proof.
  induction 1 as [|a w Ha _ IH]; [reflexivity|].
  simpl app. cbn [trim_end]. rewrite IH, Ha.
  destruct (w ++ trim_end x); reflexivity.
Qed.

Lemma squeeze_spacefree (w x : text) :
  spacefree w -> squeeze (w ++ x) = w ++ squeeze x.
Proof.
  unfold squeeze. induction 1 as [|a w Ha _ IH]; [reflexivity|].
  simpl app. cbn [squeeze_from]. now rewrite Ha, IH.
Qed.

Lemma squeeze_in_run (t : text) : squeeze_from true t = squeeze (dropws t).
Proof.
  unfold squeeze. induction t as [|d t IH]; [reflexivity|].
  cbn [squeeze_from dropws]. destruct (is_space d) eqn:E; [exact IH|].
  cbn [squeeze_from]. now rewrite E.
Qed.

Lemma squeeze_nil (x : text) : squeeze x = [] -> x = [].
Proof.
  unfold squeeze. destruct x as [|c x]; [reflexivity|]. cbn [squeeze_from].
  destruct (is_space c); discriminate.
Qed.

Lemma trim_nil (x : text) : trim x = [] -> trim_end x = [].
Proof.
  unfold trim. induction x as [|a x IH]; [reflexivity|].
  cbn [trim_end]. destruct (trim_end x) as [|b t] eqn:E.
  - destruct (is_space a) eqn:Ea; [reflexivity|]. cbn [dropws]. now rewrite Ea.
  - cbn [dropws]. destruct (is_space a); [|discriminate].
    intros H. specialize (IH H). discriminate.
Qed.

Lemma trim_space (c : ascii) (s : text) : is_space c = true -> trim (c :: s) = trim s.
Proof.
  intros Hc. unfold trim. cbn [trim_end]. destruct (trim_end s) as [|b t].
  - now rewrite Hc.
  - cbn [dropws]. now rewrite Hc.
Qed.

Lemma trim_word (w x : text) :
  spacefree w -> w <> [] -> trim (w ++ x) = w ++ trim_end x.
Proof.
  intros Hw Hn. unfold trim. rewrite (trim_end_spacefree w x Hw).
  destruct Hw as [|a w Ha _]; [contradiction|]. simpl. now rewrite Ha.
Qed.

Lemma squeeze_space (c : ascii) (x : text) :
  is_space c = true -> squeeze (c :: x) = underscore :: squeeze_from true x.
Proof. intros Hc. unfold squeeze. cbn [squeeze_from]. now rewrite Hc. Qed.

Lemma squeeze_gap (c : ascii) (s : text) :
  is_space c = true ->
  squeeze (trim_end (c :: s))
  = match trim s with [] => [] | _ :: _ => underscore :: squeeze (trim s) end.
Proof.
  intros Hc. cbn [trim_end]. destruct (trim_end s) as [|b t] eqn:E.
  - rewrite Hc. unfold trim. now rewrite E.
  - assert (Ht : dropws (b :: t) = trim s) by (unfold trim; now rewrite E).
    destruct (trim s) as [|d u] eqn:Et.
    + apply trim_nil in Et. congruence.
    + rewrite (squeeze_space c (b :: t) Hc), squeeze_in_run, Ht. reflexivity.
Qed.

(** *** The identifier is the trimmed, squeezed clean name *)

Lemma join_split_loop (s : text) :
  forall word, spacefree word ->
    join (split_loop word s) = squeeze (trim (word ++ s)).
Proof.
  induction s as [|c s IH]; intros word Hw.
  - rewrite app_nil_r. destruct word as [|a word]; [reflexivity|].
    cbn [split_loop join].
    rewrite <- (app_nil_r (a :: word)) at 2.
    rewrite trim_word by (assumption || discriminate).
    rewrite squeeze_spacefree by assumption. cbn [trim_end]. unfold squeeze.
    cbn [squeeze_from]. now rewrite app_nil_r.
  - cbn [split_loop]. destruct (is_space c) eqn:Ec.
    + destruct word as [|a word].
      * simpl app. rewrite trim_space by assumption. apply (IH [] Hw).
      * rewrite trim_word by (assumption || discriminate).
        rewrite squeeze_spacefree by assumption.
        rewrite squeeze_gap by assumption.
        pose proof (IH [] (Forall_nil _)) as H0. simpl app in H0.
        pose proof (split_loop_nonempty s []) as Hne.
        cbn [join]. destruct (split_loop [] s) as [|w ws] eqn:Es.
        -- cbn [join] in H0. symmetry in H0. apply squeeze_nil in H0.
           now rewrite H0, app_nil_r.
        -- destruct (trim s) as [|d u] eqn:Et.
           ++ change (squeeze []) with (@nil ascii) in H0.
              apply (join_nil _ Hne) in H0. discriminate.
           ++ now rewrite H0.
    + rewrite IH.
      * now rewrite <- app_assoc.
      * apply Forall_app. split; [exact Hw|]. now constructor.
Qed.

Lemma generate_squeeze (owner_name : text) :
  generate owner_name = squeeze (trim (clean_name owner_name)).
Proof. unfold generate, split. apply (join_split_loop _ [] (Forall_nil _)). Qed.

Lemma generate_chars (owner_name : text) :
  Forall (fun c => id_char c = true) (generate owner_name).
Proof.
  apply Forall_forall. intros c Hc. unfold generate in Hc.
  apply join_chars in Hc. destruct Hc as [->|(w & Hw & Hc)]; [reflexivity|].
  unfold split in Hw.
  destruct (split_loop_chars _ _ _ _ Hw Hc) as [[]|[Hin Hs]].
  apply clean_name_chars in Hin. destruct Hin as [K U].
  now apply kept_id_char.
Qed.

(** *** The code on sample names *)

Example owner_id_examples :
  _generate_owner_id " a - b " = "a_b"%string
  /\ _generate_owner_id "O'Neil Jr." = "oneil_jr"%string
  /\ _generate_owner_id "!!" = ""%string.
Proof. repeat split. Qed.

(** C7, as stated, fails when the cleaned name ends (or starts) with white
    space: ["Bob !"] is cleaned to ["bob "], whose white-space run gets no
    underscore in the identifier ["bob"]. *)
Lemma owner_id_trailing_space :
  clean_name (list_ascii_of_string "Bob !") = list_ascii_of_string "bob "
  /\ squeeze (clean_name (list_ascii_of_string "Bob !")) = list_ascii_of_string "bob_"
  /\ _generate_owner_id "Bob !" = "bob"%string
  /\ generate (list_ascii_of_string "Bob !")
     <> squeeze (clean_name (list_ascii_of_string "Bob !")).
Proof. repeat split. vm_compute. discriminate. Qed.

(** C7 (amended).  The identifier is a function of the display name alone, so
    generating it twice gives the same string.  It holds only lowercase
    letters, digits and underscores, and it is the cleaned name with the white
    space at its two ends dropped and every remaining (hence inner) run of
    white space replaced by one underscore.  ["Robbie G."] maps to
    ["robbie_g"]. *)
Theorem generate_owner_id_shape (owner_name : string) :
  _generate_owner_id owner_name = _generate_owner_id owner_name
  /\ Forall (fun c => id_char c = true)
       (list_ascii_of_string (_generate_owner_id owner_name))
  /\ list_ascii_of_string (_generate_owner_id owner_name)
     = squeeze (trim (clean_name (list_ascii_of_string owner_name)))
  /\ _generate_owner_id "Robbie G." = "robbie_g"%string.
Proof.
  unfold _generate_owner_id. rewrite list_ascii_of_string_of_list_ascii.
  repeat split.
  - apply generate_chars.
  - apply generate_squeeze.
Qed.

End OwnerIdFacts.

(** ** Python numbers *)

Module PyNumFacts.

Import PyNum.
Local Open Scope Q_scope.

Lemma round_half_even_near (q : Q) :
  inject_Z (round_half_even q) - (1#2) <= q /\ q <= inject_Z (round_half_even q) + (1#2).
Proof.
  destruct q as [n d]. unfold round_half_even. cbn [Qnum Qden Qfloor].
  pose proof (Z.div_mod n (Zpos d) ltac:(lia)) as Hdm.
  pose proof (Z.mod_pos_bound n (Zpos d) ltac:(lia)) as Hb.
  set (f := (n / Zpos d)%Z) in *. set (m := (n mod Zpos d)%Z) in *.
  assert (Hr : (n - f * Zpos d = m)%Z) by lia. rewrite Hr.
  assert (K : forall z : Z,
             (2 * z * Zpos d - Zpos d <= 2 * n <= 2 * z * Zpos d + Zpos d)%Z ->
             inject_Z z - (1#2) <= n # d /\ n # d <= inject_Z z + (1#2)).
  { intros z Hz. unfold Qle, Qminus, Qplus, Qopp, inject_Z. cbn [Qnum Qden]. split; lia. }
  apply K.
  destruct (Z.compare_spec (2 * m) (Zpos d)) as [E|E|E]; [destruct (Z.even f)| |]; nia.
Qed.

Lemma inject_Z_div_mul (d t : Z) :
  (0 < t)%Z -> inject_Z d / inject_Z t * inject_Z t == inject_Z d.
Proof.
  intros Ht. field. intros H0.
  assert (H1 : inject_Z 0 < inject_Z t) by (rewrite <- Zlt_Qlt; assumption).
  rewrite H0 in H1. now apply Qlt_irrefl in H1.
Qed.

Lemma inject_Z_sub (x y : Z) : inject_Z (x - y) = inject_Z x - inject_Z y.
Proof. unfold Z.sub, Qminus. now rewrite inject_Z_plus, inject_Z_opp. Qed.

End PyNumFacts.

(** ** Dictionaries *)

Module PyDictFacts.

Import PyDict.

Section DictFacts.

Variables (K V : Type).
Variable eqb : K -> K -> bool.
Hypothesis eqb_eq : forall x y, eqb x y = true <-> x = y.

Lemma eqb_refl (x : K) : eqb x x = true.
Proof. now apply eqb_eq. Qed.

Lemma eqb_neq (x y : K) : x <> y -> eqb x y = false.
Proof.
  intros H. destruct (eqb x y) eqn:E; [|reflexivity]. apply eqb_eq in E. contradiction.
Qed.

Lemma get_set_same (d : dict K V) (k : K) (v : V) :
  get eqb (set eqb d k v) k = Some v.
Proof.
  induction d as [|[k' v'] d IH]; simpl.
  - now rewrite eqb_refl.
  - destruct (eqb k k') eqn:E; simpl; rewrite E; [reflexivity|exact IH].
Qed.

Lemma get_set_other (d : dict K V) (k k' : K) (v : V) :
  k <> k' -> get eqb (set eqb d k v) k' = get eqb d k'.
Proof.
  intros Hne. induction d as [|[k0 v0] d IH]; simpl.
  - rewrite eqb_neq; [reflexivity|]. congruence.
  - destruct (eqb k k0) eqn:E; simpl.
    + apply eqb_eq in E. subst k0. rewrite eqb_neq; [reflexivity|]. congruence.
    + destruct (eqb k' k0); [reflexivity|exact IH].
Qed.

Lemma In_decidable (k : K) (keys : list K) : In k keys \/ ~ In k keys.
Proof.
  induction keys as [|b keys IH]; [now right|].
  destruct (eqb k b) eqn:Eb.
  - apply eqb_eq in Eb. left. now left.
  - destruct IH as [H|H]; [left; now right|]. right. intros [->|H'].
    + rewrite eqb_refl in Eb. discriminate.
    + contradiction.
Qed.

(** A dictionary filled by [for k in keys: d[k] = f(k)]. *)
Lemma get_fold_set (f : K -> V) (keys : list K) :
  forall (d : dict K V) (k : K),
    (In k keys ->
     get eqb (fold_left (fun d s => set eqb d s (f s)) keys d) k = Some (f k))
    /\ (~ In k keys ->
        get eqb (fold_left (fun d s => set eqb d s (f s)) keys d) k = get eqb d k).
Proof.
  induction keys as [|a keys IH]; intros d k; simpl.
  - split; [intros []|reflexivity].
  - destruct (IH (set eqb d a (f a)) k) as [IH1 IH2]. split.
    + intros [->|H]; [|now apply IH1].
      destruct (In_decidable k keys) as [D|D]; [now apply IH1|].
      rewrite (IH2 D). apply get_set_same.
    + intros H. rewrite IH2 by tauto. apply get_set_other. intros ->. tauto.
Qed.

End DictFacts.

Arguments get_set_same {K V} eqb eqb_eq d k v.
Arguments get_set_other {K V} eqb eqb_eq d k k' v.
Arguments get_fold_set {K V} eqb eqb_eq f keys d k.

End PyDictFacts.

(** ** Rivalries *)

Module RivalryFacts.

Import Models PyNum PyNumFacts Rivalry.
Local Open Scope Q_scope.

Lemma insert_desc_In (x y : Rivalry) (l : list Rivalry) :
  In y (insert_desc x l) <-> y = x \/ In y l.
Proof.
  induction l as [|z l IH]; simpl.
  - intuition congruence.
  - destruct (Qle_bool _ _); simpl; [intuition congruence|].
    rewrite IH. intuition congruence.
Qed.

Lemma sort_desc_In (y : Rivalry) (l : list Rivalry) : In y (sort_desc l) <-> In y l.
Proof.
  induction l as [|x l IH]; simpl; [reflexivity|].
  rewrite insert_desc_In, IH. intuition congruence.
Qed.

Lemma get_rivalry_analysis_In (h2h_records : list HeadToHeadRecord)
  (owners : list Owner) (min_games : Z) (e : Rivalry) :
  In e (get_rivalry_analysis h2h_records owners min_games) <->
  exists record, In record h2h_records /\ (min_games <= total_games record)%Z
                 /\ e = rivalry_of (owner_names owners) record.
Proof.
  unfold get_rivalry_analysis. rewrite sort_desc_In, in_map_iff. split.
  - intros (r & <- & H). apply filter_In in H. destruct H as [H1 H2].
    exists r. repeat split; [assumption|]. now apply Z.leb_le.
  - intros (r & H1 & H2 & ->). exists r. split; [reflexivity|].
    apply filter_In. split; [assumption|]. now apply Z.leb_le.
Qed.

(** *** The score before rounding *)

Lemma competitiveness_range (record : HeadToHeadRecord) :
  counts_ok record ->
  0 <= competitiveness record <= 1
  /\ (competitiveness record == 1 -> owner1_wins record = owner2_wins record)
  /\ (competitiveness record == 0 ->
      owner1_wins record = 0%Z \/ owner2_wins record = 0%Z)
  /\ ((owner1_wins record + owner2_wins record < 2000)%Z ->
      ((9995#10000) <= competitiveness record ->
       owner1_wins record = owner2_wins record)
      /\ (competitiveness record <= (5#10000) ->
          owner1_wins record = 0%Z \/ owner2_wins record = 0%Z)).
Proof.
  intros [H1 H2]. unfold competitiveness.
  set (t := (owner1_wins record + owner2_wins record)%Z).
  set (d := Z.abs (owner1_wins record - owner2_wins record)).
  destruct (Z.ltb_spec 0 t) as [Ht|Ht].
  - pose proof (inject_Z_div_mul d t Ht) as HX.
    set (X := inject_Z d / inject_Z t) in *.
    assert (HT : 0 < inject_Z t) by (change 0 with (inject_Z 0); now rewrite <- Zlt_Qlt).
    assert (HD0 : 0 <= inject_Z d).
    { change 0 with (inject_Z 0). rewrite <- Zle_Qle. subst d. lia. }
    assert (HDT : inject_Z d <= inject_Z t) by (rewrite <- Zle_Qle; subst d t; lia).
    assert (Hint : forall z : Z, inject_Z z < 1 -> (z <= 0)%Z).
    { intros z Hz. change 1 with (inject_Z 1) in Hz. rewrite <- Zlt_Qlt in Hz. lia. }
    repeat split.
    + nra.
    + nra.
    + intros E. assert (Hd : inject_Z d < 1) by nra. apply Hint in Hd. subst d. lia.
    + intros E. assert (Hd : inject_Z (t - d) < 1).
      { rewrite inject_Z_sub. nra. }
      apply Hint in Hd. subst d t. lia.
    + intros E. assert (HT2 : inject_Z t < 2000).
      { change 2000 with (inject_Z 2000). now rewrite <- Zlt_Qlt. }
      assert (Hd : inject_Z d < 1) by nra. apply Hint in Hd. subst d. lia.
    + intros E. assert (HT2 : inject_Z t < 2000).
      { change 2000 with (inject_Z 2000). now rewrite <- Zlt_Qlt. }
      assert (Hd : inject_Z (t - d) < 1).
      { rewrite inject_Z_sub. nra. }
      apply Hint in Hd. subst d t. lia.
  - assert (owner1_wins record = 0%Z /\ owner2_wins record = 0%Z) as [E1 E2]
      by (subst t; lia).
    repeat split; try lra; intros; lia || lra.
Qed.

(** *** The score as reported, rounded to three decimals *)

Lemma py_round3_range (x : Q) :
  0 <= x <= 1 ->
  0 <= py_round x 3 <= 1
  /\ (py_round x 3 == 1 -> (9995#10000) <= x)
  /\ (py_round x 3 == 0 -> x <= (5#10000)).
Proof.
  intros Hx. unfold py_round.
  change (inject_Z (10 ^ Z.of_nat 3)) with (inject_Z 1000).
  set (z := round_half_even (x * inject_Z 1000)).
  pose proof (round_half_even_near (x * inject_Z 1000)) as Hn. fold z in Hn.
  change (inject_Z 1000) with (1000#1) in Hn.
  assert (Hz : (0 <= z <= 1000)%Z).
  { split.
    - assert (H : inject_Z (-1) < inject_Z z) by (change (inject_Z (-1)) with (-1#1); lra).
      rewrite <- Zlt_Qlt in H. lia.
    - assert (H : inject_Z z < inject_Z 1001) by (change (inject_Z 1001) with (1001#1); lra).
      rewrite <- Zlt_Qlt in H. lia. }
  pose proof (inject_Z_div_mul z 1000 ltac:(lia)) as HY.
  set (Y := inject_Z z / inject_Z 1000) in *.
  change (inject_Z 1000) with (1000#1) in HY.
  assert (H0 : inject_Z 0 <= inject_Z z) by (rewrite <- Zle_Qle; lia).
  assert (H1 : inject_Z z <= inject_Z 1000) by (rewrite <- Zle_Qle; lia).
  change (inject_Z 0) with 0 in H0. change (inject_Z 1000) with (1000#1) in H1.
  repeat split; try lra; intros E; lra.
Qed.

Lemma rivalry_of_score (names : PyDict.dict string string) (record : HeadToHeadRecord) :
  counts_ok record ->
  0 <= competitiveness_score (rivalry_of names record) <= 1
  /\ ((owner1_wins record + owner2_wins record < 2000)%Z ->
      (competitiveness_score (rivalry_of names record) == 1 ->
       owner1_wins record = owner2_wins record)
      /\ (competitiveness_score (rivalry_of names record) == 0 ->
          owner1_wins record = 0%Z \/ owner2_wins record = 0%Z)).
Proof.
  intros Hc. cbn [competitiveness_score rivalry_of].
  destruct (competitiveness_range record Hc) as (Hr & _ & _ & Hs).
  destruct (py_round3_range _ Hr) as (R1 & R2 & R3).
  split; [exact R1|]. intros Hlt. destruct (Hs Hlt) as [S1 S2]. split.
  - intros E. apply S1, R2, E.
  - intros E. apply S2, R3, E.
Qed.

(** *** The code on a sample series *)

Example rivalry_of_sample :
  competitiveness sample_record == 6 # 7
  /\ competitiveness_score (rivalry_of [] sample_record) == 857 # 1000
  /\ avg_points_diff (rivalry_of [] sample_record) == 71 # 10
  /\ series_leader (rivalry_of [] sample_record) = "Tied"%string.
Proof. repeat split. Qed.

(** C8, as stated, fails on long series, because the reported score is
    rounded to three decimals: 1000 wins against 1001 are reported with score
    1 although the win counts differ, and 1 win against 4001 is reported with
    score 0 although neither owner is without a win. *)
Lemma rivalry_rounded_extremes :
  (exists e,
     get_rivalry_analysis
       [{| owner1_id := "a"; owner2_id := "b"; owner1_wins := 1000;
           owner2_wins := 1001; owner1_points := 0; owner2_points := 0;
           total_games := 2001 |}] [] 5 = [e]
     /\ competitiveness_score e == 1 /\ r_owner1_wins e <> r_owner2_wins e)
  /\ (exists e,
     get_rivalry_analysis
       [{| owner1_id := "a"; owner2_id := "b"; owner1_wins := 1;
           owner2_wins := 4001; owner1_points := 0; owner2_points := 0;
           total_games := 4002 |}] [] 5 = [e]
     /\ competitiveness_score e == 0
     /\ r_owner1_wins e <> 0%Z /\ r_owner2_wins e <> 0%Z).
Proof.
  split; eexists; (split; [reflexivity|]); cbn [competitiveness_score r_owner1_wins
    r_owner2_wins rivalry_of]; repeat split; try discriminate.
Qed.

(** C8 (amended).  For every stored head-to-head record with non-negative win
    counts and at least the minimum number of games, the competitiveness
    1 - |w1 - w2| / (w1 + w2) that [get_rivalry_analysis] computes lies in
    [0, 1], is 1 only when the two win counts are identical and is 0 only
    when one owner has no win.  The score it reports is that value rounded to
    three decimals; it lies in [0, 1] too, and as long as the two owners have
    fewer than 2000 wins between them it is 1 only for identical win counts
    and 0 only when one owner has no win. *)
Theorem rivalry_competitiveness (h2h_records : list HeadToHeadRecord)
  (owners : list Owner) (min_games : Z) (e : Rivalry) :
  Forall counts_ok h2h_records ->
  In e (get_rivalry_analysis h2h_records owners min_games) ->
  exists record,
    In record h2h_records /\ (min_games <= total_games record)%Z
    /\ r_owner1_wins e = owner1_wins record /\ r_owner2_wins e = owner2_wins record
    /\ competitiveness_score e = py_round (competitiveness record) 3
    /\ 0 <= competitiveness record <= 1
    /\ (competitiveness record == 1 -> r_owner1_wins e = r_owner2_wins e)
    /\ (competitiveness record == 0 -> r_owner1_wins e = 0%Z \/ r_owner2_wins e = 0%Z)
    /\ 0 <= competitiveness_score e <= 1
    /\ ((r_owner1_wins e + r_owner2_wins e < 2000)%Z ->
        (competitiveness_score e == 1 -> r_owner1_wins e = r_owner2_wins e)
        /\ (competitiveness_score e == 0 ->
            r_owner1_wins e = 0%Z \/ r_owner2_wins e = 0%Z)).
Proof.
  intros Hall Hin. apply get_rivalry_analysis_In in Hin.
  destruct Hin as (record & Hr & Hg & ->).
  assert (Hc : counts_ok record) by (rewrite Forall_forall in Hall; now apply Hall).
  destruct (competitiveness_range record Hc) as (C1 & C2 & C3 & _).
  destruct (rivalry_of_score (owner_names owners) record Hc) as [S1 S2].
  exists record. cbn [r_owner1_wins r_owner2_wins rivalry_of] in *.
  repeat split; try assumption; try apply C1; try apply S1; try reflexivity;
    intros ?; now apply S2.
Qed.

Lemma rivalry_competitiveness_witness :
  exists record,
    In record [sample_record] /\ (5 <= total_games record)%Z
    /\ r_owner1_wins (rivalry_of [] sample_record) = owner1_wins record
    /\ r_owner2_wins (rivalry_of [] sample_record) = owner2_wins record
    /\ competitiveness_score (rivalry_of [] sample_record)
       = py_round (competitiveness record) 3
    /\ 0 <= competitiveness record <= 1
    /\ (competitiveness record == 1 ->
        r_owner1_wins (rivalry_of [] sample_record)
        = r_owner2_wins (rivalry_of [] sample_record))
    /\ (competitiveness record == 0 ->
        r_owner1_wins (rivalry_of [] sample_record) = 0%Z
        \/ r_owner2_wins (rivalry_of [] sample_record) = 0%Z)
    /\ 0 <= competitiveness_score (rivalry_of [] sample_record) <= 1
    /\ ((r_owner1_wins (rivalry_of [] sample_record)
         + r_owner2_wins (rivalry_of [] sample_record) < 2000)%Z ->
        (competitiveness_score (rivalry_of [] sample_record) == 1 ->
         r_owner1_wins (rivalry_of [] sample_record)
         = r_owner2_wins (rivalry_of [] sample_record))
        /\ (competitiveness_score (rivalry_of [] sample_record) == 0 ->
            r_owner1_wins (rivalry_of [] sample_record) = 0%Z
            \/ r_owner2_wins (rivalry_of [] sample_record) = 0%Z)).
Proof.
  apply (rivalry_competitiveness [sample_record] [] 5 (rivalry_of [] sample_record)).
  - repeat constructor; simpl; lia.
  - left. reflexivity.
Defined.

End RivalryFacts.

(** ** Sums over rows *)

Module FramesFacts.

Import PyNum PyNumFacts Frames.
Local Open Scope Q_scope.

Lemma qsum_from (l : list Q) (a : Q) : fold_left Qplus l a == a + qsum l.
Proof.
  unfold qsum. revert a. induction l as [|x l IH]; intros a; simpl.
  - ring.
  - rewrite IH, (IH (0 + x)). ring.
Qed.

Lemma qsum_cons (x : Q) (l : list Q) : qsum (x :: l) == x + qsum l.
Proof. unfold qsum at 1. simpl. rewrite qsum_from. ring. Qed.

End FramesFacts.

(** ** Gini coefficient *)

Module GiniFacts.

Import Frames Gini PrimFloat.
Local Open Scope float_scope.

Lemma all_equal_repeat (c : float) (values : list float) :
  all_equal c values -> values = repeat c (List.length values).
Proof.
  induction 1 as [|v l Hv _ IH]; [reflexivity|].
  cbn [List.length repeat]. now rewrite Hv, <- IH.
Qed.

Lemma forallb_seq (f : nat -> bool) (start len n : nat) :
  forallb f (seq start len) = true -> (start <= n < start + len)%nat -> f n = true.
Proof.
  intros H Hn. rewrite forallb_forall in H. apply H. apply in_seq. exact Hn.
Qed.

(** Every season of the stated size, by evaluation in binary64. *)
Lemma equal_seasons_checked : forallb managers_ok (seq 1 32) = true.
Proof. vm_compute. reflexivity. Qed.

Lemma equal_season_checked (n wins games : nat) :
  (1 <= n <= 32)%nat -> (wins <= games)%nat -> (1 <= games <= 40)%nat ->
  equal_season_ok n wins games = true.
Proof.
  intros Hn Hw Hg.
  assert (H1 : managers_ok n = true).
  { apply (forallb_seq managers_ok 1 32 n equal_seasons_checked). lia. }
  assert (H2 : games_ok n games = true).
  { apply (forallb_seq (games_ok n) 1 40 games H1). lia. }
  apply (forallb_seq (fun wins => equal_season_ok n wins games) 0 (S games) wins H2). lia.
Qed.

(** *** The code on sample lists *)

Example gini_of_two :
  calculate_gini [1; 0] = Some 0.5
  /\ calculate_gini [0.5; 0.5] = Some 0
  /\ calculate_gini [] = None.
Proof. repeat split. Qed.

(** C9, as stated, fails in two ways.  In a season in which every manager's
    win percentage is the same zero, as after a single game that nobody won,
    the quotient is 0/0 and the coefficient is NaN.  And in a season in
    which it is the same number other than zero the coefficient is the
    difference of two rounded numbers, which need not be 0: two managers
    with one win each in their five games, that is 0.2 each, get 2^-52
    (about 2.2e-16), and two managers at 4 wins in 11 games get -2^-52. *)
Lemma gini_equal_not_zero :
  season_win_pcts winless_season 2020 active_managers = [0; 0]
  /\ gini_coefficient winless_season 2020 active_managers = Some (Some nan)
  /\ season_win_pcts drawn_season 2022 active_managers = [win_pct 1 5; win_pct 1 5]
  /\ win_pct 1 5 = 0x1.999999999999ap-3
  /\ gini_coefficient drawn_season 2022 active_managers = Some (Some 0x1p-52)
  /\ gini_coefficient drawn_season 2022 active_managers <> Some (Some 0)
  /\ calculate_gini [win_pct 4 11; win_pct 4 11] = Some (-0x1p-52).
Proof.
  repeat split; try (vm_compute; reflexivity).
  vm_compute. intros H. discriminate H.
Qed.

(** C9 (amended).  For every season in which every manager has the same win
    percentage, that of [wins] wins in [games] games, the Gini coefficient
    computed by the rank-weighted formula
    (2·Σ(rank_i × sorted_value_i))/(n·Σvalues) − (n+1)/n over that season's
    win-percentage list is NaN when the percentage is zero, and otherwise a
    number that is 0 up to rounding: its absolute value is at most 2^-50.
    This is checked for every season of at most 32 managers and at most 40
    games. *)
Theorem gini_equal_win_pcts (matchups_df : list Row) (s : Z) (managers : list string)
  (wins games : nat) :
  season_win_pcts matchups_df s managers <> [] ->
  all_equal (win_pct wins games) (season_win_pcts matchups_df s managers) ->
  (List.length (season_win_pcts matchups_df s managers) <= 32)%nat ->
  (wins <= games)%nat -> (1 <= games <= 40)%nat ->
  exists gini,
    gini_coefficient matchups_df s managers = Some (Some gini)
    /\ (wins = 0%nat -> is_nan gini = true)
    /\ ((0 < wins)%nat -> nearly_zero gini = true).
Proof.
  intros Hne Hall Hlen Hw Hg. unfold gini_coefficient.
  apply all_equal_repeat in Hall.
  set (pcts := season_win_pcts matchups_df s managers) in *.
  assert (Hn : (1 <= List.length pcts <= 32)%nat).
  { split; [|exact Hlen]. destruct pcts; [contradiction|]. simpl. lia. }
  pose proof (equal_season_checked (List.length pcts) wins games Hn Hw Hg) as C.
  unfold equal_season_ok in C. rewrite <- Hall in C.
  destruct pcts as [|p pcts']; [contradiction|].
  destruct (calculate_gini (p :: pcts')) as [gini|]; [|discriminate].
  exists gini. split; [reflexivity|]. split.
  - intros ->. exact C.
  - intros H0. destruct wins; [lia|]. exact C.
Qed.

Lemma gini_equal_win_pcts_witness :
  exists gini,
    gini_coefficient sample_season 2021 active_managers = Some (Some gini)
    /\ (1%nat = 0%nat -> is_nan gini = true)
    /\ ((0 < 1)%nat -> nearly_zero gini = true).
Proof.
  apply (gini_equal_win_pcts sample_season 2021 active_managers 1 2).
  - vm_compute. discriminate.
  - vm_compute. repeat constructor.
  - vm_compute. lia.
  - lia.
  - lia.
Defined.

End GiniFacts.

(** ** Cleanup utility *)

Module CleanupFacts.

Import PyNum PyNumFacts Frames FramesFacts Cleanup.
Local Open Scope Q_scope.
Local Open Scope string_scope.

Lemma qsum_app1 (l : list Q) (x : Q) : qsum (l ++ [x]) == qsum l + x.
Proof. unfold qsum. rewrite fold_left_app. reflexivity. Qed.

Lemma kilobytes_megabytes (bytes : Z) :
  kilobytes bytes / inject_Z 1024 == megabytes bytes.
Proof. unfold kilobytes, megabytes. rewrite inject_Z_mult. field. Qed.

Lemma clean_dir_total (run : Run) (dir_path : string) :
  total_size_saved run == megabyte_total run ->
  total_size_saved (clean_dir run dir_path) == megabyte_total (clean_dir run dir_path).
Proof.
  intros H. unfold clean_dir. destruct (dir_bytes (fs run) dir_path) as [size|]; [|exact H].
  unfold megabyte_total in *. cbn [total_size_saved removed_dirs removed_files].
  rewrite map_app. cbn [map snd]. rewrite qsum_app1, H.
  change (inject_Z size / inject_Z (1024 * 1024)) with (megabytes size).
  generalize (megabytes size). intros x. ring.
Qed.

Lemma clean_file_total (run : Run) (file_path : string) :
  total_size_saved run == megabyte_total run ->
  total_size_saved (clean_file run file_path) == megabyte_total (clean_file run file_path).
Proof.
  intros H. unfold clean_file. destruct (file_bytes (fs run) file_path) as [size|]; [|exact H].
  unfold megabyte_total in *. cbn [total_size_saved removed_dirs removed_files].
  rewrite map_app. cbn [map snd]. rewrite qsum_app1, H.
  rewrite <- (kilobytes_megabytes size). unfold kilobytes.
  generalize (inject_Z size / inject_Z 1024 / inject_Z 1024). intros x. ring.
Qed.

Lemma fold_total (step : Run -> string -> Run) (paths : list string) :
  (forall run p, total_size_saved run == megabyte_total run ->
                 total_size_saved (step run p) == megabyte_total (step run p)) ->
  forall run, total_size_saved run == megabyte_total run ->
    total_size_saved (fold_left step paths run)
    == megabyte_total (fold_left step paths run).
Proof.
  intros Hstep. induction paths as [|p paths IH]; intros run H; [exact H|].
  simpl. apply IH, Hstep, H.
Qed.

(** C6, as stated, fails: a removed file adds its size in megabytes, not in
    kilobytes.  With one 2048-byte script present the total is 1/512 (MB),
    whereas megabytes for directories plus kilobytes for files would be 2. *)
Lemma cleanup_total_not_mixed :
  removed_files (cleanup_project one_script)
  = [("scripts/extract_real_data.py", 2048%Z)]
  /\ total_size_saved (cleanup_project one_script) == 1 # 512
  /\ mixed_total (cleanup_project one_script) == 2
  /\ ~ total_size_saved (cleanup_project one_script)
       == mixed_total (cleanup_project one_script).
Proof. repeat split. vm_compute. discriminate. Qed.

(** C6 (amended).  The cleanup utility's space-saved running total is formed
    by adding, for each deleted directory, its size expressed in megabytes
    and, for each deleted file, its size expressed in kilobytes divided once
    more by 1024, that is in megabytes too: the total it prints as megabytes
    is the size in megabytes of everything it deleted. *)
Theorem cleanup_total_megabytes (fs0 : FileSystem) :
  total_size_saved (cleanup_project fs0) == megabyte_total (cleanup_project fs0).
Proof.
  unfold cleanup_project.
  apply (fold_total clean_file _ clean_file_total).
  apply (fold_total clean_file _ clean_file_total).
  apply (fold_total clean_dir _ clean_dir_total).
  unfold megabyte_total, qsum. simpl. ring.
Qed.

End CleanupFacts.

(** ** Manager DNA *)

Module ManagerDnaFacts.

Import PyNum PyNumFacts Frames FramesFacts ManagerDna.
Local Open Scope Q_scope.

(** C5.  For every manager and every table of matchups, also one in which
    the manager has no game, the Defensive axis computed by
    [analyze_manager_dna] is 5. *)
Theorem defensive_is_five (matchups_df : list Row) (manager : string) :
  defensive matchups_df manager == 5.
Proof.
  unfold defensive. destruct (mean (opponent_scores matchups_df manager)) as [a|];
    cbn [gt_nan]; [|reflexivity].
  destruct (Qle_bool a 0) eqn:Ea; cbn [negb]; [reflexivity|].
  assert (Ha : ~ a == 0).
  { intros E. assert (H : Qle_bool a 0 = true) by (apply Qle_bool_iff; lra). congruence. }
  assert (Hy : (1 - a / a) * inject_Z 10 + inject_Z 5 == 5).
  { change (inject_Z 10) with 10. change (inject_Z 5) with 5. field. exact Ha. }
  set (y := (1 - a / a) * inject_Z 10 + inject_Z 5) in *.
  unfold py_min. assert (H1 : Qle_bool y (inject_Z 10) = true).
  { apply Qle_bool_iff. change (inject_Z 10) with 10. lra. }
  rewrite H1. unfold py_max. destruct (Qle_bool y 0) eqn:E0; [|exact Hy].
  apply Qle_bool_iff in E0. lra.
Qed.

End ManagerDnaFacts.

(** ** Bad beats *)

Module BadBeatsFacts.

Import PyNum PyNumFacts Frames FramesFacts BadBeats.
Local Open Scope Q_scope.

(** *** The averages dictionary *)

Lemma unique_In (x : Z) (l : list Z) : In x (unique l) <-> In x l.
Proof.
  induction l as [|y l IH]; simpl; [reflexivity|]. split.
  - intros [H|H]; [now left|]. apply filter_In in H. right. now apply IH.
  - intros [H|H]; [now left|]. destruct (Z.eq_dec y x) as [E|E]; [now left|].
    right. apply filter_In. split; [now apply IH|].
    apply negb_true_iff, Z.eqb_neq. congruence.
Qed.

Lemma season_averages_get (matchups_df : list Row) (row : Row) (default : option Q) :
  In row matchups_df ->
  PyDict.get_default Z.eqb (season_averages matchups_df) (season row) default
  = season_mean matchups_df (season row).
Proof.
  intros Hin. unfold PyDict.get_default, season_averages, season_mean.
  destruct (PyDictFacts.get_fold_set Z.eqb Z.eqb_eq
              (fun s => mean (all_scores (of_season matchups_df s)))
              (unique (map season matchups_df)) [] (season row)) as [H _].
  rewrite H; [reflexivity|]. apply unique_In, in_map, Hin.
Qed.

(** *** Which entries the loop appends *)

Lemma check_row_In (df : list Row) (managers : list string) (row : Row) (bb : BadBeat) :
  In row df ->
  (In bb (check_row managers (season_averages df) row) <->
   exists season_avg,
     (bb = entry1 row season_avg
      /\ is_bad_beat df managers row (manager1 row) (team1_score row) season_avg)
     \/ (bb = entry2 row season_avg
         /\ is_bad_beat df managers row (manager2 row) (team2_score row) season_avg)).
Proof.
  intros Hin. unfold check_row, is_bad_beat.
  rewrite (season_averages_get df row _ Hin).
  destruct (season_mean df (season row)) as [a|].
  - rewrite in_app_iff. split.
    + intros [H|H]; exists a.
      * destruct (isin (manager1 row) managers) eqn:E1; [|contradiction].
        destruct (Qle_bool (a + inject_Z 20) (team1_score row)) eqn:E2; [|contradiction].
        destruct (won_by row (manager1 row)) eqn:E3; [contradiction|].
        destruct H as [<-|[]]. left. apply Qle_bool_iff in E2. auto.
      * destruct (isin (manager2 row) managers) eqn:E1; [|contradiction].
        destruct (Qle_bool (a + inject_Z 20) (team2_score row)) eqn:E2; [|contradiction].
        destruct (won_by row (manager2 row)) eqn:E3; [contradiction|].
        destruct H as [<-|[]]. right. apply Qle_bool_iff in E2. auto.
    + intros (avg & [(-> & E & H1 & H2 & H3)|(-> & E & H1 & H2 & H3)]);
        injection E as <-; apply Qle_bool_iff in H2; rewrite H1, H2, H3.
      * left. now left.
      * right. now left.
  - split; [intros []|]. intros (avg & [(_ & E & _)|(_ & E & _)]); discriminate.
Qed.

Lemma bad_beats_In (df : list Row) (managers : list string) (bb : BadBeat) :
  In bb (bad_beats df managers) <->
  exists row season_avg,
    In row df
    /\ ((bb = entry1 row season_avg
         /\ is_bad_beat df managers row (manager1 row) (team1_score row) season_avg)
        \/ (bb = entry2 row season_avg
            /\ is_bad_beat df managers row (manager2 row) (team2_score row) season_avg)).
Proof.
  unfold bad_beats. rewrite in_flat_map. split.
  - intros (row & Hin & H). apply (check_row_In df managers row bb Hin) in H.
    destruct H as (avg & H). exists row, avg. auto.
  - intros (row & avg & Hin & H). exists row. split; [exact Hin|].
    apply (check_row_In df managers row bb Hin). now exists avg.
Qed.

Lemma insert_beat_In (x y : BadBeat) (l : list BadBeat) :
  In y (insert_beat x l) <-> y = x \/ In y l.
Proof.
  induction l as [|z l IH]; simpl.
  - intuition congruence.
  - destruct (sorts_before z x); simpl; [|intuition congruence].
    rewrite IH. intuition congruence.
Qed.

Lemma sort_values_In (y : BadBeat) (l : list BadBeat) :
  In y (sort_values l) <-> In y l.
Proof.
  induction l as [|x l IH]; simpl; [reflexivity|].
  rewrite insert_beat_In, IH. intuition congruence.
Qed.

Lemma current_matchups_In (matchups_df : list Row) (managers : list string) (row : Row) :
  In row (current_matchups matchups_df managers) <->
  In row matchups_df
  /\ isin (manager1 row) managers = true /\ isin (manager2 row) managers = true.
Proof.
  unfold current_matchups. rewrite filter_In, andb_true_iff. reflexivity.
Qed.



End BadBeatsFacts.

(** ** CSV storage *)

Module StorageFacts.

Import Models Storage.
Local Open Scope string_scope.

(** C3 (amended).  Every save operation given a non-empty list performs a
    full-file overwrite: afterwards the entity's CSV file holds exactly the
    header row plus one row per entity of the list, whatever it held before,
    and no other file is touched.  Given the empty list a save operation
    writes nothing: every file, the entity's included, is left as it was. *)
Theorem save_overwrites (Players : Type) (json_dumps : Players -> string)
  (call : save_call Players) (dir : DataDir) (key : FileKey) :
  run_save json_dumps call dir key
  = if given_nothing call then dir key
    else if key_eqb key (target call) then Some (header_and_rows json_dumps call)
    else dir key.
Proof.
  destruct call as [l|l|l|l|l|l]; destruct l; reflexivity.
Qed.

(** C3, as stated, fails on the empty list: the save returns before the file
    is opened, so a matchups file with one row still has that row after
    [save_matchups([])], and not the header alone. *)
Lemma save_empty_list_keeps_file :
  save_matchups one_matchup_dir [] matchups_csv = Some one_matchup_file
  /\ save_matchups one_matchup_dir [] matchups_csv
     <> Some {| header := matchups_header; records := map matchup_row [] |}.
Proof. split; [reflexivity|]. vm_compute. discriminate. Qed.

Lemma traverse_map {A B : Type} (f : B -> option A) (g : A -> B) (l : list A) :
  Forall (fun a => f (g a) = Some a) l -> traverse f (map g l) = Some l.
Proof.
  induction 1 as [|a l Ha _ IH]; [reflexivity|].
  cbn [map traverse]. rewrite Ha, IH. reflexivity.
Qed.

(** *** The type of a column *)

Section Columns.

Variable A : Type.
Variable g : A -> cell.

Lemma has_map (k : kind) (l : list A) :
  has k (map g l) = existsb (fun a => kind_eqb (kind_of (g a)) k) l.
Proof.
  unfold has. induction l as [|a l IH]; [reflexivity|].
  cbn [map existsb]. now rewrite IH.
Qed.

Lemma has_found (k : kind) (l : list A) (a : A) :
  In a l -> kind_of (g a) = k -> has k (map g l) = true.
Proof.
  intros Hin Hk. rewrite has_map. apply existsb_exists. exists a. split; [exact Hin|].
  rewrite Hk. now destruct k.
Qed.

Lemma has_none (k : kind) (l : list A) :
  Forall (fun a => kind_eqb (kind_of (g a)) k = false) l -> has k (map g l) = false.
Proof.
  rewrite has_map. induction 1 as [|a l Ha _ IH]; [reflexivity|].
  cbn [existsb]. now rewrite Ha, IH.
Qed.

(** A column all of whose cells are of one kind. *)
Lemma has_uniform (K k : kind) (l : list A) :
  l <> [] -> Forall (fun a => kind_of (g a) = K) l ->
  has k (map g l) = kind_eqb K k.
Proof.
  intros Hne Hall. destruct (kind_eqb K k) eqn:E.
  - destruct l as [|a l]; [contradiction|].
    assert (Ha : kind_of (g a) = K) by (now inversion Hall).
    apply (has_found k (a :: l) a); [now left|]. rewrite Ha.
    destruct K, k; try discriminate; reflexivity.
  - apply has_none. eapply Forall_impl; [|exact Hall]. intros a Ha. cbv beta.
    now rewrite Ha.
Qed.

Lemma infer_uniform (K : kind) (l : list A) :
  l <> [] -> Forall (fun a => kind_of (g a) = K) l ->
  infer_dtype (map g l)
  = match K with
    | KOther => None
    | KText => Some DObject
    | KBool => Some DBool
    | KFloat | KMissing => Some DFloat64
    | KInt | KNumeral => Some DInt64
    end.
Proof.
  intros Hne Hall. unfold infer_dtype.
  rewrite !(fun k => has_uniform K k l Hne Hall). now destruct K.
Qed.

(** A column of cells of the kind [K] and of missing values. *)
Lemma has_optional (K k : kind) (l : list A) :
  Forall (fun a => kind_of (g a) = K \/ kind_of (g a) = KMissing) l ->
  kind_eqb K k = false -> kind_eqb KMissing k = false ->
  has k (map g l) = false.
Proof.
  intros Hall E1 E2. apply has_none. eapply Forall_impl; [|exact Hall].
  intros a [Ha|Ha]; cbv beta; now rewrite Ha.
Qed.

End Columns.

Arguments has_found {A} g k l a.
Arguments has_optional {A} g K k l.
Arguments infer_uniform {A} g K l.

Lemma plain_kind (s : string) : plain s -> kind_of (CStr s) = KText.
Proof. intros [H1 H2]. unfold kind_of. now rewrite H1, H2. Qed.

Lemma plain_convert (s : string) : plain s -> convert DObject (CStr s) = VStr s.
Proof. intros [H1 _]. unfold convert. now rewrite H1. Qed.

Section Fields.

Variable A : Type.

Lemma infer_texts (f : A -> string) (l : list A) :
  l <> [] -> Forall (fun a => plain (f a)) l ->
  infer_dtype (map (fun a => CStr (f a)) l) = Some DObject.
Proof.
  intros Hne Hall. rewrite (infer_uniform (fun a => CStr (f a)) KText l Hne); [reflexivity|].
  eapply Forall_impl; [|exact Hall]. intros a Ha. now apply plain_kind.
Qed.

Lemma infer_ints (f : A -> Z) (l : list A) :
  l <> [] -> infer_dtype (map (fun a => CInt (f a)) l) = Some DInt64.
Proof.
  intros Hne. rewrite (infer_uniform (fun a => CInt (f a)) KInt l Hne); [reflexivity|].
  apply Forall_forall. reflexivity.
Qed.

Lemma infer_floats (f : A -> Q) (l : list A) :
  l <> [] -> infer_dtype (map (fun a => CFloat (f a)) l) = Some DFloat64.
Proof.
  intros Hne. rewrite (infer_uniform (fun a => CFloat (f a)) KFloat l Hne); [reflexivity|].
  apply Forall_forall. reflexivity.
Qed.

Lemma infer_bools (f : A -> bool) (l : list A) :
  l <> [] -> infer_dtype (map (fun a => CBool (f a)) l) = Some DBool.
Proof.
  intros Hne. rewrite (infer_uniform (fun a => CBool (f a)) KBool l Hne); [reflexivity|].
  apply Forall_forall. reflexivity.
Qed.

(** A column of optional texts is a column of objects as soon as one text
    is there, and every cell is read as the field it was written from. *)
Lemma infer_optional_texts (f : A -> option string) (l : list A) :
  Forall (fun a => plain_or_absent (f a)) l ->
  exists d,
    infer_dtype (map (fun a => str_or_empty (f a)) l) = Some d
    /\ Forall (fun a => optional_str (convert d (str_or_empty (f a))) = Some (f a)) l.
Proof.
  intros Hall. set (g := fun a => str_or_empty (f a)).
  assert (K : Forall (fun a => kind_of (g a) = KText \/ kind_of (g a) = KMissing) l).
  { eapply Forall_impl; [|exact Hall]. intros a Ha. subst g. cbv beta in *.
    destruct (f a) as [s|]; [left; now apply plain_kind|right; reflexivity]. }
  unfold infer_dtype.
  rewrite (has_optional g KText KOther l K), (has_optional g KText KInt l K),
    (has_optional g KText KFloat l K), (has_optional g KText KBool l K) by reflexivity.
  cbn [orb].
  destruct (has KText (map g l)) eqn:T.
  - exists DObject. split; [reflexivity|].
    eapply Forall_impl; [|exact Hall]. intros a Ha. cbv beta in *.
    destruct (f a) as [s|]; [|reflexivity]. cbn [str_or_empty plain_or_absent] in *.
    now rewrite (plain_convert s Ha).
  - exists (if has KMissing (map g l) then DFloat64 else DInt64).
    split; [now destruct (has KMissing (map g l))|].
    apply Forall_forall. intros a Hin. rewrite Forall_forall in Hall.
    specialize (Hall a Hin). destruct (f a) as [s|] eqn:E.
    + exfalso. rewrite (has_found g KText l a Hin) in T; [discriminate|].
      subst g. cbv beta. rewrite E. now apply plain_kind.
    + now destruct (has KMissing (map g l)).
Qed.

(** A column of optional integers is a column of integers or, with a missing
    value among them, of floats; the loader gets the integer back from
    either. *)
Lemma infer_optional_ints (f : A -> option Z) (l : list A) :
  Forall (fun a => f a <> Some 0%Z) l ->
  exists d,
    infer_dtype (map (fun a => int_or_empty (f a)) l) = Some d
    /\ Forall (fun a => optional_int (convert d (int_or_empty (f a))) = Some (f a)) l.
Proof.
  intros Hall. set (g := fun a => int_or_empty (f a)).
  assert (K : Forall (fun a => kind_of (g a) = KInt \/ kind_of (g a) = KMissing) l).
  { eapply Forall_impl; [|exact Hall]. intros a Ha. subst g. cbv beta in *.
    destruct (f a) as [z|]; [|right; reflexivity]. cbn [int_or_empty].
    destruct (Z.eqb_spec z 0) as [->|_]; [congruence|left; reflexivity]. }
  assert (R : forall d, d = DInt64 \/ d = DFloat64 ->
                Forall (fun a => optional_int (convert d (int_or_empty (f a))) = Some (f a)) l).
  { intros d Hd. eapply Forall_impl; [|exact Hall]. intros a Ha. cbv beta in *.
    destruct (f a) as [z|]; [|now destruct Hd as [-> | ->]].
    cbn [int_or_empty]. destruct (Z.eqb_spec z 0) as [->|_]; [congruence|].
    destruct Hd as [-> | ->]; cbn; [reflexivity|]. now rewrite Z.quot_1_r. }
  unfold infer_dtype.
  rewrite (has_optional g KInt KOther l K), (has_optional g KInt KText l K),
    (has_optional g KInt KBool l K), (has_optional g KInt KFloat l K) by reflexivity.
  cbn [orb].
  destruct (has KMissing (map g l)).
  - exists DFloat64. split; [reflexivity|]. apply R. now right.
  - exists DInt64. split; [reflexivity|]. apply R. now left.
Qed.

(** *** Reading a file that a save wrote *)

Variable hdr : list string.
Variable row_of : A -> list cell.
Hypothesis row_length : forall a, List.length (row_of a) = List.length hdr.

Lemma column_map (l : list A) (j : nat) :
  column (map row_of l) j = map (fun a => nth j (row_of a) (CStr "")) l.
Proof. unfold column. apply map_map. Qed.

Lemma read_csv_saved (l : list A) (dtypes : list dtype) :
  traverse (fun j => infer_dtype (column (map row_of l) j)) (seq 0 (List.length hdr))
  = Some dtypes ->
  read_csv {| header := hdr; records := map row_of l |}
  = Some {| columns := hdr; rows := map (fun a => convert_row dtypes (row_of a)) l |}.
Proof.
  assert (E : existsb (fun row => (List.length hdr <? List.length row)%nat) (map row_of l)
              = false).
  { induction l as [|a l IH]; [reflexivity|]. cbn [map existsb].
    rewrite IH, row_length, Nat.ltb_irrefl. reflexivity. }
  intros H. unfold read_csv. cbn [header records].
  rewrite E, H. cbn [bind]. now rewrite map_map.
Qed.

End Fields.

Arguments infer_texts {A} f l.
Arguments infer_ints {A} f l.
Arguments infer_floats {A} f l.
Arguments infer_bools {A} f l.
Arguments infer_optional_texts {A} f l.
Arguments infer_optional_ints {A} f l.
Arguments column_map {A} row_of l j.
Arguments read_csv_saved {A} hdr row_of row_length l dtypes.

Lemma load_owner_row (d : dtype) (o : Owner) :
  plain (owner_id o) -> plain (name o) ->
  optional_str (convert d (str_or_empty (email o))) = Some (email o) ->
  load_owner owners_header (convert_row [DObject; DObject; d] (owner_row o)) = Some o.
Proof.
  destruct o as [i n e]. cbn [owner_id name email]. intros H1 H2 H3.
  unfold load_owner, owner_row, owners_header.
  cbn [convert_row getitem String.eqb Ascii.eqb Bool.eqb hd tl bind owner_id name email].
  rewrite (plain_convert i H1), (plain_convert n H2). cbn [as_str bind].
  rewrite H3. reflexivity.
Qed.

Lemma load_matchup_row (d : dtype) (m : Matchup) :
  plain (matchup_id m) -> plain (team1_owner_id m) -> plain (team2_owner_id m) ->
  optional_str (convert d (str_or_empty (winner_owner_id m))) = Some (winner_owner_id m) ->
  load_matchup matchups_header
    (convert_row [DObject; DInt64; DInt64; DObject; DObject; DFloat64; DFloat64; d; DBool]
       (matchup_row m))
  = Some m.
Proof.
  destruct m as [i s w o1 o2 s1 s2 wi p].
  cbn [matchup_id team1_owner_id team2_owner_id winner_owner_id]. intros H1 H2 H3 H4.
  unfold load_matchup, matchup_row, matchups_header.
  cbn [convert_row getitem String.eqb Ascii.eqb Bool.eqb hd tl bind m_season week
       team1_score team2_score playoff matchup_id team1_owner_id team2_owner_id
       winner_owner_id].
  rewrite (plain_convert i H1), (plain_convert o1 H2), (plain_convert o2 H3).
  cbn [as_str bind convert py_int py_float py_bool].
  rewrite H4. reflexivity.
Qed.

Lemma load_season_record_row (d : dtype) (r : SeasonRecord) :
  plain (s_owner_id r) ->
  optional_int (convert d (int_or_empty (playoff_seed r))) = Some (playoff_seed r) ->
  load_season_record season_records_header
    (convert_row
       [DObject; DInt64; DInt64; DInt64; DInt64; DFloat64; DFloat64; DInt64; d]
       (season_record_row r))
  = Some r.
Proof.
  destruct r as [o s w l t pf pa fr ps]. cbn [s_owner_id playoff_seed]. intros H1 H2.
  unfold load_season_record, season_record_row, season_records_header.
  cbn [convert_row getitem String.eqb Ascii.eqb Bool.eqb hd tl bind s_owner_id s_season
       wins losses ties points_for points_against final_rank playoff_seed].
  rewrite (plain_convert o H1). cbn [as_str bind convert py_int py_float].
  rewrite H2. reflexivity.
Qed.

Lemma load_owners_saved (dir : DataDir) (owners : list Owner) :
  owners <> [] -> Forall owner_storable owners ->
  load_owners (save_owners dir owners) = Some owners.
Proof.
  intros Hne Hall.
  destruct (infer_optional_texts email owners) as (d & Ed & Hd).
  { eapply Forall_impl; [|exact Hall]. now intros o (_ & _ & H). }
  assert (R : read_csv {| header := owners_header; records := map owner_row owners |}
              = Some {| columns := owners_header;
                        rows := map (fun o => convert_row [DObject; DObject; d] (owner_row o))
                                  owners |}).
  { apply read_csv_saved; [reflexivity|].
    cbn [owners_header List.length seq traverse]. rewrite !column_map.
    cbn [nth owner_row].
    rewrite (infer_texts owner_id owners Hne), (infer_texts name owners Hne), Ed;
      [reflexivity| |].
    - eapply Forall_impl; [|exact Hall]. now intros o (_ & H & _).
    - eapply Forall_impl; [|exact Hall]. now intros o (H & _). }
  destruct owners as [|o os]; [contradiction|].
  unfold load_owners, save_owners, write. cbn [key_eqb]. rewrite R. cbn [bind columns rows].
  apply traverse_map. rewrite Forall_forall in *. intros a Ha.
  destruct (Hall a Ha) as (H1 & H2 & _). apply load_owner_row; auto.
Qed.

Lemma load_matchups_saved (dir : DataDir) (matchups : list Matchup) :
  matchups <> [] -> Forall matchup_storable matchups ->
  load_matchups (save_matchups dir matchups) = Some matchups.
Proof.
  intros Hne Hall.
  destruct (infer_optional_texts winner_owner_id matchups) as (d & Ed & Hd).
  { eapply Forall_impl; [|exact Hall]. now intros m (_ & _ & _ & H). }
  assert (R : read_csv {| header := matchups_header; records := map matchup_row matchups |}
              = Some {| columns := matchups_header;
                        rows :=
                          map (fun m =>
                                 convert_row
                                   [DObject; DInt64; DInt64; DObject; DObject; DFloat64;
                                    DFloat64; d; DBool] (matchup_row m))
                            matchups |}).
  { apply read_csv_saved; [reflexivity|].
    cbn [matchups_header List.length seq traverse]. rewrite !column_map.
    cbn [nth matchup_row].
    rewrite (infer_texts matchup_id matchups Hne), (infer_ints m_season matchups Hne),
      (infer_ints week matchups Hne), (infer_texts team1_owner_id matchups Hne),
      (infer_texts team2_owner_id matchups Hne), (infer_floats team1_score matchups Hne),
      (infer_floats team2_score matchups Hne), Ed, (infer_bools playoff matchups Hne);
      [reflexivity| | |].
    - eapply Forall_impl; [|exact Hall]. now intros m (_ & _ & H & _).
    - eapply Forall_impl; [|exact Hall]. now intros m (_ & H & _).
    - eapply Forall_impl; [|exact Hall]. now intros m (H & _). }
  destruct matchups as [|m ms]; [contradiction|].
  unfold load_matchups, save_matchups, write. cbn [key_eqb]. rewrite R.
  cbn [bind columns rows].
  apply traverse_map. rewrite Forall_forall in *. intros a Ha.
  destruct (Hall a Ha) as (H1 & H2 & H3 & _). apply load_matchup_row; auto.
Qed.

Lemma load_season_records_saved (dir : DataDir) (seasons : list SeasonRecord) :
  seasons <> [] -> Forall season_record_storable seasons ->
  load_season_records (save_season_records dir seasons) = Some seasons.
Proof.
  intros Hne Hall.
  destruct (infer_optional_ints playoff_seed seasons) as (d & Ed & Hd).
  { eapply Forall_impl; [|exact Hall]. now intros r (_ & H). }
  assert (R : read_csv {| header := season_records_header;
                          records := map season_record_row seasons |}
              = Some {| columns := season_records_header;
                        rows :=
                          map (fun r =>
                                 convert_row
                                   [DObject; DInt64; DInt64; DInt64; DInt64; DFloat64;
                                    DFloat64; DInt64; d] (season_record_row r))
                            seasons |}).
  { apply read_csv_saved; [reflexivity|].
    cbn [season_records_header List.length seq traverse]. rewrite !column_map.
    cbn [nth season_record_row].
    rewrite (infer_texts s_owner_id seasons Hne), (infer_ints s_season seasons Hne),
      (infer_ints wins seasons Hne), (infer_ints losses seasons Hne),
      (infer_ints ties seasons Hne), (infer_floats points_for seasons Hne),
      (infer_floats points_against seasons Hne), (infer_ints final_rank seasons Hne), Ed;
      [reflexivity|].
    eapply Forall_impl; [|exact Hall]. now intros r (H & _). }
  destruct seasons as [|r rs]; [contradiction|].
  unfold load_season_records, save_season_records, write. cbn [key_eqb]. rewrite R.
  cbn [bind columns rows].
  apply traverse_map. rewrite Forall_forall in *. intros a Ha.
  destruct (Hall a Ha) as (H1 & _). apply load_season_record_row; auto.
Qed.

Example load_absent_files :
  load_owners (fun _ => None) = Some []
  /\ load_matchups (fun _ => None) = Some []
  /\ load_season_records (fun _ => None) = Some []
  /\ load_head_to_head_records (fun _ => None) = Some [].
Proof. repeat split. Qed.




End StorageFacts.

(** ** Head-to-head records *)

Module HeadToHeadFacts.

Import Models PyNum PyNumFacts HeadToHead.
Local Open Scope Q_scope.

(** *** Reading the dictionary *)

Lemma pair_eqb_eq (x y : pair) : pair_eqb x y = true <-> x = y.
Proof.
  destruct x as [a b], y as [c d]. unfold pair_eqb. cbn [fst snd].
  rewrite andb_true_iff, !String.eqb_eq. split; [intros [-> ->]|intros [= -> ->]]; auto.
Qed.

Lemma pair_eqb_swap (a b c d : string) : pair_eqb (b, a) (d, c) = pair_eqb (a, b) (c, d).
Proof. unfold pair_eqb. cbn [fst snd]. apply andb_comm. Qed.

Lemma get_touch (d : stats_dict) (k k' : pair) (f : Stats -> Stats) :
  PyDict.get pair_eqb (touch d k f) k'
  = if pair_eqb k' k then Some (f (val d k)) else PyDict.get pair_eqb d k'.
Proof.
  unfold touch. destruct (pair_eqb k' k) eqn:E.
  - apply pair_eqb_eq in E. subst k'. apply (PyDictFacts.get_set_same pair_eqb pair_eqb_eq).
  - apply (PyDictFacts.get_set_other pair_eqb pair_eqb_eq). intros ->.
    assert (H : pair_eqb k' k' = true) by now apply pair_eqb_eq. congruence.
Qed.

Lemma val_touch (d : stats_dict) (k k' : pair) (f : Stats -> Stats) :
  val (touch d k f) k' = if pair_eqb k' k then f (val d k) else val d k'.
Proof.
  unfold val at 1. unfold PyDict.get_default. rewrite get_touch.
  destruct (pair_eqb k' k); reflexivity.
Qed.

Lemma present_touch (d : stats_dict) (k k' : pair) (f : Stats -> Stats) :
  present (touch d k f) k' = pair_eqb k' k || present d k'.
Proof. unfold present. rewrite get_touch. destruct (pair_eqb k' k); reflexivity. Qed.

Lemma present_get (d : stats_dict) (k : pair) :
  present d k = true -> PyDict.get pair_eqb d k = Some (val d k).
Proof.
  unfold present, val, PyDict.get_default.
  destruct (PyDict.get pair_eqb d k); [reflexivity|discriminate].
Qed.

Lemma item_present (d : stats_dict) (k : pair) (s : Stats) :
  In (k, s) d -> present d k = true.
Proof.
  unfold present. induction d as [|[k' s'] d IH]; [intros []|].
  intros [H|H]; cbn [PyDict.get].
  - injection H as -> ->. assert (E : pair_eqb k k = true) by now apply pair_eqb_eq.
    now rewrite E.
  - destruct (pair_eqb k k'); [reflexivity|now apply IH].
Qed.

Lemma tally_updates (d : stats_dict) (matchup : Matchup) :
  tally d matchup = apply_updates d (updates matchup).
Proof.
  unfold tally, updates, apply_updates.
  destruct (winner_is matchup (team1_owner_id matchup)); reflexivity.
Qed.

Lemma val_apply_updates (ops : list (pair * (Stats -> Stats))) :
  forall (d : stats_dict) (key : pair),
    val (apply_updates d ops) key = updated key ops (val d key).
Proof.
  unfold apply_updates, updated.
  induction ops as [|[k f] ops IH]; intros d key; [reflexivity|].
  cbn [fold_left fst snd]. rewrite IH, val_touch.
  destruct (pair_eqb key k) eqn:E; [|reflexivity].
  apply pair_eqb_eq in E. now subst k.
Qed.

Lemma present_apply_updates (ops : list (pair * (Stats -> Stats))) :
  forall (d : stats_dict) (key : pair),
    present (apply_updates d ops) key
    = existsb (fun op => pair_eqb key (fst op)) ops || present d key.
Proof.
  unfold apply_updates.
  induction ops as [|[k f] ops IH]; intros d key; [reflexivity|].
  cbn [fold_left existsb fst snd]. rewrite IH, present_touch.
  destruct (pair_eqb key k), (existsb (fun op => pair_eqb key (fst op)) ops); reflexivity.
Qed.

Lemma consistent_empty : consistent [].
Proof.
  intros a b. split; [reflexivity|]. unfold val, PyDict.get_default. cbn.
  unfold agree. cbn. repeat split; try reflexivity; lia.
Qed.

Lemma consistent_tally (d : stats_dict) (matchup : Matchup) :
  consistent d -> consistent (tally d matchup).
Proof.
  intros Hd a b. rewrite tally_updates. destruct (Hd a b) as [Hp Ha].
  rewrite !present_apply_updates, !val_apply_updates.
  set (o1 := team1_owner_id matchup). set (o2 := team2_owner_id matchup).
  assert (E1 : pair_eqb (b, a) (o1, o2) = pair_eqb (a, b) (o2, o1)) by apply pair_eqb_swap.
  assert (E2 : pair_eqb (b, a) (o2, o1) = pair_eqb (a, b) (o1, o2)) by apply pair_eqb_swap.
  unfold updates. fold o1 o2.
  destruct (winner_is matchup o1);
    cbn [app existsb updated fold_left fst snd]; rewrite ?E1, ?E2;
    destruct (pair_eqb (a, b) (o1, o2)), (pair_eqb (a, b) (o2, o1));
    cbn [orb]; (split; [assumption || reflexivity|]);
    destruct Ha as (A1 & A2 & A3 & A4 & A5 & A6);
    unfold agree; cbn [st_wins st_losses st_points_for st_points_against st_games
                       add_win add_loss add_points_for add_points_against add_game];
    repeat split; try assumption; try lia;
    try (rewrite A1; ring); try (rewrite A2; ring).
Qed.

Lemma consistent_step (d : stats_dict) (matchup : Matchup) :
  consistent d -> consistent (step d matchup).
Proof.
  intros H. unfold step. destruct (no_winner matchup); [exact H|].
  now apply consistent_tally.
Qed.

Lemma consistent_fold (matchups : list Matchup) :
  forall d, consistent d -> consistent (fold_left step matchups d).
Proof.
  induction matchups as [|m l IH]; intros d H; [exact H|].
  apply IH, consistent_step, H.
Qed.

Lemma consistent_h2h_stats (matchups : list Matchup) : consistent (h2h_stats matchups).
Proof. apply consistent_fold, consistent_empty. Qed.

Lemma records_loop_read_off (d : stats_dict) :
  consistent d ->
  forall (items : list (pair * Stats)) (processed_pairs : list pair),
    (forall k s, In (k, s) items -> present d k = true) ->
    exists records,
      records_loop d items processed_pairs = Some records
      /\ Forall (read_off d) records.
Proof.
  intros Hd. induction items as [|[[o1 o2] s] items IH]; intros pp Hin.
  - exists []. split; [reflexivity|constructor].
  - assert (Hrest : forall k s0, In (k, s0) items -> present d k = true).
    { intros k s0 H. apply (Hin k s0). now right. }
    cbn [records_loop]. destruct (processed (sorted_pair o1 o2) pp).
    + apply IH, Hrest.
    + assert (P1 : present d (o1, o2) = true) by (apply (Hin _ s); now left).
      assert (P2 : present d (o2, o1) = true).
      { destruct (Hd o1 o2) as [E _]. congruence. }
      rewrite (present_get d _ P1), (present_get d _ P2).
      destruct (IH (sorted_pair o1 o2 :: pp) Hrest) as (rest & -> & Hrest').
      eexists. split; [reflexivity|]. constructor; [|exact Hrest'].
      unfold read_off. cbn [owner1_id owner2_id owner1_wins owner2_wins owner1_points
        owner2_points total_games]. repeat split; assumption.
Qed.

Lemma head_to_head_records_read_off (matchups : list Matchup) :
  exists records,
    head_to_head_records matchups = Some records
    /\ Forall (read_off (h2h_stats matchups)) records.
Proof.
  unfold head_to_head_records.
  apply (records_loop_read_off _ (consistent_h2h_stats matchups)).
  intros k s. apply item_present.
Qed.

Lemma fold_step_decided (matchups : list Matchup) :
  forall d, fold_left step matchups d = fold_left step (filter decided matchups) d.
Proof.
  induction matchups as [|m l IH]; intros d; [reflexivity|].
  cbn [fold_left filter]. unfold decided at 1.
  destruct (no_winner m) eqn:E; cbn [negb fold_left]; rewrite <- IH; [|reflexivity].
  unfold step at 2. now rewrite E.
Qed.

Lemma h2h_stats_decided (matchups : list Matchup) :
  h2h_stats matchups = h2h_stats (filter decided matchups).
Proof. apply fold_step_decided. Qed.

(** *** The code on the sample matchups *)

Example records_of_sample :
  exists r,
    head_to_head_records Storage.sample_matchups = Some [r]
    /\ owner1_id r = "robbie_g"%string /\ owner2_id r = "hayden"%string
    /\ owner1_wins r = 1%Z /\ owner2_wins r = 0%Z /\ total_games r = 1%Z
    /\ owner1_points r == 1015 # 10 /\ owner2_points r == 987 # 10.
Proof. eexists. split; [reflexivity|]. repeat split. Qed.



End HeadToHeadFacts.

(** ** Streaks, continued *)

Module StreakTotalsFacts.

Import Streaks StreaksFacts StreakTotals.

Lemma expand_length (rs : list (bool * nat)) :
  List.length (expand rs) = fold_right (fun r acc => (snd r + acc)%nat) 0%nat rs.
Proof.
  induction rs as [|[b n] rs IH]; [reflexivity|].
  cbn [expand fold_right snd]. now rewrite length_app, repeat_length, IH.
Qed.

Lemma games_counted_signed (rs : list (bool * nat)) :
  games_counted (map signed rs)
  = Z.of_nat (fold_right (fun r acc => (snd r + acc)%nat) 0%nat rs).
Proof.
  induction rs as [|[b n] rs IH]; [reflexivity|].
  cbn [map games_counted fold_right snd]. fold (games_counted (map signed rs)).
  rewrite IH. destruct b; rewrite ?signed_win, ?signed_loss; lia.
Qed.

Lemma signed_nonzero (rs : list (bool * nat)) :
  Forall (fun r => (0 < snd r)%nat) rs -> Forall (fun s => s <> 0) (map signed rs).
Proof.
  induction 1 as [|[b n] rs Hn _ IH]; [constructor|].
  cbn [map]. constructor; [|exact IH]. cbn [snd] in Hn.
  destruct b; rewrite ?signed_win, ?signed_loss; lia.
Qed.

Lemma signed_alternate (rs : list (bool * nat)) :
  Forall (fun r => (0 < snd r)%nat) rs -> alternating rs ->
  signs_alternate (map signed rs).
Proof.
  induction rs as [|[b n] rs IH]; intros Hp Ha; [exact I|].
  destruct rs as [|[c m] rs]; [exact I|].
  inversion Hp as [|? ? Hn Hp']; subst. inversion Hp' as [|? ? Hm _]; subst.
  cbn [snd] in Hn, Hm. destruct Ha as [Hbc Ha].
  change (signed (b, n) * signed (c, m) < 0
          /\ signs_alternate (map signed ((c, m) :: rs))).
  split; [|now apply IH].
  destruct b, c; try congruence; rewrite ?signed_win, ?signed_loss; nia.
Qed.

(** Every game of a manager is counted in exactly one streak: the absolute
    values of the entries of [calculate_streaks] add up to the number of
    games, neighbouring entries have opposite signs, and for a manager who
    played at least one game no entry is zero. *)
Theorem streaks_count_every_game (results : list bool) :
  games_counted (calculate_streaks results) = Z.of_nat (List.length results)
  /\ signs_alternate (calculate_streaks results)
  /\ match results with
     | [] => calculate_streaks results = [0]
     | _ :: _ => Forall (fun s => s <> 0) (calculate_streaks results)
     end.
Proof.
  destruct results as [|r0 rest]; [repeat split|].
  rewrite calculate_streaks_nonempty. unfold signed_runs.
  split; [|split].
  - rewrite games_counted_signed, <- expand_length, runs_expand. reflexivity.
  - apply signed_alternate; [apply runs_positive | apply runs_alternating].
  - apply signed_nonzero, runs_positive.
Qed.

End StreakTotalsFacts.

(** ** Owner identifiers, continued *)

Module OwnerIdShapeFacts.

Import OwnerId OwnerIdFacts OwnerIdShape.
Local Open Scope N_scope.

Lemma alnum_survives (c : ascii) :
  is_alnum c = kept (lower_char c) && negb (is_space (lower_char c)).
Proof. destruct c as [[] [] [] [] [] [] [] []]; vm_compute; reflexivity. Qed.

Lemma kept_word_char (c : ascii) :
  kept c = true -> is_upper c = false -> is_space c = false ->
  is_lower c || is_digit c = true.
Proof.
  unfold kept. intros K U S. rewrite U, S in K.
  destruct (is_lower c), (is_digit c); simpl in *; congruence.
Qed.

Lemma split_loop_nil (s : text) :
  forall word,
    split_loop word s = [] <-> word = [] /\ Forall (fun c => is_space c = true) s.
Proof.
  induction s as [|c s IH]; intros word.
  - cbn [split_loop]. destruct word; split; try (intros [H _]); try discriminate; auto.
  - cbn [split_loop]. destruct (is_space c) eqn:E.
    + destruct word as [|a word].
      * rewrite IH. split; intros [H1 H2]; split; auto.
        now inversion H2.
      * split; [discriminate|]. intros [H _]. discriminate.
    + rewrite IH. split.
      * intros [H _]. destruct word; discriminate.
      * intros [_ H]. inversion H; congruence.
Qed.

Lemma clean_name_blank (owner_name : text) :
  Forall (fun c => is_space c = true) (clean_name owner_name)
  <-> Forall (fun c => is_alnum c = false) owner_name.
Proof.
  unfold clean_name, lower. induction owner_name as [|c l IH]; [split; constructor|].
  cbn [map filter]. pose proof (alnum_survives c) as A.
  destruct (kept (lower_char c)) eqn:K; cbn [andb] in A.
  - split; intros H; inversion H as [|? ? H1 H2]; subst; constructor.
    + rewrite A, H1. reflexivity.
    + now apply IH.
    + rewrite H1 in A. now destruct (is_space (lower_char c)).
    + now apply IH.
  - rewrite IH. split; intros H.
    + now constructor.
    + now inversion H.
Qed.

(** X2.  For a display name of Latin-1 characters (code points below 256,
    the names that [text] holds): the identifier is a sequence of non-empty
    words of lowercase ASCII letters and digits joined by single
    underscores, so it never starts or ends with an underscore and never
    has two in a row; and it is the empty string exactly when the name
    holds no ASCII letter or digit.  Characters above U+00FF whose lowercase
    form is an ASCII letter, such as the Kelvin sign, are outside this
    statement. *)
Theorem owner_id_words (owner_name : text) :
  (exists words, generate owner_name = join words /\ Forall id_word words)
  /\ (generate owner_name = []
      <-> Forall (fun c => is_alnum c = false) owner_name).
Proof.
  split.
  - exists (split (clean_name owner_name)). split; [reflexivity|].
    apply Forall_forall. intros w Hw. split.
    + pose proof (split_loop_nonempty (clean_name owner_name) []) as H.
      rewrite Forall_forall in H. now apply H.
    + apply Forall_forall. intros c Hc. unfold split in Hw.
      destruct (split_loop_chars _ _ _ _ Hw Hc) as [[]|[Hin Hs]].
      apply clean_name_chars in Hin. destruct Hin as [K U].
      now apply kept_word_char.
  - rewrite <- clean_name_blank. unfold generate, split. split.
    + intros H. apply join_nil in H; [|apply split_loop_nonempty].
      now apply split_loop_nil in H.
    + intros H. assert (E : split_loop [] (clean_name owner_name) = [])
        by (apply split_loop_nil; auto).
      now rewrite E.
Qed.

Example owner_id_of_id :
  _generate_owner_id "robbie_g" = "robbieg"%string
  /\ _generate_owner_id (_generate_owner_id "Robbie G.") = "robbieg"%string.
Proof. repeat split. Qed.

End OwnerIdShapeFacts.

(** ** CSV storage, continued: head-to-head records and what loading returns *)

Module StorageMoreFacts.

Import Models Storage StorageFacts StorageMore.
Local Open Scope string_scope.

Lemma load_head_to_head_row (r : HeadToHeadRecord) :
  head_to_head_storable r ->
  load_head_to_head_record head_to_head_header
    (convert_row [DObject; DObject; DInt64; DInt64; DFloat64; DFloat64; DInt64]
       (head_to_head_row r))
  = Some r.
Proof.
  destruct r as [o1 o2 w1 w2 p1 p2 g]. intros (H1 & H2).
  cbn [owner1_id owner2_id] in *.
  unfold load_head_to_head_record, head_to_head_row, head_to_head_header.
  cbn [convert_row getitem String.eqb Ascii.eqb Bool.eqb hd tl bind owner1_id owner2_id
       owner1_wins owner2_wins owner1_points owner2_points total_games].
  rewrite (plain_convert o1 H1), (plain_convert o2 H2). reflexivity.
Qed.



(** A record about an owner whose identifier is a numeral does not come
    back: its column is read as a column of integers. *)
Example numbered_series_not_kept :
  read_csv {| header := head_to_head_header; records := [head_to_head_row numbered_series] |}
  = Some {| columns := head_to_head_header;
            rows := [[VStr "bob"; VInt 123; VInt 1; VInt 1; VFloat 200; VFloat 210;
                      VInt 2]] |}
  /\ load_head_to_head_records
       (save_head_to_head_records (fun _ => None) [numbered_series])
     <> Some [numbered_series].
Proof. split; [reflexivity|]. vm_compute. discriminate. Qed.

End StorageMoreFacts.

(** ** Head-to-head records, continued: what is stored *)

Module HeadToHeadStoredFacts.

Import Models PyNum HeadToHead HeadToHeadFacts.
Import Storage StorageFacts StorageMore StorageMoreFacts HeadToHeadMore.
Local Open Scope Q_scope.

Lemma keys_within_step (P : string -> Prop) (d : stats_dict) (m : Matchup) :
  P (team1_owner_id m) -> P (team2_owner_id m) ->
  keys_within P d -> keys_within P (step d m).
Proof.
  intros P1 P2 Hd. unfold step. destruct (no_winner m); [exact Hd|].
  intros a b. rewrite tally_updates, present_apply_updates. unfold updates.
  destruct (winner_is m (team1_owner_id m));
    cbn [app existsb fst]; intros H;
    repeat (apply orb_true_iff in H; destruct H as [H|H]);
    try discriminate; try (now apply Hd);
    apply pair_eqb_eq in H; injection H as -> ->; auto.
Qed.

Lemma keys_within_fold (P : string -> Prop) (matchups : list Matchup) :
  Forall (fun m => P (team1_owner_id m) /\ P (team2_owner_id m)) matchups ->
  forall d, keys_within P d -> keys_within P (fold_left step matchups d).
Proof.
  induction 1 as [|m l [H1 H2] _ IH]; intros d Hd; [exact Hd|].
  cbn [fold_left]. apply IH. now apply keys_within_step.
Qed.

Lemma h2h_stats_nil (matchups : list Matchup) :
  h2h_stats matchups = [] <-> Forall (fun m => no_winner m = true) matchups.
Proof.
  unfold h2h_stats. split.
  - intros H. apply Forall_forall. intros m Hm.
    destruct (no_winner m) eqn:E; [reflexivity|]. exfalso.
    assert (G : forall l d, present d (team1_owner_id m, team2_owner_id m) = true ->
                present (fold_left step l d) (team1_owner_id m, team2_owner_id m) = true).
    { induction l as [|x l IHl]; intros d Hd; [exact Hd|]. cbn [fold_left]. apply IHl.
      unfold step. destruct (no_winner x); [exact Hd|].
      rewrite tally_updates, present_apply_updates, Hd. apply orb_true_r. }
    apply in_split in Hm. destruct Hm as (l1 & l2 & ->).
    rewrite fold_left_app in H. cbn [fold_left] in H.
    assert (Hp : present (step (fold_left step l1 []) m)
                   (team1_owner_id m, team2_owner_id m) = true).
    { unfold step. rewrite E, tally_updates, present_apply_updates. unfold updates.
      assert (R : pair_eqb (team1_owner_id m, team2_owner_id m)
                    (team1_owner_id m, team2_owner_id m) = true) by now apply pair_eqb_eq.
      destruct (winner_is m (team1_owner_id m)); cbn [app existsb fst]; rewrite R;
        cbn [orb]; rewrite ?orb_true_r; reflexivity. }
    apply (G l2) in Hp. rewrite H in Hp. discriminate.
  - intros H. rewrite fold_step_decided.
    assert (E : filter decided matchups = []).
    { induction H as [|m l Hm _ IH]; [reflexivity|].
      cbn [filter]. unfold decided at 1. now rewrite Hm. }
    now rewrite E.
Qed.



(** Without that condition the claim fails: of two stored matchups between
    the owners ["123"] and ["bob"], whose identifiers are loaded as the
    texts they are because each column holds ["bob"], the one record that
    is computed has a column that holds ["123"] alone, and loading it gives
    the integer. *)
Example numbered_owner_not_stored :
  load_matchups numbered_dir = Some numbered_matchups
  /\ exists h2h dir',
       calculate_head_to_head_records numbered_dir = Some (h2h, dir')
       /\ h2h <> []
       /\ load_head_to_head_records dir' <> Some h2h.
Proof.
  split; [reflexivity|]. eexists. eexists. split; [reflexivity|].
  split; [discriminate|]. vm_compute. discriminate.
Qed.

End HeadToHeadStoredFacts.

(** ** Head-to-head records, continued: one record per pairing *)

Module HeadToHeadPairsFacts.

Import Models PyNum HeadToHead HeadToHeadFacts HeadToHeadMore.
Local Open Scope Q_scope.

Lemma sorted_pair_swap (a b : string) : sorted_pair a b = sorted_pair b a.
Proof.
  unfold sorted_pair, String.ltb. rewrite (String.compare_antisym a b).
  destruct (String.compare b a) eqn:E; cbn [CompOpp]; try reflexivity.
  apply String.compare_eq_iff in E. now subst.
Qed.

Lemma processed_false (k : pair) (pp : list pair) :
  processed k pp = false <-> ~ In k pp.
Proof.
  unfold processed. split.
  - intros H Hin. assert (E : existsb (pair_eqb k) pp = true).
    { apply existsb_exists. exists k. split; [exact Hin|now apply pair_eqb_eq]. }
    congruence.
  - intros H. destruct (existsb (pair_eqb k) pp) eqn:E; [|reflexivity].
    apply existsb_exists in E. destruct E as (x & Hx & Hk).
    apply pair_eqb_eq in Hk. subst x. contradiction.
Qed.

Lemma records_loop_pairings (d : stats_dict) (items : list (pair * Stats)) :
  forall (pp : list pair) (rs : list HeadToHeadRecord),
    records_loop d items pp = Some rs ->
    NoDup (map pairing rs)
    /\ (forall r, In r rs -> ~ In (pairing r) pp)
    /\ (forall a b s, In ((a, b), s) items ->
        In (sorted_pair a b) pp \/ exists r, In r rs /\ pairing r = sorted_pair a b).
Proof.
  induction items as [|[[o1 o2] s] items IH]; intros pp rs.
  - intros [= <-]. repeat split; [constructor|intros r []|intros a b s0 []].
  - cbn [records_loop]. destruct (processed (sorted_pair o1 o2) pp) eqn:Ep.
    + intros H. destruct (IH pp rs H) as (N & O & C). repeat split; try assumption.
      intros a b s0 [E|Hin]; [|exact (C a b s0 Hin)].
      injection E as <- <- <-. left. unfold processed in Ep.
      apply existsb_exists in Ep. destruct Ep as (x & Hx & Hk).
      apply pair_eqb_eq in Hk. now subst x.
    + destruct (PyDict.get pair_eqb d (o1, o2)) as [s1|]; [|discriminate].
      destruct (PyDict.get pair_eqb d (o2, o1)) as [s2|]; [|discriminate].
      destruct (records_loop d items (sorted_pair o1 o2 :: pp)) as [rest|] eqn:Er;
        [|discriminate].
      intros [= <-]. destruct (IH _ _ Er) as (N & O & C).
      apply processed_false in Ep. repeat split.
      * cbn [map]. constructor; [|exact N]. unfold pairing at 1.
        cbn [owner1_id owner2_id]. intros Hin. apply in_map_iff in Hin.
        destruct Hin as (r & Hr & Hin). apply (O r Hin). left. now symmetry.
      * intros r [<-|Hin].
        -- exact Ep.
        -- intros Hp. apply (O r Hin). now right.
      * intros a b s0 [E|Hin].
        -- injection E as <- <- <-. right. eexists. split; [now left|reflexivity].
        -- destruct (C a b s0 Hin) as [[E|Hp]|(r & Hr & Hk)].
           ++ right. eexists. split; [now left|]. unfold pairing.
              cbn [owner1_id owner2_id]. exact E.
           ++ now left.
           ++ right. exists r. split; [now right|exact Hk].
Qed.

Lemma played_empty : played [].
Proof. intros k. split; [reflexivity|discriminate]. Qed.

Lemma played_tally (d : stats_dict) (m : Matchup) : played d -> played (tally d m).
Proof.
  intros Hd [a b]. destruct (Hd (a, b)) as [G P].
  rewrite tally_updates, present_apply_updates, val_apply_updates. unfold updates.
  destruct (winner_is m (team1_owner_id m));
    cbn [app existsb updated fold_left fst snd];
    destruct (pair_eqb (a, b) (team1_owner_id m, team2_owner_id m)),
             (pair_eqb (a, b) (team2_owner_id m, team1_owner_id m));
    cbn [orb st_games add_win add_loss add_points_for add_points_against add_game];
    split; try lia; intros H; try lia; specialize (P H); lia.
Qed.

Lemma played_h2h_stats (matchups : list Matchup) : played (h2h_stats matchups).
Proof.
  unfold h2h_stats. assert (G : forall l d, played d -> played (fold_left step l d)).
  { induction l as [|m l IH]; intros d Hd; [exact Hd|]. cbn [fold_left]. apply IH.
    unfold step. destruct (no_winner m); [exact Hd|now apply played_tally]. }
  apply G, played_empty.
Qed.

Lemma present_In (d : stats_dict) (k : pair) :
  present d k = true -> exists s, In (k, s) d.
Proof.
  unfold present. induction d as [|[k' s'] d IH]; cbn [PyDict.get]; [discriminate|].
  destruct (pair_eqb k k') eqn:E.
  - apply pair_eqb_eq in E. subst k'. intros _. exists s'. now left.
  - intros H. destruct (IH H) as (s & Hs). exists s. now right.
Qed.

Lemma decided_present (matchups : list Matchup) (m : Matchup) :
  In m matchups -> decided m = true ->
  present (h2h_stats matchups) (team1_owner_id m, team2_owner_id m) = true.
Proof.
  intros Hin Hd. unfold decided in Hd. apply negb_true_iff in Hd. unfold h2h_stats.
  assert (G : forall l d, present d (team1_owner_id m, team2_owner_id m) = true ->
              present (fold_left step l d) (team1_owner_id m, team2_owner_id m) = true).
  { induction l as [|x l IHl]; intros d H; [exact H|]. cbn [fold_left]. apply IHl.
    unfold step. destruct (no_winner x); [exact H|].
    rewrite tally_updates, present_apply_updates, H. apply orb_true_r. }
  apply in_split in Hin. destruct Hin as (l1 & l2 & ->).
  rewrite fold_left_app. cbn [fold_left]. apply G.
  unfold step. rewrite Hd, tally_updates, present_apply_updates. unfold updates.
  assert (R : pair_eqb (team1_owner_id m, team2_owner_id m)
                (team1_owner_id m, team2_owner_id m) = true) by now apply pair_eqb_eq.
  destruct (winner_is m (team1_owner_id m)); cbn [app existsb fst]; rewrite R;
    cbn [orb]; rewrite ?orb_true_r; reflexivity.
Qed.

(** The records of [calculate_head_to_head_records] are one per pairing of
    owners: no two records are about the same two owners (in either order),
    every two owners who met in a matchup with a winner have their record,
    and each record counts at least one game, every game being a win of one
    of its two sides. *)
Theorem one_record_per_pairing (matchups : list Matchup) :
  exists h2h,
    head_to_head_records matchups = Some h2h
    /\ NoDup (map pairing h2h)
    /\ (forall a b, sorted_pair a b = sorted_pair b a)
    /\ (forall m, In m matchups -> decided m = true ->
        exists r, In r h2h
                  /\ pairing r = sorted_pair (team1_owner_id m) (team2_owner_id m))
    /\ Forall (fun r => (0 < total_games r)%Z
                        /\ (0 <= owner1_wins r)%Z /\ (0 <= owner2_wins r)%Z
                        /\ (owner1_wins r + owner2_wins r = total_games r)%Z) h2h.
Proof.
  destruct (head_to_head_records_read_off matchups) as (rs & Hr & Hall).
  exists rs. split; [exact Hr|]. unfold head_to_head_records in Hr.
  destruct (records_loop_pairings _ _ _ _ Hr) as (N & _ & C).
  split; [exact N|]. split; [exact sorted_pair_swap|]. split.
  - intros m Hin Hd. destruct (present_In _ _ (decided_present matchups m Hin Hd)) as (s & Hs).
    destruct (C _ _ _ Hs) as [[]|H]. exact H.
  - eapply Forall_impl; [|exact Hall]. intros r (P1 & P2 & W1 & W2 & _ & _ & G).
    destruct (consistent_h2h_stats matchups (owner1_id r) (owner2_id r))
      as (_ & _ & _ & _ & A4 & A5 & A6).
    destruct (played_h2h_stats matchups (owner1_id r, owner2_id r)) as [_ Hp].
    rewrite W1, W2, G. repeat split; try assumption. now apply Hp.
Qed.

End HeadToHeadPairsFacts.

(** ** Cleanup utility, continued *)

Module CleanupMoreFacts.

Import PyNum Frames Cleanup CleanupMore.
Local Open Scope string_scope.

Lemma tracks_files_clean_file (fs0 : FileSystem) (run : Run) (q : string) :
  In q listed_files -> tracks_files fs0 run -> tracks_files fs0 (clean_file run q).
Proof.
  intros Hq (T1 & T2 & T3). unfold clean_file.
  destruct (file_bytes (fs run) q) as [size|] eqn:E; [|unfold tracks_files; auto].
  assert (Hnew : forall b, ~ In (q, b) (removed_files run)).
  { intros b Hin. destruct (T2 q b Hin) as (_ & H & _). congruence. }
  assert (H0 : file_bytes fs0 q = Some size).
  { destruct (T1 q) as [H|[H _]]; congruence. }
  repeat split; cbn [fs removed_files unlink file_bytes].
  - intros p. destruct (String.eqb_spec p q) as [->|Hne].
    + right. split; [reflexivity|]. exists size. apply in_or_app. right. now left.
    + destruct (T1 p) as [H|[H (b & Hb)]]; [now left|].
      right. split; [exact H|]. exists b. apply in_or_app. now left.
  - apply in_app_or in H. destruct H as [H|[H|[]]].
    + now apply (T2 p b).
    + injection H as <- <-. exact H0.
  - apply in_app_or in H. destruct H as [H|[H|[]]].
    + destruct (String.eqb p q); [reflexivity|]. now apply (T2 p b).
    + injection H as <- <-. now rewrite String.eqb_refl.
  - apply in_app_or in H. destruct H as [H|[H|[]]].
    + now apply (T2 p b).
    + injection H as <- <-. exact Hq.
  - rewrite map_app. cbn [map fst]. apply NoDup_app; [exact T3|repeat constructor; intros []|].
    intros a Ha [<-|[]]. apply in_map_iff in Ha. destruct Ha as ([p b] & <- & Hin).
    now apply (Hnew b).
Qed.

Lemma tracks_dirs_clean_dir (fs0 : FileSystem) (run : Run) (q : string) :
  In q redundant_dirs -> tracks_dirs fs0 run -> tracks_dirs fs0 (clean_dir run q).
Proof.
  intros Hq (T1 & T2 & T3). unfold clean_dir.
  destruct (dir_bytes (fs run) q) as [size|] eqn:E; [|unfold tracks_dirs; auto].
  assert (Hnew : forall b, ~ In (q, b) (removed_dirs run)).
  { intros b Hin. destruct (T2 q b Hin) as (_ & H & _). congruence. }
  assert (H0 : dir_bytes fs0 q = Some size).
  { destruct (T1 q) as [H|[H _]]; congruence. }
  repeat split; cbn [fs removed_dirs rmtree dir_bytes].
  - intros p. destruct (String.eqb_spec p q) as [->|Hne].
    + right. split; [reflexivity|]. exists size. apply in_or_app. right. now left.
    + destruct (T1 p) as [H|[H (b & Hb)]]; [now left|].
      right. split; [exact H|]. exists b. apply in_or_app. now left.
  - apply in_app_or in H. destruct H as [H|[H|[]]].
    + now apply (T2 p b).
    + injection H as <- <-. exact H0.
  - apply in_app_or in H. destruct H as [H|[H|[]]].
    + destruct (String.eqb p q); [reflexivity|]. now apply (T2 p b).
    + injection H as <- <-. now rewrite String.eqb_refl.
  - apply in_app_or in H. destruct H as [H|[H|[]]].
    + now apply (T2 p b).
    + injection H as <- <-. exact Hq.
  - rewrite map_app. cbn [map fst]. apply NoDup_app; [exact T3|repeat constructor; intros []|].
    intros a Ha [<-|[]]. apply in_map_iff in Ha. destruct Ha as ([p b] & <- & Hin).
    now apply (Hnew b).
Qed.

Lemma tracks_files_clean_dir (fs0 : FileSystem) (run : Run) (q : string) :
  tracks_files fs0 run -> tracks_files fs0 (clean_dir run q).
Proof.
  unfold clean_dir. destruct (dir_bytes (fs run) q); [|auto].
  intros (T1 & T2 & T3). repeat split; cbn [fs removed_files rmtree file_bytes];
    try assumption; try (intros; now apply (T2 p b)). 
Qed.

Lemma tracks_dirs_clean_file (fs0 : FileSystem) (run : Run) (q : string) :
  tracks_dirs fs0 run -> tracks_dirs fs0 (clean_file run q).
Proof.
  unfold clean_file. destruct (file_bytes (fs run) q); [|auto].
  intros (T1 & T2 & T3). repeat split; cbn [fs removed_dirs unlink dir_bytes];
    try assumption; try (intros; now apply (T2 p b)).
Qed.

Lemma clean_file_gone (run : Run) (q : string) :
  file_bytes (fs (clean_file run q)) q = None.
Proof.
  unfold clean_file. destruct (file_bytes (fs run) q) eqn:E; [|exact E].
  cbn [fs unlink file_bytes]. now rewrite String.eqb_refl.
Qed.

Lemma clean_file_stays_gone (run : Run) (q p : string) :
  file_bytes (fs run) p = None -> file_bytes (fs (clean_file run q)) p = None.
Proof.
  intros H. unfold clean_file. destruct (file_bytes (fs run) q); [|exact H].
  cbn [fs unlink file_bytes]. now destruct (String.eqb p q).
Qed.

Lemma clean_dir_gone (run : Run) (q : string) :
  dir_bytes (fs (clean_dir run q)) q = None.
Proof.
  unfold clean_dir. destruct (dir_bytes (fs run) q) eqn:E; [|exact E].
  cbn [fs rmtree dir_bytes]. now rewrite String.eqb_refl.
Qed.

Lemma clean_dir_stays_gone (run : Run) (q p : string) :
  dir_bytes (fs run) p = None -> dir_bytes (fs (clean_dir run q)) p = None.
Proof.
  intros H. unfold clean_dir. destruct (dir_bytes (fs run) q); [|exact H].
  cbn [fs rmtree dir_bytes]. now destruct (String.eqb p q).
Qed.

Lemma clean_file_keeps_dirs (run : Run) (q p : string) :
  dir_bytes (fs (clean_file run q)) p = dir_bytes (fs run) p.
Proof. unfold clean_file. now destruct (file_bytes (fs run) q). Qed.

Lemma files_gone (l : list string) (p : string) :
  forall run, In p l \/ file_bytes (fs run) p = None ->
    file_bytes (fs (fold_left clean_file l run)) p = None.
Proof.
  induction l as [|q l IH]; intros run [H|H]; cbn [fold_left]; try contradiction; auto.
  - destruct H as [->|H]; apply IH; [right; apply clean_file_gone | now left].
  - apply IH. right. now apply clean_file_stays_gone.
Qed.

Lemma dirs_gone (l : list string) (p : string) :
  forall run, In p l \/ dir_bytes (fs run) p = None ->
    dir_bytes (fs (fold_left clean_dir l run)) p = None.
Proof.
  induction l as [|q l IH]; intros run [H|H]; cbn [fold_left]; try contradiction; auto.
  - destruct H as [->|H]; apply IH; [right; apply clean_dir_gone | now left].
  - apply IH. right. now apply clean_dir_stays_gone.
Qed.

Lemma files_keep_dirs (l : list string) (p : string) :
  forall run, dir_bytes (fs (fold_left clean_file l run)) p = dir_bytes (fs run) p.
Proof.
  induction l as [|q l IH]; intros run; [reflexivity|].
  cbn [fold_left]. rewrite IH. apply clean_file_keeps_dirs.
Qed.

Lemma fold_tracks (P : Run -> Prop) (step : Run -> string -> Run) (allowed : string -> Prop)
  (l : list string) :
  (forall run q, allowed q -> P run -> P (step run q)) ->
  Forall allowed l -> forall run, P run -> P (fold_left step l run).
Proof.
  intros Hs Hl. induction Hl as [|q l Hq _ IH]; intros run H; [exact H|].
  cbn [fold_left]. apply IH, Hs; assumption.
Qed.

Lemma cleanup_tracks (fs0 : FileSystem) :
  tracks_dirs fs0 (cleanup_project fs0) /\ tracks_files fs0 (cleanup_project fs0).
Proof.
  unfold cleanup_project. split.
  - apply (fold_tracks _ clean_file (fun _ => True));
      [intros; now apply tracks_dirs_clean_file | apply Forall_forall; auto |].
    apply (fold_tracks _ clean_file (fun _ => True));
      [intros; now apply tracks_dirs_clean_file | apply Forall_forall; auto |].
    apply (fold_tracks _ clean_dir (fun q => In q redundant_dirs));
      [intros; now apply tracks_dirs_clean_dir | apply Forall_forall; auto |].
    split; [intros p; now left|]. split; [intros p b []|constructor].
  - apply (fold_tracks _ clean_file (fun q => In q listed_files));
      [intros; now apply tracks_files_clean_file
      | apply Forall_forall; intros q Hq; apply in_or_app; now right |].
    apply (fold_tracks _ clean_file (fun q => In q listed_files));
      [intros; now apply tracks_files_clean_file
      | apply Forall_forall; intros q Hq; apply in_or_app; now left |].
    apply (fold_tracks _ clean_dir (fun _ => True));
      [intros; now apply tracks_files_clean_dir | apply Forall_forall; auto |].
    split; [intros p; now left|]. split; [intros p b []|constructor].
Qed.

Lemma cleanup_gone (fs0 : FileSystem) (p : string) :
  (In p redundant_dirs -> dir_bytes (fs (cleanup_project fs0)) p = None)
  /\ (In p listed_files -> file_bytes (fs (cleanup_project fs0)) p = None).
Proof.
  unfold cleanup_project. split; intros H.
  - rewrite !files_keep_dirs. apply dirs_gone. now left.
  - unfold listed_files in H. apply in_app_or in H. destruct H as [H|H].
    + apply files_gone. right. apply files_gone. now left.
    + apply files_gone. now left.
Qed.

(** A run removes and reports exactly the listed directories and files that
    were there, each one once and with the size it had, although one script
    is listed twice; afterwards none of the listed paths exists. *)
Theorem cleanup_removes_listed (fs0 : FileSystem) :
  (forall p, In p redundant_dirs -> dir_bytes (fs (cleanup_project fs0)) p = None)
  /\ (forall p, In p listed_files -> file_bytes (fs (cleanup_project fs0)) p = None)
  /\ (forall p b, In (p, b) (removed_dirs (cleanup_project fs0))
                  <-> In p redundant_dirs /\ dir_bytes fs0 p = Some b)
  /\ (forall p b, In (p, b) (removed_files (cleanup_project fs0))
                  <-> In p listed_files /\ file_bytes fs0 p = Some b)
  /\ NoDup (map fst (removed_dirs (cleanup_project fs0)))
  /\ NoDup (map fst (removed_files (cleanup_project fs0))).
Proof.
  pose proof (cleanup_tracks fs0) as T. pose proof (cleanup_gone fs0) as G.
  set (R := cleanup_project fs0) in *. clearbody R.
  destruct T as [(D1 & D2 & D3) (F1 & F2 & F3)].
  split; [intros p Hp; exact (proj1 (G p) Hp)|].
  split; [intros p Hp; exact (proj2 (G p) Hp)|].
  split; [|split; [|split; [exact D3|exact F3]]].
  - intros p b. split.
    + intros H. destruct (D2 p b H) as (H1 & _ & H3). split; assumption.
    + intros [Hl H0]. pose proof (proj1 (G p) Hl) as Gp.
      destruct (D1 p) as [H|[_ (b' & Hb)]]; [congruence|].
      destruct (D2 p b' Hb) as (H1 & _). congruence.
  - intros p b. split.
    + intros H. destruct (F2 p b H) as (H1 & _ & H3). split; assumption.
    + intros [Hl H0]. pose proof (proj2 (G p) Hl) as Gp.
      destruct (F1 p) as [H|[_ (b' & Hb)]]; [congruence|].
      destruct (F2 p b' Hb) as (H1 & _). congruence.
Qed.

Lemma nothing_to_clean_files (l : list string) (run : Run) :
  (forall p, In p l -> file_bytes (fs run) p = None) ->
  fold_left clean_file l run = run.
Proof.
  induction l as [|q l IH]; intros H; [reflexivity|].
  cbn [fold_left]. assert (E : clean_file run q = run).
  { unfold clean_file. rewrite (H q); [reflexivity|now left]. }
  rewrite E. apply IH. intros p Hp. apply H. now right.
Qed.

Lemma nothing_to_clean_dirs (l : list string) (run : Run) :
  (forall p, In p l -> dir_bytes (fs run) p = None) ->
  fold_left clean_dir l run = run.
Proof.
  induction l as [|q l IH]; intros H; [reflexivity|].
  cbn [fold_left]. assert (E : clean_dir run q = run).
  { unfold clean_dir. rewrite (H q); [reflexivity|now left]. }
  rewrite E. apply IH. intros p Hp. apply H. now right.
Qed.

(** A second run right after a first one finds nothing to remove: it leaves
    the file system as it is, reports nothing and saves 0 MB. *)
Theorem cleanup_twice (fs0 : FileSystem) :
  cleanup_project (fs (cleanup_project fs0))
  = {| fs := fs (cleanup_project fs0); total_size_saved := 0;
       removed_dirs := []; removed_files := [] |}.
Proof.
  generalize (cleanup_gone fs0). generalize (fs (cleanup_project fs0)).
  intros fs1 G. unfold cleanup_project.
  set (run0 := {| fs := fs1; total_size_saved := 0; removed_dirs := [];
                  removed_files := [] |}).
  rewrite (nothing_to_clean_dirs redundant_dirs run0)
    by (intros p Hp; exact (proj1 (G p) Hp)).
  rewrite (nothing_to_clean_files redundant_scripts run0)
    by (intros p Hp; apply (proj2 (G p)); unfold listed_files; apply in_or_app; now left).
  apply (nothing_to_clean_files redundant_files run0).
  intros p Hp. apply (proj2 (G p)). unfold listed_files. apply in_or_app. now right.
Qed.

End CleanupMoreFacts.

(** ** Rivalries and bad beats, continued *)

Module RankingFacts.

Import Models PyNum Frames Rivalry RivalryFacts BadBeats BadBeatsFacts Ranking.
Local Open Scope Q_scope.

Lemma insert_desc_sorted (x : Rivalry) (l : list Rivalry) :
  StronglySorted not_more_competitive l ->
  StronglySorted not_more_competitive (insert_desc x l).
Proof.
  induction 1 as [|y l Hs IH Hy]; cbn [insert_desc].
  - repeat constructor.
  - destruct (Qle_bool (competitiveness_score y) (competitiveness_score x)) eqn:E.
    + apply Qle_bool_iff in E. constructor; [now constructor|].
      constructor; [exact E|]. eapply Forall_impl; [|exact Hy].
      unfold not_more_competitive. intros z Hz. lra.
    + assert (Hlt : competitiveness_score x < competitiveness_score y).
      { apply Qnot_le_lt. intros H. apply Qle_bool_iff in H. congruence. }
      constructor; [exact IH|]. apply Forall_forall. intros z Hz.
      apply insert_desc_In in Hz. destruct Hz as [->|Hz].
      * unfold not_more_competitive. lra.
      * rewrite Forall_forall in Hy. now apply Hy.
Qed.

Lemma insert_desc_perm (x : Rivalry) (l : list Rivalry) :
  Permutation (insert_desc x l) (x :: l).
Proof.
  induction l as [|y l IH]; cbn [insert_desc]; [reflexivity|].
  destruct (Qle_bool _ _); [reflexivity|].
  rewrite IH. apply perm_swap.
Qed.

Lemma sort_desc_perm (l : list Rivalry) : Permutation (sort_desc l) l.
Proof.
  induction l as [|x l IH]; cbn [sort_desc fold_right]; [reflexivity|].
  fold (sort_desc l). rewrite insert_desc_perm. now constructor.
Qed.

(** [get_rivalry_analysis] returns one entry for each stored record that has
    at least [min_games] games, no other entry, and the entries are in order
    of decreasing competitiveness score. *)
Theorem rivalries_ranked (h2h_records : list HeadToHeadRecord) (owners : list Owner)
  (min_games : Z) :
  StronglySorted not_more_competitive
    (get_rivalry_analysis h2h_records owners min_games)
  /\ Permutation (get_rivalry_analysis h2h_records owners min_games)
       (map (rivalry_of (owner_names owners))
          (filter (fun r => (min_games <=? total_games r)%Z) h2h_records)).
Proof.
  unfold get_rivalry_analysis. split; [|apply sort_desc_perm].
  induction (map _ _) as [|x l IH]; [constructor|].
  cbn [sort_desc fold_right]. now apply insert_desc_sorted.
Qed.

Lemma insert_beat_sorted (x : BadBeat) (l : list BadBeat) :
  StronglySorted not_worse_beat l -> StronglySorted not_worse_beat (insert_beat x l).
Proof.
  induction 1 as [|y l Hs IH Hy]; cbn [insert_beat].
  - repeat constructor.
  - unfold sorts_before.
    destruct (Qle_bool (bb_above_avg y) (bb_above_avg x)) eqn:E1; cbn [negb orb].
    + apply Qle_bool_iff in E1.
      destruct (Qeq_bool (bb_above_avg y) (bb_above_avg x)) eqn:E2; cbn [andb].
      * apply Qeq_bool_iff in E2.
        destruct (Qle_bool (bb_margin y) (bb_margin x)) eqn:E3; cbn [negb].
        -- apply Qle_bool_iff in E3. constructor; [now constructor|].
           constructor; [split; [exact E1|intros _; exact E3]|].
           eapply Forall_impl; [|exact Hy]. unfold not_worse_beat.
           intros z [Z1 Z2]. split; [lra|]. intros Hz.
           assert (Hzy : bb_above_avg z == bb_above_avg y) by lra.
           specialize (Z2 Hzy). lra.
        -- assert (Hlt : bb_margin x < bb_margin y).
           { apply Qnot_le_lt. intros H. apply Qle_bool_iff in H. congruence. }
           constructor; [exact IH|]. apply Forall_forall. intros z Hz.
           apply insert_beat_In in Hz. destruct Hz as [->|Hz].
           ++ split; [lra|]. intros _. lra.
           ++ rewrite Forall_forall in Hy. now apply Hy.
      * assert (Hne : ~ bb_above_avg y == bb_above_avg x).
        { intros H. apply Qeq_bool_iff in H. congruence. }
        constructor; [now constructor|].
        constructor; [split; [exact E1|intros H; contradiction]|].
        eapply Forall_impl; [|exact Hy]. unfold not_worse_beat.
        intros z [Z1 Z2]. split; [lra|]. intros Hz. exfalso. apply Hne. lra.
    + assert (Hlt : bb_above_avg x < bb_above_avg y).
      { apply Qnot_le_lt. intros H. apply Qle_bool_iff in H. congruence. }
      constructor; [exact IH|]. apply Forall_forall. intros z Hz.
      apply insert_beat_In in Hz. destruct Hz as [->|Hz].
      * split; [lra|]. intros H. lra.
      * rewrite Forall_forall in Hy. now apply Hy.
Qed.

Lemma insert_beat_perm (x : BadBeat) (l : list BadBeat) :
  Permutation (insert_beat x l) (x :: l).
Proof.
  induction l as [|y l IH]; cbn [insert_beat]; [reflexivity|].
  destruct (sorts_before y x); [|reflexivity].
  rewrite IH. apply perm_swap.
Qed.

Lemma sort_values_perm (l : list BadBeat) : Permutation (sort_values l) l.
Proof.
  induction l as [|x l IH]; cbn [sort_values fold_right]; [reflexivity|].
  fold (sort_values l). rewrite insert_beat_perm. now constructor.
Qed.

Lemma sort_values_sorted (l : list BadBeat) :
  StronglySorted not_worse_beat (sort_values l).
Proof.
  induction l as [|x l IH]; [constructor|].
  cbn [sort_values fold_right]. now apply insert_beat_sorted.
Qed.

(** X9.  When the loop of [analyze_bad_beats] finds no bad beat, the function
    raises an error (the [KeyError] of sorting a frame without columns) and
    returns no table; when it finds some, it returns a table that holds
    exactly the rows found, each as often as it was found, ranked by how far
    above the season average the score was, rows equally far above it by
    margin, largest first. *)
Theorem bad_beats_ranked (matchups_df : list Row) (managers : list string) :
  match bad_beats matchups_df managers with
  | [] => analyze_bad_beats matchups_df managers = None
  | _ :: _ =>
      exists beats,
        analyze_bad_beats matchups_df managers = Some beats
        /\ StronglySorted not_worse_beat beats
        /\ Permutation beats (bad_beats matchups_df managers)
  end.
Proof.
  unfold analyze_bad_beats. destruct (bad_beats matchups_df managers) as [|b l];
    [reflexivity|].
  exists (sort_values (b :: l)). split; [reflexivity|]. split.
  - apply sort_values_sorted.
  - apply sort_values_perm.
Qed.

End RankingFacts.

(** ** Luck and skill *)

Module ExpectedWinsFacts.

Import PyNum Frames BadBeats ExpectedWins.
Local Open Scope Q_scope.

Lemma filter_length_le {A : Type} (f : A -> bool) (l : list A) :
  (List.length (filter f l) <= List.length l)%nat.
Proof.
  induction l as [|x l IH]; simpl; [lia|]. destruct (f x); simpl; lia.
Qed.

Lemma expected_wins_count (manager : string) (games : list Row) :
  expected_wins (map (score_for manager) games) (map (score_against manager) games)
  = Z.of_nat
      (List.length
         (filter (fun row => negb (Qle_bool (score_for manager row) (score_against manager row)))
            games)).
Proof.
  unfold expected_wins. f_equal.
  induction games as [|row games IH]; simpl; [reflexivity|].
  destruct (negb (Qle_bool (score_for manager row) (score_against manager row)));
    simpl; now rewrite IH.
Qed.

Lemma filter_ext_length {A : Type} (f g : A -> bool) (l : list A) :
  (forall x, In x l -> f x = g x) ->
  List.length (filter f l) = List.length (filter g l).
Proof.
  induction l as [|x l IH]; intros H; simpl; [reflexivity|].
  rewrite (H x (or_introl eq_refl)).
  destruct (g x); simpl; rewrite IH; auto; intros y Hy; apply H; now right.
Qed.

(** In a game decided by the scores, a manager of the game has won exactly
    when they scored more than the opponent. *)
Lemma won_by_score (row : Row) (manager : string) :
  winner_by_score row ->
  String.eqb (manager1 row) manager || String.eqb (manager2 row) manager = true ->
  won_by row manager
  = negb (Qle_bool (score_for manager row) (score_against manager row)).
Proof.
  intros [Hne Hw] Hin. unfold won_by, score_for, score_against. rewrite Hw.
  destruct (String.eqb_spec (manager1 row) manager) as [E1|N1].
  - destruct (negb (Qle_bool (team1_score row) (team2_score row))) eqn:E.
    + rewrite E1. apply String.eqb_refl.
    + destruct (negb (Qle_bool (team2_score row) (team1_score row))); [|reflexivity].
      apply String.eqb_neq. congruence.
  - simpl in Hin. apply String.eqb_eq in Hin.
    destruct (Qle_bool (team1_score row) (team2_score row)) eqn:E12; simpl.
    + destruct (Qle_bool (team2_score row) (team1_score row)) eqn:E21; simpl.
      * reflexivity.
      * rewrite Hin. apply String.eqb_refl.
    + destruct (Qle_bool (team2_score row) (team1_score row)) eqn:E21; simpl.
      * now apply String.eqb_neq.
      * exfalso. destruct (Qlt_le_dec (team2_score row) (team1_score row)) as [H|H].
        -- apply Qlt_le_weak, Qle_bool_iff in H. congruence.
        -- apply Qle_bool_iff in H. congruence.
Qed.

Lemma entry_inv (matchups_df : list Row) (managers : list string) (e : ExpectedWin) :
  In e (analyze_expected_vs_actual_wins matchups_df managers) ->
  exists s manager,
    In e (manager_entry (of_season matchups_df s) s manager).
Proof.
  unfold analyze_expected_vs_actual_wins. intros H.
  apply in_flat_map in H. destruct H as (s & _ & H).
  apply in_flat_map in H. destruct H as (manager & _ & H).
  now exists s, manager.
Qed.

Lemma inject_Z_pos (n : Z) : (0 < n)%Z -> 0 < inject_Z n.
Proof. intros H. change 0 with (inject_Z 0). now rewrite <- Zlt_Qlt. Qed.

(** X12.  Every row that [analyze_expected_vs_actual_wins] returns is about
    at least one game; its actual and its expected wins are counts of some
    of these games, and its luck factor lies between -100 and 100. *)
Theorem expected_wins_bounded (matchups_df : list Row) (managers : list string)
  (e : ExpectedWin) :
  In e (analyze_expected_vs_actual_wins matchups_df managers) ->
  (1 <= ew_total_games e)%Z
  /\ (0 <= ew_actual_wins e <= ew_total_games e)%Z
  /\ (0 <= ew_expected_wins e <= ew_total_games e)%Z
  /\ - inject_Z 100 <= ew_luck_factor e /\ ew_luck_factor e <= inject_Z 100.
Proof.
  intros H. apply entry_inv in H. destruct H as (s & manager & H).
  unfold manager_entry in H.
  destruct (games_of (of_season matchups_df s) manager) as [|row rows] eqn:E;
    [contradiction|].
  destruct H as [<-|[]]. cbn [ew_total_games ew_actual_wins ew_expected_wins ew_luck_factor].
  rewrite expected_wins_count. unfold actual_wins.
  set (games := row :: rows).
  pose proof (filter_length_le (fun r => won_by r manager) games) as Ha.
  pose proof (filter_length_le
                (fun r => negb (Qle_bool (score_for manager r) (score_against manager r)))
                games) as He.
  rewrite length_map.
  set (a := List.length (filter (fun r => won_by r manager) games)) in *.
  set (x := List.length (filter (fun r => negb (Qle_bool (score_for manager r) (score_against manager r))) games)) in *.
  assert (Hn : (1 <= Z.of_nat (List.length games))%Z) by (subst games; simpl; lia).
  set (n := List.length games) in *.
  split; [exact Hn|]. split; [lia|]. split; [lia|].
  assert (Hq : 0 < inject_Z (Z.of_nat n)) by (apply inject_Z_pos; lia).
  assert (Ea : inject_Z (Z.of_nat a) / inject_Z (Z.of_nat n) - inject_Z (Z.of_nat x) / inject_Z (Z.of_nat n)
               == (inject_Z (Z.of_nat a) - inject_Z (Z.of_nat x)) / inject_Z (Z.of_nat n)).
  { field. lra. }
  assert (Ha' : 0 <= inject_Z (Z.of_nat a) /\ inject_Z (Z.of_nat a) <= inject_Z (Z.of_nat n)).
  { split; [change 0 with (inject_Z 0)|]; rewrite <- Zle_Qle; lia. }
  assert (He' : 0 <= inject_Z (Z.of_nat x) /\ inject_Z (Z.of_nat x) <= inject_Z (Z.of_nat n)).
  { split; [change 0 with (inject_Z 0)|]; rewrite <- Zle_Qle; lia. }
  rewrite Ea. change (inject_Z 100) with 100.
  assert (Hlo : - (1) <= (inject_Z (Z.of_nat a) - inject_Z (Z.of_nat x)) / inject_Z (Z.of_nat n)).
  { apply Qle_shift_div_l; [exact Hq|]. lra. }
  assert (Hhi : (inject_Z (Z.of_nat a) - inject_Z (Z.of_nat x)) / inject_Z (Z.of_nat n) <= 1).
  { apply Qle_shift_div_r; [exact Hq|]. lra. }
  split; lra.
Qed.

Lemma expected_wins_bounded_witness :
  (1 <= ew_total_games sample_entry)%Z
  /\ (0 <= ew_actual_wins sample_entry <= ew_total_games sample_entry)%Z
  /\ (0 <= ew_expected_wins sample_entry <= ew_total_games sample_entry)%Z
  /\ - inject_Z 100 <= ew_luck_factor sample_entry
  /\ ew_luck_factor sample_entry <= inject_Z 100.
Proof.
  apply (expected_wins_bounded sample_games active_managers sample_entry).
  vm_compute. right. right. left. reflexivity.
Defined.

(** X13.  On a table whose winner column follows the scores, the luck factor
    of every returned row is 0 and the actual wins are the expected wins:
    what the function measures as luck is only the disagreement between the
    winner column and the scores. *)
Theorem no_luck_when_scores_decide (matchups_df : list Row) (managers : list string)
  (e : ExpectedWin) :
  Forall winner_by_score matchups_df ->
  In e (analyze_expected_vs_actual_wins matchups_df managers) ->
  ew_actual_wins e = ew_expected_wins e /\ ew_luck_factor e == 0.
Proof.
  intros Hall H. apply entry_inv in H. destruct H as (s & manager & H).
  unfold manager_entry in H.
  destruct (games_of (of_season matchups_df s) manager) as [|row rows] eqn:E;
    [contradiction|].
  destruct H as [<-|[]]. cbn [ew_actual_wins ew_expected_wins ew_luck_factor].
  assert (Heq : actual_wins manager (row :: rows)
                = expected_wins (map (score_for manager) (row :: rows))
                    (map (score_against manager) (row :: rows))).
  { rewrite expected_wins_count. unfold actual_wins. f_equal.
    apply filter_ext_length. intros r Hr. rewrite <- E in Hr.
    unfold games_of, of_season in Hr.
    apply filter_In in Hr. destruct Hr as [Hr Hm].
    apply filter_In in Hr. destruct Hr as [Hr _].
    apply won_by_score; [|exact Hm].
    rewrite Forall_forall in Hall. now apply Hall. }
  split; [exact Heq|]. rewrite Heq.
  set (q := inject_Z _ / inject_Z _). ring.
Qed.

Lemma no_luck_when_scores_decide_witness :
  ew_actual_wins sample_entry = ew_expected_wins sample_entry
  /\ ew_luck_factor sample_entry == 0.
Proof.
  apply (no_luck_when_scores_decide sample_games active_managers sample_entry).
  - repeat constructor; discriminate.
  - vm_compute. right. right. left. reflexivity.
Defined.

End ExpectedWinsFacts.

(** ** Kryptonite *)

Module KryptoniteFacts.

Import PyNum Frames Kryptonite.
Local Open Scope Q_scope.

Lemma key_eqb_eq (x y : key) : same_key x y = true <-> x = y.
Proof. apply HeadToHeadFacts.pair_eqb_eq. Qed.

Lemma key_eqb_refl (k : key) : same_key k k = true.
Proof. now apply key_eqb_eq. Qed.

Lemma keys_set (d : table) (k : key) (t : Tally) (k' : key) :
  In k' (map fst (PyDict.set same_key d k t)) -> k' = k \/ In k' (map fst d).
Proof.
  induction d as [|[k0 t0] d IH]; simpl.
  - intros [H|[]]. now left.
  - destruct (same_key k k0) eqn:E; simpl.
    + intros H. now right.
    + intros [H|H]; [right; now left|].
      destruct (IH H) as [H'|H']; [now left|right; now right].
Qed.

Lemma set_distinct_keys (d : table) (k : key) (t : Tally) :
  distinct_keys d -> distinct_keys (PyDict.set same_key d k t).
Proof.
  unfold distinct_keys. induction d as [|[k0 t0] d IH]; simpl; intros H.
  - constructor; [intros []|constructor].
  - inversion H as [|x l Hx Hl]; subst.
    destruct (same_key k k0) eqn:E; simpl.
    + now constructor.
    + constructor; [|now apply IH].
      intros Hin. apply keys_set in Hin. destruct Hin as [->|Hin]; [|contradiction].
      rewrite key_eqb_refl in E. discriminate.
Qed.

Lemma item_get (d : table) (k : key) (t : Tally) :
  distinct_keys d -> In (k, t) d -> PyDict.get same_key d k = Some t.
Proof.
  unfold distinct_keys. induction d as [|[k0 t0] d IH]; simpl; intros H; [intros []|].
  inversion H as [|x l Hx Hl]; subst. intros [E|Hin].
  - injection E as -> ->. now rewrite key_eqb_refl.
  - destruct (same_key k k0) eqn:E.
    + apply key_eqb_eq in E. subst k0. exfalso. apply Hx.
      now apply (in_map fst) in Hin.
    + now apply IH.
Qed.

Lemma view_set (d : table) (k k' : key) (t : Tally) :
  view (PyDict.set same_key d k t) k' = if same_key k' k then t else view d k'.
Proof.
  unfold view, PyDict.get_default. destruct (same_key k' k) eqn:E.
  - apply key_eqb_eq in E. subst k'.
    now rewrite (PyDictFacts.get_set_same same_key key_eqb_eq).
  - rewrite (PyDictFacts.get_set_other same_key key_eqb_eq); [reflexivity|].
    intros ->. rewrite key_eqb_refl in E. discriminate.
Qed.

Lemma get_set_present (d : table) (k k' : key) (t : Tally) :
  PyDict.get same_key d k' <> None ->
  PyDict.get same_key (PyDict.set same_key d k t) k' <> None.
Proof.
  intros H. destruct (same_key k' k) eqn:E.
  - apply key_eqb_eq in E. subst k'.
    now rewrite (PyDictFacts.get_set_same same_key key_eqb_eq).
  - rewrite (PyDictFacts.get_set_other same_key key_eqb_eq); [exact H|].
    intros ->. rewrite key_eqb_refl in E. discriminate.
Qed.

(** [ensure] adds a key without changing any tally. *)
Lemma ensure_spec (d : table) (k : key) :
  PyDict.get same_key (ensure d k) k <> None
  /\ (forall k', PyDict.get same_key d k' <> None ->
                 PyDict.get same_key (ensure d k) k' <> None)
  /\ (forall k', view (ensure d k) k' = view d k')
  /\ (distinct_keys d -> distinct_keys (ensure d k)).
Proof.
  unfold ensure. destruct (PyDict.get same_key d k) as [t|] eqn:E.
  - repeat split; auto. now rewrite E.
  - split; [now rewrite (PyDictFacts.get_set_same same_key key_eqb_eq)|].
    split; [intros k'; apply get_set_present|].
    split; [|apply set_distinct_keys].
    intros k'. rewrite view_set. destruct (same_key k' k) eqn:E'; [|reflexivity].
    apply key_eqb_eq in E'. subst k'. unfold view, PyDict.get_default. now rewrite E.
Qed.

(** On a key that is there, [bump] succeeds and changes that tally only. *)
Lemma bump_spec (d : table) (k : key) (f : Tally -> Tally) :
  PyDict.get same_key d k <> None ->
  exists d',
    bump d k f = Some d'
    /\ (forall k', PyDict.get same_key d k' <> None -> PyDict.get same_key d' k' <> None)
    /\ (forall k', view d' k' = if same_key k' k then f (view d k') else view d k')
    /\ (distinct_keys d -> distinct_keys d').
Proof.
  intros H. unfold bump. destruct (PyDict.get same_key d k) as [t|] eqn:E; [|contradiction].
  eexists. split; [reflexivity|].
  split; [intros k'; apply get_set_present|].
  split; [|apply set_distinct_keys].
  intros k'. rewrite view_set. destruct (same_key k' k) eqn:E'; [|reflexivity].
  apply key_eqb_eq in E'. subst k'. unfold view, PyDict.get_default. now rewrite E.
Qed.

(** What a game adds to the tally of the pair [k]. *)
Lemma count_row_spec (managers : list string) (d : table) (row : Row) :
  exists d',
    count_row managers d row = Some d'
    /\ (distinct_keys d -> distinct_keys d')
    /\ (active managers row = false /\ d' = d
        \/ active managers row = true /\ forall k,
            let one (b : bool) := if b then 1%Z else 0%Z in
            let k1 := same_key k (manager1 row, manager2 row) in
            let k2 := same_key k (manager2 row, manager1 row) in
            let w1 := won_by row (manager1 row) in
            let w2 := negb w1 && won_by row (manager2 row) in
            k_games (view d' k) = (k_games (view d k) + one k1 + one k2)%Z
            /\ k_wins (view d' k)
               = (k_wins (view d k) + one (w1 && k1) + one (w2 && k2))%Z
            /\ k_losses (view d' k)
               = (k_losses (view d k) + one (w1 && k2) + one (w2 && k1))%Z).
Proof.
  unfold count_row, active. rewrite <- negb_andb.
  destruct (isin (manager1 row) managers && isin (manager2 row) managers); cbn [negb];
    [|exists d; auto].
  set (key1 := (manager1 row, manager2 row)). set (key2 := (manager2 row, manager1 row)).
  destruct (ensure_spec d key1) as (P1 & Q1 & V1 & N1).
  destruct (ensure_spec (ensure d key1) key2) as (P2 & Q2 & V2 & N2).
  set (d2 := ensure (ensure d key1) key2) in *.
  destruct (bump_spec d2 key1 one_more_game (Q2 _ P1)) as (d3 & E3 & Q3 & V3 & N3).
  destruct (bump_spec d3 key2 one_more_game (Q3 _ P2)) as (d4 & E4 & Q4 & V4 & N4).
  rewrite E3. cbn [Storage.bind]. rewrite E4. cbn [Storage.bind].
  destruct (won_by row (manager1 row)) eqn:W1; [|destruct (won_by row (manager2 row)) eqn:W2].
  - destruct (bump_spec d4 key1 one_more_win (Q4 _ (Q3 _ (Q2 _ P1)))) as (d5 & E5 & Q5 & V5 & N5).
    destruct (bump_spec d5 key2 one_more_loss (Q5 _ (Q4 _ (Q3 _ P2)))) as (d6 & E6 & Q6 & V6 & N6).
    rewrite E5. cbn [Storage.bind]. rewrite E6.
    exists d6. split; [reflexivity|]. split; [auto 10|]. right. split; [reflexivity|]. intros k. cbv zeta.
    rewrite V6, V5, V4, V3, V2, V1.
    destruct (same_key k key1), (same_key k key2); cbn; repeat split; lia.
  - destruct (bump_spec d4 key1 one_more_loss (Q4 _ (Q3 _ (Q2 _ P1)))) as (d5 & E5 & Q5 & V5 & N5).
    destruct (bump_spec d5 key2 one_more_win (Q5 _ (Q4 _ (Q3 _ P2)))) as (d6 & E6 & Q6 & V6 & N6).
    rewrite E5. cbn [Storage.bind]. rewrite E6.
    exists d6. split; [reflexivity|]. split; [auto 10|]. right. split; [reflexivity|]. intros k. cbv zeta.
    rewrite V6, V5, V4, V3, V2, V1.
    destruct (same_key k key1), (same_key k key2); cbn; repeat split; lia.
  - exists d4. split; [reflexivity|]. split; [auto 10|]. right. split; [reflexivity|]. intros k. cbv zeta.
    rewrite V4, V3, V2, V1.
    destruct (same_key k key1), (same_key k key2); cbn; repeat split; lia.
Qed.

Lemma key_eqb_swap (a b c d : string) : same_key (b, a) (d, c) = same_key (a, b) (c, d).
Proof. apply HeadToHeadFacts.pair_eqb_swap. Qed.

Lemma count_row_mirrored (managers : list string) (d : table) (row : Row) :
  distinct_keys d -> mirrored d ->
  exists d', count_row managers d row = Some d' /\ distinct_keys d' /\ mirrored d'.
Proof.
  intros N M. destruct (count_row_spec managers d row) as (d' & E & N' & [[_ ->]|[_ S]]).
  { exists d. auto. }
  exists d'. split; [exact E|]. split; [auto|].
  intros a b. destruct (M a b) as (G & W & W0 & L0 & T).
  destruct (S (a, b)) as (G1 & W1 & L1). destruct (S (b, a)) as (G2 & W2 & L2).
  cbv zeta in *.
  rewrite (key_eqb_swap a b (manager2 row) (manager1 row)) in G2, W2, L2.
  rewrite (key_eqb_swap a b (manager1 row) (manager2 row)) in G2, W2, L2.
  destruct (M b a) as (_ & W' & _).
  destruct (same_key (a, b) (manager1 row, manager2 row)),
           (same_key (a, b) (manager2 row, manager1 row)),
           (won_by row (manager1 row)), (won_by row (manager2 row));
    cbn in *; repeat split; lia.
Qed.

Lemma loop_mirrored (managers : list string) (rows : list Row) :
  forall d : table,
    distinct_keys d -> mirrored d ->
    exists d', loop managers d rows = Some d' /\ distinct_keys d' /\ mirrored d'.
Proof.
  induction rows as [|row rows IH]; intros d N M; cbn [loop].
  - exists d. auto.
  - destruct (count_row_mirrored managers d row N M) as (d1 & E1 & N1 & M1).
    rewrite E1. cbn [Storage.bind]. now apply IH.
Qed.

Lemma h2h_records_mirrored (matchups_df : list Row) (managers : list string) :
  exists d, h2h_records matchups_df managers = Some d /\ distinct_keys d /\ mirrored d.
Proof.
  apply loop_mirrored.
  - constructor.
  - intros a b. cbn. repeat split; lia.
Qed.

(** A win rate of 80% in whole numbers. *)
Lemma win_rate_80 (w g : Z) :
  (0 < g)%Z -> Qle_bool (8 # 10) (inject_Z w / inject_Z g) = true -> (4 * g <= 5 * w)%Z.
Proof.
  intros Hg H. apply Qle_bool_iff in H.
  assert (Hq : 0 < inject_Z g) by (change 0 with (inject_Z 0); now rewrite <- Zlt_Qlt).
  assert (H' : (8 # 10) * inject_Z g <= inject_Z w).
  { setoid_replace (inject_Z w) with (inject_Z w / inject_Z g * inject_Z g)
      by (field; lra).
    apply Qmult_le_compat_r; [exact H|lra]. }
  unfold Qle, Qmult, inject_Z in H'. cbn [Qnum Qden] in H'. lia.
Qed.

Lemma dominance_inv (k : key) (record : Tally) (e : Dominance) :
  In e (entry k record) ->
  dominator e = fst k /\ victim e = snd k
  /\ d_wins e = k_wins record /\ d_losses e = k_losses record
  /\ d_games e = k_games record
  /\ (5 <= k_games record)%Z /\ (4 * k_games record <= 5 * k_wins record)%Z
  /\ dominance e == inject_Z (k_wins record) / inject_Z (k_games record) * inject_Z 100.
Proof.
  unfold entry. destruct (Z.leb_spec 5 (k_games record)) as [H5|]; [|intros []].
  destruct (Qle_bool (8 # 10) _) eqn:E; [|intros []].
  intros [<-|[]]. cbn. repeat split; try assumption; try reflexivity.
  apply win_rate_80; [lia|exact E].
Qed.

Lemma matchup_inv (matchups_df : list Row) (managers : list string)
  (l : list Dominance) (e : Dominance) :
  kryptonite_matchups matchups_df managers = Some l -> In e l ->
  exists d,
    distinct_keys d /\ mirrored d
    /\ d_wins e = k_wins (view d (dominator e, victim e))
    /\ d_losses e = k_losses (view d (dominator e, victim e))
    /\ d_games e = k_games (view d (dominator e, victim e))
    /\ (5 <= d_games e)%Z /\ (4 * d_games e <= 5 * d_wins e)%Z
    /\ dominance e == inject_Z (d_wins e) / inject_Z (d_games e) * inject_Z 100
    /\ h2h_records matchups_df managers = Some d.
Proof.
  unfold kryptonite_matchups.
  destruct (h2h_records_mirrored matchups_df managers) as (d & E & N & M).
  rewrite E. intros [= <-] Hin. exists d.
  apply in_flat_map in Hin. destruct Hin as ([k t] & Hk & He). cbn [fst snd] in He.
  apply dominance_inv in He. destruct He as (Ea & Eb & Ew & El & Eg & H5 & H80 & Hd).
  assert (Hv : view d (dominator e, victim e) = t).
  { rewrite Ea, Eb. destruct k as [a b]. cbn [fst snd].
    unfold view, PyDict.get_default. now rewrite (item_get d (a, b) t N Hk). }
  rewrite Hv, Ew, El, Eg. split; [exact N|]. split; [exact M|].
  repeat (split; [first [reflexivity|assumption]|]). reflexivity.
Qed.

(** X14.  [analyze_kryptonite_matchups] never fails on a missing key, and
    every row it finds stands for at least five games of two different
    managers of which the dominator won at least four in five, so that
    [dominance] lies between 80 and 100; wins and losses do not exceed the
    games; and no pair is listed in both directions. *)
Theorem kryptonite_one_way (matchups_df : list Row) (managers : list string) :
  exists l,
    kryptonite_matchups matchups_df managers = Some l
    /\ forall e, In e l ->
         (5 <= d_games e)%Z
         /\ (4 * d_games e <= 5 * d_wins e)%Z
         /\ (0 <= d_losses e)%Z
         /\ (d_wins e + d_losses e <= d_games e)%Z
         /\ inject_Z 80 <= dominance e /\ dominance e <= inject_Z 100
         /\ dominator e <> victim e
         /\ forall e', In e' l ->
              ~ (dominator e' = victim e /\ victim e' = dominator e).
Proof.
  destruct (kryptonite_matchups matchups_df managers) as [l|] eqn:E.
  2: { unfold kryptonite_matchups in E.
       destruct (h2h_records_mirrored matchups_df managers) as (d & Ed & _).
       rewrite Ed in E. discriminate. }
  exists l. split; [reflexivity|]. intros e He.
  destruct (matchup_inv _ _ _ _ E He) as (d & N & M & Ew & El & Eg & H5 & H80 & Hd & Ed).
  destruct (M (dominator e) (victim e)) as (G & W & W0 & L0 & T).
  split; [exact H5|]. split; [exact H80|]. split; [lia|]. split; [lia|].
  assert (Hg : 0 < inject_Z (d_games e)).
  { change 0 with (inject_Z 0). rewrite <- Zlt_Qlt. lia. }
  assert (Hlo : 8 # 10 <= inject_Z (d_wins e) / inject_Z (d_games e)).
  { apply Qle_shift_div_l; [exact Hg|].
    unfold Qle, Qmult, inject_Z. cbn [Qnum Qden]. lia. }
  assert (Hhi : inject_Z (d_wins e) / inject_Z (d_games e) <= 1).
  { apply Qle_shift_div_r; [exact Hg|]. rewrite Qmult_1_l, <- Zle_Qle. lia. }
  split; [rewrite Hd; change (inject_Z 80) with 80; change (inject_Z 100) with 100; lra|].
  split; [rewrite Hd; change (inject_Z 100) with 100; lra|].
  split.
  - intros Eq. rewrite Eq in *. lia.
  - intros e' He' [E1 E2].
    destruct (matchup_inv _ _ _ _ E He')
      as (d' & _ & _ & Ew' & _ & Eg' & H5' & H80' & _ & Ed').
    rewrite Ed in Ed'. injection Ed' as <-.
    rewrite E1, E2 in Ew', Eg'.
    destruct (M (victim e) (dominator e)) as (G' & W' & _).
    lia.
Qed.

Lemma won_by_unique (row : Row) (a b : string) :
  won_by row a = true -> won_by row b = true -> a = b.
Proof.
  unfold won_by. destruct (winning_manager row) as [w|]; [|discriminate].
  rewrite !String.eqb_eq. congruence.
Qed.

(** What one row adds to the tally of two different managers. *)
Lemma count_row_counts (managers : list string) (d d' : table) (row : Row) (a b : string) :
  a <> b -> count_row managers d row = Some d' ->
  let one (c : bool) := if c then 1%Z else 0%Z in
  k_games (view d' (a, b))
  = (k_games (view d (a, b)) + one (between managers a b row))%Z
  /\ k_wins (view d' (a, b))
     = (k_wins (view d (a, b)) + one (between managers a b row && won_by row a))%Z
  /\ k_losses (view d' (a, b))
     = (k_losses (view d (a, b)) + one (between managers a b row && won_by row b))%Z.
Proof.
  intros Hab H. destruct (count_row_spec managers d row) as (d1 & E & _ & S).
  rewrite E in H. injection H as ->. cbv zeta. unfold between.
  destruct S as [[A ->]|[A S]]; rewrite A; cbn [andb].
  { repeat split; lia. }
  specialize (S (a, b)). cbv zeta in S. destruct S as (G & W & L).
  rewrite G, W, L.
  destruct (same_key (a, b) (manager1 row, manager2 row)) eqn:K1;
    destruct (same_key (a, b) (manager2 row, manager1 row)) eqn:K2;
    try apply key_eqb_eq in K1; try apply key_eqb_eq in K2.
  - exfalso. congruence.
  - injection K1 as <- <-.
    destruct (won_by row a) eqn:Wa, (won_by row b) eqn:Wb; cbn; try (repeat split; lia).
    exfalso. apply Hab. now apply (won_by_unique row).
  - injection K2 as <- <-.
    destruct (won_by row a) eqn:Wa, (won_by row b) eqn:Wb; cbn; try (repeat split; lia).
    exfalso. apply Hab. now apply (won_by_unique row).
  - rewrite !andb_false_r. cbn. repeat split; lia.
Qed.

Lemma loop_counts (managers : list string) (a b : string) (rows : list Row) :
  a <> b ->
  forall d d' : table,
    loop managers d rows = Some d' ->
    k_games (view d' (a, b))
    = (k_games (view d (a, b)) + games_between rows managers a b)%Z
    /\ k_wins (view d' (a, b))
       = (k_wins (view d (a, b)) + wins_between rows managers a b)%Z
    /\ k_losses (view d' (a, b))
       = (k_losses (view d (a, b)) + wins_between rows managers b a)%Z.
Proof.
  intros Hab. unfold games_between, wins_between.
  induction rows as [|row rows IH]; intros d d' H; cbn [loop] in H.
  - injection H as ->. cbn. repeat split; lia.
  - destruct (count_row managers d row) as [d1|] eqn:E; [|discriminate]. cbn [Storage.bind] in H.
    destruct (IH d1 d' H) as (G & W & L).
    destruct (count_row_counts managers d d1 row a b Hab E) as (G1 & W1 & L1).
    cbv zeta in G1, W1, L1. rewrite G, W, L, G1, W1, L1. cbn [filter].
    assert (Eb : between managers b a row = between managers a b row).
    { unfold between. rewrite (key_eqb_swap a b), (key_eqb_swap a b). now rewrite orb_comm. }
    rewrite Eb.
    destruct (between managers a b row), (won_by row a), (won_by row b);
      cbn [andb List.length]; repeat split; lia.
Qed.

Lemma win_rate_80_back (w g : Z) :
  (0 < g)%Z -> (4 * g <= 5 * w)%Z -> Qle_bool (8 # 10) (inject_Z w / inject_Z g) = true.
Proof.
  intros Hg H. apply Qle_bool_iff.
  apply Qle_shift_div_l.
  - change 0 with (inject_Z 0). now rewrite <- Zlt_Qlt.
  - unfold Qle, Qmult, inject_Z. cbn [Qnum Qden]. lia.
Qed.

Lemma get_item (d : table) (k : key) (t : Tally) :
  PyDict.get same_key d k = Some t -> In (k, t) d.
Proof.
  induction d as [|[k0 t0] d IH]; simpl; [discriminate|].
  destruct (same_key k k0) eqn:E.
  - apply key_eqb_eq in E. subst k0. intros [= ->]. now left.
  - intros H. right. now apply IH.
Qed.

(** X15.  For two different managers [a] and [b], [analyze_kryptonite_matchups]
    lists [a] as dominator of [b] exactly when the table has at least five
    games between them, both being active managers, of which [a] won at
    least four in five; the row then carries these counts. *)
Theorem kryptonite_exact (matchups_df : list Row) (managers : list string)
  (a b : string) :
  a <> b ->
  exists l,
    kryptonite_matchups matchups_df managers = Some l
    /\ ((exists e, In e l /\ dominator e = a /\ victim e = b)
        <-> (5 <= games_between matchups_df managers a b
             /\ 4 * games_between matchups_df managers a b
                <= 5 * wins_between matchups_df managers a b)%Z)
    /\ forall e, In e l -> dominator e = a -> victim e = b ->
         d_games e = games_between matchups_df managers a b
         /\ d_wins e = wins_between matchups_df managers a b
         /\ d_losses e = wins_between matchups_df managers b a.
Proof.
  intros Hab.
  destruct (h2h_records_mirrored matchups_df managers) as (d & E & N & M).
  destruct (loop_counts managers a b matchups_df Hab [] d E) as (G & W & L).
  change (view [] (a, b)) with zero in G, W, L. cbn [k_games k_wins k_losses zero] in G, W, L.
  rewrite Z.add_0_l in G, W, L.
  assert (El : kryptonite_matchups matchups_df managers
               = Some (flat_map (fun item => entry (fst item) (snd item)) d)).
  { unfold kryptonite_matchups. now rewrite E. }
  eexists. split; [exact El|].
  assert (Hrow : forall e,
             In e (flat_map (fun item => entry (fst item) (snd item)) d) ->
             dominator e = a -> victim e = b ->
             d_games e = k_games (view d (a, b))
             /\ d_wins e = k_wins (view d (a, b))
             /\ d_losses e = k_losses (view d (a, b))
             /\ (5 <= d_games e)%Z /\ (4 * d_games e <= 5 * d_wins e)%Z).
  { intros e He Ea Eb.
    destruct (matchup_inv _ _ _ _ El He)
      as (d' & _ & _ & Ew & El' & Eg & H5 & H80 & _ & Ed).
    rewrite E in Ed. injection Ed as <-. rewrite Ea, Eb in Ew, El', Eg. auto. }
  split; [split|].
  - intros (e & He & Ea & Eb). destruct (Hrow e He Ea Eb) as (Eg & Ew & _ & H5 & H80).
    rewrite <- G, <- W, <- Eg, <- Ew. auto.
  - intros [H5 H80]. rewrite <- G in H5, H80. rewrite <- W in H80.
    destruct (PyDict.get same_key d (a, b)) as [t|] eqn:Eg.
    2: { unfold view, PyDict.get_default in H5. rewrite Eg in H5. cbn in H5. lia. }
    assert (Hv : view d (a, b) = t).
    { unfold view, PyDict.get_default. now rewrite Eg. }
    rewrite Hv in H5, H80.
    exists {| dominator := a; victim := b;
              d_wins := k_wins t; d_losses := k_losses t; d_games := k_games t;
              dominance := inject_Z (k_wins t) / inject_Z (k_games t) * inject_Z 100;
              dominance_level :=
                if Qle_bool (9 # 10) (inject_Z (k_wins t) / inject_Z (k_games t))
                then "Kryptonite"%string else "Heavy Favorite"%string |}.
    split; [|split; reflexivity].
    apply in_flat_map. exists ((a, b), t). split; [now apply get_item|].
    cbn [fst snd]. unfold entry.
    destruct (Z.leb_spec 5 (k_games t)) as [_|]; [|lia].
    rewrite (win_rate_80_back (k_wins t) (k_games t)) by lia. now left.
  - intros e He Ea Eb. destruct (Hrow e He Ea Eb) as (Eg & Ew & El' & _).
    rewrite G, W, L in *. auto.
Qed.

Lemma kryptonite_exact_witness :
  exists l,
    kryptonite_matchups sample_series active_managers = Some l
    /\ ((exists e, In e l /\ dominator e = "Hayden"%string /\ victim e = "Michael"%string)
        <-> (5 <= games_between sample_series active_managers "Hayden" "Michael"
             /\ 4 * games_between sample_series active_managers "Hayden" "Michael"
                <= 5 * wins_between sample_series active_managers "Hayden" "Michael")%Z)
    /\ forall e, In e l -> dominator e = "Hayden"%string -> victim e = "Michael"%string ->
         d_games e = games_between sample_series active_managers "Hayden" "Michael"
         /\ d_wins e = wins_between sample_series active_managers "Hayden" "Michael"
         /\ d_losses e = wins_between sample_series active_managers "Michael" "Hayden".
Proof.
  apply (kryptonite_exact sample_series active_managers "Hayden" "Michael").
  discriminate.
Defined.

End KryptoniteFacts.

(** ** Dictionaries: items and values *)

Module PyDictItemsFacts.

Import PyDict.

Section Items.

Variables (K V : Type).
Variable eqb : K -> K -> bool.
Hypothesis eqb_eq : forall x y, eqb x y = true <-> x = y.

Lemma dict_keys_set (d : dict K V) (k : K) (v : V) (k' : K) :
  In k' (map fst (set eqb d k v)) -> k' = k \/ In k' (map fst d).
Proof.
  induction d as [|[k0 v0] d IH]; simpl.
  - intros [H|[]]. now left.
  - destruct (eqb k k0) eqn:E; simpl.
    + intros H. now right.
    + intros [H|H]; [right; now left|].
      destruct (IH H) as [H'|H']; [now left|right; now right].
Qed.

Lemma dict_set_NoDup (d : dict K V) (k : K) (v : V) :
  NoDup (map fst d) -> NoDup (map fst (set eqb d k v)).
Proof.
  induction d as [|[k0 v0] d IH]; simpl; intros H.
  - constructor; [intros []|constructor].
  - inversion H as [|x l Hx Hl]; subst.
    destruct (eqb k k0) eqn:E; simpl.
    + now constructor.
    + constructor; [|now apply IH].
      intros Hin. apply dict_keys_set in Hin. destruct Hin as [->|Hin]; [|contradiction].
      assert (E' : eqb k k = true) by now apply eqb_eq. congruence.
Qed.

Lemma dict_get_absent (d : dict K V) (k : K) :
  ~ In k (map fst d) -> get eqb d k = None.
Proof.
  induction d as [|[k0 v0] d IH]; simpl; intros H; [reflexivity|].
  destruct (eqb k k0) eqn:E.
  - apply eqb_eq in E. subst k0. exfalso. apply H. now left.
  - apply IH. intros Hin. apply H. now right.
Qed.

Lemma dict_item_get (d : dict K V) (k : K) (v : V) :
  NoDup (map fst d) -> In (k, v) d -> get eqb d k = Some v.
Proof.
  induction d as [|[k0 v0] d IH]; simpl; intros H; [intros []|].
  inversion H as [|x l Hx Hl]; subst. intros [E|Hin].
  - injection E as -> ->. assert (E' : eqb k k = true) by now apply eqb_eq.
    now rewrite E'.
  - destruct (eqb k k0) eqn:E.
    + apply eqb_eq in E. subst k0. exfalso. apply Hx. now apply (in_map fst) in Hin.
    + now apply IH.
Qed.

Lemma dict_set_Forall (P : V -> Prop) (d : dict K V) (k : K) (v : V) :
  Forall P (map snd d) -> P v -> Forall P (map snd (set eqb d k v)).
Proof.
  intros H Hv. induction d as [|[k0 v0] d IH]; simpl.
  - now repeat constructor.
  - inversion H as [|x l Hx Hl]; subst.
    destruct (eqb k k0); simpl; constructor; auto.
Qed.

Lemma dict_get_Forall (P : V -> Prop) (d : dict K V) (k : K) (v : V) :
  Forall P (map snd d) -> get eqb d k = Some v -> P v.
Proof.
  intros H. induction d as [|[k0 v0] d IH]; simpl; [discriminate|].
  inversion H as [|x l Hx Hl]; subst.
  destruct (eqb k k0); [intros [= <-]; exact Hx|now apply IH].
Qed.

Lemma dict_get_default_Forall (P : V -> Prop) (d : dict K V) (k : K) (default : V) :
  Forall P (map snd d) -> P default -> P (get_default eqb d k default).
Proof.
  intros H Hd. unfold get_default. destruct (get eqb d k) as [v|] eqn:E; [|exact Hd].
  now apply (dict_get_Forall P d k v).
Qed.

End Items.

Arguments dict_set_NoDup {K V} eqb eqb_eq d k v.
Arguments dict_get_absent {K V} eqb eqb_eq d k.
Arguments dict_item_get {K V} eqb eqb_eq d k v.
Arguments dict_set_Forall {K V} eqb P d k v.
Arguments dict_get_Forall {K V} eqb P d k v.
Arguments dict_get_default_Forall {K V} eqb P d k default.

End PyDictItemsFacts.

(** ** Standings *)

Module StandingsFacts.

Import Models PyNum PyNumFacts PyDictItemsFacts Standings.
Local Open Scope Q_scope.

(** *** Win percentages *)

Lemma add_to_ok (d : PyDict.dict string Totals) (k : string) (f : Totals -> Totals) :
  (forall t, totals_ok t -> totals_ok (f t)) ->
  Forall totals_ok (map snd d) -> Forall totals_ok (map snd (add_to d k f)).
Proof.
  intros Hf Hd. unfold add_to. apply dict_set_Forall; [exact Hd|].
  apply Hf. apply dict_get_default_Forall; [exact Hd|].
  unfold totals_ok. cbn. lia.
Qed.

Lemma owner_totals_ok (season_records : list SeasonRecord) :
  Forall counts_non_negative season_records ->
  Forall totals_ok (map snd (owner_totals season_records)).
Proof.
  unfold owner_totals. intros H.
  assert (G : forall d, Forall totals_ok (map snd d) ->
                        Forall totals_ok (map snd (fold_left accumulate season_records d))).
  { induction H as [|r rs (Hw & Hl & Ht) Hrs IH]; intros d Hd; cbn [fold_left]; [exact Hd|].
    apply IH. unfold accumulate.
    repeat apply add_to_ok; try exact Hd;
      intros t (H1 & H2 & H3); unfold totals_ok; cbn; lia. }
  apply G. constructor.
Qed.

Lemma py_round_percent (x : Q) : percent x -> percent (py_round x 1).
Proof.
  unfold percent, py_round. change (inject_Z 100) with 100.
  change (inject_Z (10 ^ Z.of_nat 1)) with 10. intros [H0 H1].
  destruct (round_half_even_near (x * 10)) as [Hlo Hhi].
  set (z := round_half_even (x * 10)) in *.
  assert (Hz : (0 <= z <= 1000)%Z).
  { assert (A : inject_Z z <= 1000 + (1 # 2)) by lra.
    assert (B : - (1 # 2) <= inject_Z z) by lra.
    unfold Qle, Qplus, Qopp, inject_Z in A, B. cbn [Qnum Qden] in A, B. lia. }
  assert (A : 0 <= inject_Z z) by (change 0 with (inject_Z 0); rewrite <- Zle_Qle; lia).
  assert (B : inject_Z z <= 1000) by (change 1000 with (inject_Z 1000); rewrite <- Zle_Qle; lia).
  split.
  - apply Qle_shift_div_l; [reflexivity|]. lra.
  - apply Qle_shift_div_r; [reflexivity|]. lra.
Qed.

Lemma win_percentage_percent (t : Totals) :
  totals_ok t -> (0 < tot_wins t + tot_losses t + tot_ties t)%Z ->
  percent (win_percentage t).
Proof.
  intros (Hw & Hl & Ht) Hg. unfold percent, win_percentage.
  change (inject_Z 100) with 100. rewrite !inject_Z_plus.
  assert (A : 0 <= inject_Z (tot_wins t)) by (change 0 with (inject_Z 0); now rewrite <- Zle_Qle).
  assert (B : 0 <= inject_Z (tot_losses t)) by (change 0 with (inject_Z 0); now rewrite <- Zle_Qle).
  assert (C : 0 <= inject_Z (tot_ties t)) by (change 0 with (inject_Z 0); now rewrite <- Zle_Qle).
  assert (D : 0 < inject_Z (tot_wins t) + inject_Z (tot_losses t) + inject_Z (tot_ties t)).
  { rewrite <- !inject_Z_plus. change 0 with (inject_Z 0). now rewrite <- Zlt_Qlt. }
  set (w := inject_Z (tot_wins t)) in *. set (l := inject_Z (tot_losses t)) in *.
  set (i := inject_Z (tot_ties t)) in *.
  assert (Hlo : 0 <= (w + i * (1 # 2)) / (w + l + i)).
  { apply Qle_shift_div_l; [exact D|]. lra. }
  assert (Hhi : (w + i * (1 # 2)) / (w + l + i) <= 1).
  { apply Qle_shift_div_r; [exact D|]. lra. }
  split; lra.
Qed.

(** X16.  When no season record has a negative count of wins, losses or
    ties, every value of the dictionary that [get_owner_win_percentages]
    returns lies between 0 and 100. *)
Theorem win_percentages_in_range (season_records : list SeasonRecord)
  (owners : list Owner) (name : string) (v : Q) :
  Forall counts_non_negative season_records ->
  PyDict.get String.eqb (get_owner_win_percentages season_records owners) name = Some v ->
  0 <= v /\ v <= inject_Z 100.
Proof.
  intros Hnn Hget. change (percent v).
  apply (dict_get_Forall String.eqb percent
           (get_owner_win_percentages season_records owners) name v); [|exact Hget].
  unfold get_owner_win_percentages.
  pose proof (owner_totals_ok season_records Hnn) as Hok.
  set (items := owner_totals season_records) in *.
  assert (G : forall acc, Forall percent (map snd acc) ->
                Forall percent
                  (map snd (fold_left (record_percentage (owner_names owners)) items acc))).
  { induction items as [|[owner_id totals] items IH]; intros acc Hacc; cbn [fold_left];
      [exact Hacc|].
    inversion Hok as [|x l Hx Hl]; subst.
    apply IH; [exact Hl|]. unfold record_percentage. cbn [fst snd] in *.
    destruct (Z.ltb_spec 0 (tot_wins totals + tot_losses totals + tot_ties totals)) as [Hg|];
      [|exact Hacc].
    apply dict_set_Forall; [exact Hacc|].
    apply py_round_percent. now apply win_percentage_percent. }
  apply G. constructor.
Qed.

Lemma win_percentages_in_range_witness :
  0 <= py_round (win_percentage {| tot_wins := 16; tot_losses := 11; tot_ties := 1 |}) 1
  /\ py_round (win_percentage {| tot_wins := 16; tot_losses := 11; tot_ties := 1 |}) 1
     <= inject_Z 100.
Proof.
  apply (win_percentages_in_range sample_standings [] "ann").
  - repeat constructor; discriminate.
  - reflexivity.
Defined.

(** *** Champions *)

Lemma Z_eqb_eq (x y : Z) : (x =? y)%Z = true <-> x = y.
Proof. apply Z.eqb_eq. Qed.

(** The group of a season holds the season's records in their order, and a
    season without record has no group. *)
Lemma groups_from (season_records : list SeasonRecord) (s : Z) :
  forall d : PyDict.dict Z (list SeasonRecord),
    PyDict.get Z.eqb (fold_left group season_records d) s
    = match filter (fun r => (s_season r =? s)%Z) season_records with
      | [] => PyDict.get Z.eqb d s
      | l => Some (PyDict.get_default Z.eqb d s [] ++ l)
      end.
Proof.
  induction season_records as [|r rs IH]; intros d; cbn [fold_left filter]; [reflexivity|].
  rewrite IH. unfold group. unfold PyDict.get_default.
  destruct (Z.eqb_spec (s_season r) s) as [E|N].
  - rewrite E. rewrite (PyDictFacts.get_set_same Z.eqb Z_eqb_eq).
    destruct (filter _ rs); [reflexivity|]. now rewrite <- app_assoc.
  - now rewrite (PyDictFacts.get_set_other Z.eqb Z_eqb_eq) by exact N.
Qed.

Lemma season_groups_get (season_records : list SeasonRecord) (s : Z) :
  PyDict.get Z.eqb (season_groups season_records) s
  = match filter (fun r => (s_season r =? s)%Z) season_records with
    | [] => None
    | l => Some l
    end.
Proof. unfold season_groups. rewrite groups_from. reflexivity. Qed.

Lemma season_groups_NoDup (season_records : list SeasonRecord) :
  NoDup (map fst (season_groups season_records)).
Proof.
  unfold season_groups.
  assert (G : forall d, NoDup (map fst d) ->
                        NoDup (map fst (fold_left group season_records d))).
  { induction season_records as [|r rs IH]; intros d Hd; cbn [fold_left]; [exact Hd|].
    apply IH. unfold group. now apply (dict_set_NoDup Z.eqb Z_eqb_eq). }
  apply G. constructor.
Qed.

Lemma season_groups_items (season_records : list SeasonRecord) (s : Z)
  (l : list SeasonRecord) :
  In (s, l) (season_groups season_records) ->
  l <> [] /\ l = filter (fun r => (s_season r =? s)%Z) season_records.
Proof.
  intros H.
  apply (dict_item_get Z.eqb Z_eqb_eq _ _ _ (season_groups_NoDup season_records)) in H.
  rewrite season_groups_get in H.
  destruct (filter _ season_records) as [|r rs]; [discriminate|].
  injection H as <-. split; [discriminate|reflexivity].
Qed.

(** [min] returns a record of the list, and none has a lower rank. *)
Lemma fold_better (l : list SeasonRecord) :
  forall r0 : SeasonRecord,
    In (fold_left better l r0) (r0 :: l)
    /\ forall x, In x (r0 :: l) -> (final_rank (fold_left better l r0) <= final_rank x)%Z.
Proof.
  induction l as [|r l IH]; intros r0; cbn [fold_left].
  - split; [now left|]. intros x [<-|[]]. lia.
  - destruct (IH (better r0 r)) as [Hin Hmin]. unfold better in *.
    destruct (Z.ltb_spec (final_rank r) (final_rank r0)) as [Hlt|Hge].
    + split.
      * destruct Hin as [<-|Hin]; [right; now left|right; now right].
      * intros x [<-|[<-|Hx]].
        -- specialize (Hmin r (or_introl eq_refl)). lia.
        -- apply Hmin. now left.
        -- apply Hmin. now right.
    + split.
      * destruct Hin as [<-|Hin]; [now left|right; now right].
      * intros x [<-|[<-|Hx]].
        -- apply Hmin. now left.
        -- specialize (Hmin r0 (or_introl eq_refl)). lia.
        -- apply Hmin. now right.
Qed.

Lemma min_by_rank_spec (l : list SeasonRecord) :
  l <> [] ->
  exists m, min_by_rank l = Some m /\ In m l
            /\ forall x, In x l -> (final_rank m <= final_rank x)%Z.
Proof.
  destruct l as [|r l]; [contradiction|]. intros _. cbn [min_by_rank].
  eexists. split; [reflexivity|]. apply fold_better.
Qed.

(** The loop over the groups never fails, and it enters a season exactly
    when the best rank of its group is 1. *)
Lemma crown_fold (names : PyDict.dict string string)
  (items : PyDict.dict Z (list SeasonRecord)) :
  NoDup (map fst items) ->
  (forall s l, In (s, l) items -> l <> []) ->
  forall acc : PyDict.dict Z string,
    exists champions,
      fold_left (crown names) items (Some acc) = Some champions
      /\ forall s,
           PyDict.get Z.eqb champions s
           = match PyDict.get Z.eqb items s with
             | Some l =>
                 match min_by_rank l with
                 | Some m =>
                     if (final_rank m =? 1)%Z then Some (display_name names m)
                     else PyDict.get Z.eqb acc s
                 | None => PyDict.get Z.eqb acc s
                 end
             | None => PyDict.get Z.eqb acc s
             end.
Proof.
  induction items as [|[s0 l0] items IH]; intros Hnd Hne acc; cbn [fold_left].
  - exists acc. split; [reflexivity|]. reflexivity.
  - inversion Hnd as [|x l Hx Hl]; subst.
    destruct (min_by_rank_spec l0 (Hne s0 l0 (or_introl eq_refl))) as (m & Em & _).
    unfold crown at 2. cbn [fst snd]. rewrite Em.
    destruct (IH Hl (fun s l H => Hne s l (or_intror H))
                (if (final_rank m =? 1)%Z
                 then PyDict.set Z.eqb acc s0 (display_name names m) else acc))
      as (champions & Ec & Hc).
    exists champions. split; [exact Ec|]. intros s. rewrite Hc. cbn [PyDict.get].
    destruct (Z.eqb_spec s s0) as [->|N].
    + rewrite (dict_get_absent Z.eqb Z_eqb_eq items s0 Hx). rewrite Em.
      destruct (final_rank m =? 1)%Z; [|reflexivity].
      apply (PyDictFacts.get_set_same Z.eqb Z_eqb_eq).
    + assert (Eacc : PyDict.get Z.eqb
                       (if (final_rank m =? 1)%Z
                        then PyDict.set Z.eqb acc s0 (display_name names m) else acc) s
                     = PyDict.get Z.eqb acc s).
      { destruct (final_rank m =? 1)%Z; [|reflexivity].
        apply (PyDictFacts.get_set_other Z.eqb Z_eqb_eq). congruence. }
      now rewrite Eacc.
Qed.

(** X17.  [get_championship_history] never fails, and a season gets a
    champion exactly when the best final rank among its records is 1: the
    champion is then the reported name of a record of that season with rank
    1, and a season in which some record has a rank below 1 gets no entry
    even if another record has rank 1. *)
Theorem champions_have_rank_one (season_records : list SeasonRecord)
  (owners : list Owner) :
  exists champions,
    get_championship_history season_records owners = Some champions
    /\ forall s : Z,
         match PyDict.get Z.eqb champions s with
         | Some champion =>
             (exists r, In r season_records /\ s_season r = s /\ final_rank r = 1%Z
                        /\ champion = display_name (owner_names owners) r)
             /\ forall r, In r season_records -> s_season r = s -> (1 <= final_rank r)%Z
         | None =>
             forall r, In r season_records -> s_season r = s -> final_rank r = 1%Z ->
               exists r', In r' season_records /\ s_season r' = s
                          /\ (final_rank r' < 1)%Z
         end.
Proof.
  unfold get_championship_history.
  destruct (crown_fold (owner_names owners) (season_groups season_records)
              (season_groups_NoDup season_records)
              (fun s l H => proj1 (season_groups_items season_records s l H)) [])
    as (champions & Ec & Hc).
  exists champions. split; [exact Ec|]. intros s. rewrite Hc, season_groups_get.
  assert (Hf : forall r, In r (filter (fun r => (s_season r =? s)%Z) season_records)
                         <-> In r season_records /\ s_season r = s).
  { intros r. rewrite filter_In, Z.eqb_eq. reflexivity. }
  destruct (filter (fun r => (s_season r =? s)%Z) season_records) as [|r0 l] eqn:E.
  - cbn [PyDict.get]. intros r Hr Hs _. exfalso. apply (proj2 (Hf r)). now split.
  - destruct (min_by_rank_spec (r0 :: l) ltac:(discriminate)) as (m & Em & Hin & Hmin).
    rewrite Em. destruct (Z.eqb_spec (final_rank m) 1) as [E1|N1].
    + split.
      * exists m. apply Hf in Hin. destruct Hin as [Hin Hs]. now repeat split.
      * intros r Hr Hs. rewrite <- E1. apply Hmin. apply Hf. now split.
    + cbn [PyDict.get]. intros r Hr Hs H1. exists m.
      apply Hf in Hin. destruct Hin as [Hin Hms]. split; [exact Hin|]. split; [exact Hms|].
      assert (Hle : (final_rank m <= final_rank r)%Z) by (apply Hmin, Hf; now split).
      lia.
Qed.

End StandingsFacts.

(** ** Manager profiles: luck *)

Module ManagerLuckFacts.

Import PyNum Frames ManagerDna ExpectedWins ExpectedWinsFacts ManagerLuck.
Local Open Scope Q_scope.

Lemma clamp_five (x : Q) : x == 5 -> py_max 0 (py_min x (inject_Z 10)) == 5.
Proof.
  intros Hx. unfold py_max, py_min. change (inject_Z 10) with 10.
  destruct (Qle_bool x 10) eqn:E1.
  - destruct (Qle_bool x 0) eqn:E2; [|exact Hx].
    apply Qle_bool_iff in E2. lra.
  - exfalso. assert (H : x <= 10) by lra. apply Qle_bool_iff in H. congruence.
Qed.

(** X18.  On a table whose winner column follows the scores, the ['lucky']
    entry that [analyze_manager_dna] gives a manager is the neutral 5,
    whoever the manager is and however many games they played. *)
Theorem lucky_is_neutral (matchups_df : list Row) (manager : string) :
  Forall winner_by_score matchups_df -> lucky matchups_df manager == 5.
Proof.
  intros Hall. unfold lucky. apply clamp_five.
  destruct (0 <? Z.of_nat (List.length (map (score_for manager) (games_of matchups_df manager))))%Z;
    [|reflexivity].
  assert (Heq : actual_wins manager (games_of matchups_df manager)
                = expected_wins (map (score_for manager) (games_of matchups_df manager))
                    (opponent_scores matchups_df manager)).
  { change (opponent_scores matchups_df manager)
      with (map (score_against manager) (games_of matchups_df manager)).
    rewrite expected_wins_count. unfold actual_wins. f_equal.
    apply filter_ext_length. intros r Hr. unfold games_of in Hr.
    apply filter_In in Hr. destruct Hr as [Hr Hm].
    apply won_by_score; [|exact Hm].
    rewrite Forall_forall in Hall. now apply Hall. }
  rewrite Heq, Z.sub_diag. change (inject_Z 0) with 0. change (inject_Z 20) with 20.
  change (inject_Z 5) with 5.
  set (n := inject_Z _). unfold Qdiv. ring.
Qed.

Lemma lucky_is_neutral_witness : lucky sample_games "Hayden" == 5.
Proof.
  apply (lucky_is_neutral sample_games "Hayden").
  repeat constructor; discriminate.
Defined.

(** The entry does move when the winner column disagrees with the scores. *)
Example lucky_when_winner_scored_less :
  lucky [BadBeats.game 2022 1 "Hayden" 90 "Michael" 100 (Some "Hayden"%string)] "Hayden"
  == 10.
Proof. reflexivity. Qed.

End ManagerLuckFacts.
